(** * Transposition table of Stockfish (src/tt.cpp): a shallow embedding

    The file follows tt.cpp top-down: the packed entry and [TTEntry::save],
    the large-page privilege helper, [TranspositionTable::resize],
    [clear], [probe] and [hashfull].  Machine integers are [Z] with the
    casts of the source written out; the table is a list of clusters, a
    cluster a list of entries, and the member functions thread the table
    object through a small state monad. *)

From Stdlib Require Import ZArith Lia Bool List.
From stdpp Require Import base tactics option list numbers.

Local Open Scope Z_scope.

(** [tauto] on the goal and the hypotheses it depends on, without the
    variables of the section that are not part of them. *)
Ltac clear_unused :=
  repeat match goal with
         | x : ?T |- _ =>
             lazymatch type of T with
             | Prop => fail
             | _ => clear x
             end
         end.
Ltac prop_tauto := clear_unused; tauto.

(** ** Integer casts of the source *)

Definition uint8_t (x : Z) : Z := x mod 256.
Definition uint16_t (x : Z) : Z := x mod 65536.
Definition int16_t (x : Z) : Z := (x + 32768) mod 65536 - 32768.
(** [size_t], [uint64_t] and [uintptr_t] are 64 bits wide (Win64). *)
Definition uint64_t (x : Z) : Z := x mod 2 ^ 64.
Definition int64_t (x : Z) : Z := (x + 2 ^ 63) mod 2 ^ 64 - 2 ^ 63.

Definition bool_to_Z (b : bool) : Z := if b then 1 else 0.

(** ** TTEntry *)

(** The six data members of [TTEntry], 10 bytes in all. *)
Record TTEntry : Type := mkTTEntry {
  key16     : Z;  (* uint16_t *)
  move16    : Z;  (* uint16_t *)
  value16   : Z;  (* int16_t  *)
  eval16    : Z;  (* int16_t  *)
  genBound8 : Z;  (* uint8_t  *)
  depth8    : Z   (* uint8_t  *)
}.

Definition set_move16 (m : Z) (e : TTEntry) : TTEntry :=
  mkTTEntry (key16 e) m (value16 e) (eval16 e) (genBound8 e) (depth8 e).

Definition set_genBound8 (g : Z) (e : TTEntry) : TTEntry :=
  mkTTEntry (key16 e) (move16 e) (value16 e) (eval16 e) g (depth8 e).

(** All-zero memory read as an entry. *)
Definition zero_entry : TTEntry := mkTTEntry 0 0 0 0 0 0.

(** A cluster is [entry[ClusterSize]]; its two padding bytes hold no data. *)
Definition Cluster : Type := list TTEntry.

(** ** The table object, the globals of tt.cpp and the outside world *)

Inductive Message : Type :=
| NoPrivilegeForLargePages
| FailedLargePageMemory (mbSize : Z)
| HashLargePages (mb : Z)
| FailedToAllocate (mbSize : Z).

(** Calls that leave the program: the release and the request of
    memory, and lines written to the console. *)
Inductive Event : Type :=
| VirtualFree (p : Z)
| free (p : Z)
| calloc (memsize : Z)
| VirtualAlloc (memsize : Z)
| malloc (memsize : Z)
| Print (msg : Message).

Record State : Type := mkState {
  (* data members of TranspositionTable *)
  clusterCount     : Z;     (* size_t *)
  table            : Z;     (* Cluster*: address of cluster 0 *)
  mem              : Z;     (* void*, 0 is NULL *)
  generation8      : Z;     (* uint8_t *)
  mbSize_last_used : Z;     (* size_t *)
  large_pages_used : bool;
  (* globals *)
  use_large_pages  : Z;     (* int *)
  got_privileges   : Z;     (* int *)
  (* the heap: size of the block at [mem], and the clusters that lie
     between [table] and the end of that block *)
  block_size       : Z;
  clusters         : list Cluster;
  (* calls made so far, latest first *)
  trace            : list Event
}.

Definition set_clusterCount (x : Z) (s : State) : State :=
  mkState x (table s) (mem s) (generation8 s) (mbSize_last_used s)
    (large_pages_used s) (use_large_pages s) (got_privileges s)
    (block_size s) (clusters s) (trace s).
Definition set_table (x : Z) (s : State) : State :=
  mkState (clusterCount s) x (mem s) (generation8 s) (mbSize_last_used s)
    (large_pages_used s) (use_large_pages s) (got_privileges s)
    (block_size s) (clusters s) (trace s).
Definition set_mem (x : Z) (s : State) : State :=
  mkState (clusterCount s) (table s) x (generation8 s) (mbSize_last_used s)
    (large_pages_used s) (use_large_pages s) (got_privileges s)
    (block_size s) (clusters s) (trace s).
Definition set_mbSize_last_used (x : Z) (s : State) : State :=
  mkState (clusterCount s) (table s) (mem s) (generation8 s) x
    (large_pages_used s) (use_large_pages s) (got_privileges s)
    (block_size s) (clusters s) (trace s).
Definition set_large_pages_used (x : bool) (s : State) : State :=
  mkState (clusterCount s) (table s) (mem s) (generation8 s)
    (mbSize_last_used s) x (use_large_pages s) (got_privileges s)
    (block_size s) (clusters s) (trace s).
Definition set_use_large_pages (x : Z) (s : State) : State :=
  mkState (clusterCount s) (table s) (mem s) (generation8 s)
    (mbSize_last_used s) (large_pages_used s) x (got_privileges s)
    (block_size s) (clusters s) (trace s).
Definition set_got_privileges (x : Z) (s : State) : State :=
  mkState (clusterCount s) (table s) (mem s) (generation8 s)
    (mbSize_last_used s) (large_pages_used s) (use_large_pages s) x
    (block_size s) (clusters s) (trace s).
Definition set_block_size (x : Z) (s : State) : State :=
  mkState (clusterCount s) (table s) (mem s) (generation8 s)
    (mbSize_last_used s) (large_pages_used s) (use_large_pages s)
    (got_privileges s) x (clusters s) (trace s).
Definition set_clusters (x : list Cluster) (s : State) : State :=
  mkState (clusterCount s) (table s) (mem s) (generation8 s)
    (mbSize_last_used s) (large_pages_used s) (use_large_pages s)
    (got_privileges s) (block_size s) x (trace s).
Definition set_trace (x : list Event) (s : State) : State :=
  mkState (clusterCount s) (table s) (mem s) (generation8 s)
    (mbSize_last_used s) (large_pages_used s) (use_large_pages s)
    (got_privileges s) (block_size s) (clusters s) x.

(** ** The monad of the member functions

    A call returns a value and the next state, leaves through
    [exit(EXIT_FAILURE)], or has no defined behaviour (an access outside
    the clusters of the table). *)

Inductive Result (A : Type) : Type :=
| Ret (a : A) (s : State)
| Exit (s : State)
| Undefined.
Arguments Ret {A} a s.
Arguments Exit {A} s.
Arguments Undefined {A}.

Definition M (A : Type) : Type := State -> Result A.

Definition ret {A : Type} (a : A) : M A := fun s => Ret a s.

Definition bind {A B : Type} (m : M A) (f : A -> M B) : M B :=
  fun s =>
    match m s with
    | Ret a s' => f a s'
    | Exit s' => Exit s'
    | Undefined => Undefined
    end.

Notation "x <- m ;; k" := (bind m (fun x => k))
  (at level 100, m at next level, right associativity).
Notation "m ;;; k" := (bind m (fun _ => k))
  (at level 100, right associativity).

Definition gets {A : Type} (f : State -> A) : M A := fun s => Ret (f s) s.
Definition modify (f : State -> State) : M unit := fun s => Ret tt (f s).
Definition exit {A : Type} : M A := fun s => Exit s.
Definition undefined {A : Type} : M A := fun _ => Undefined.
Definition emit (ev : Event) : M unit :=
  modify (fun s => set_trace (ev :: trace s) s).

(** [table[c].entry[i]] read. *)
Definition load (c i : nat) : M TTEntry :=
  cls <- gets clusters ;;
  match cls !! c with
  | Some cl => match cl !! i with
               | Some e => ret e
               | None => undefined
               end
  | None => undefined
  end.

(** [table[c].entry[i].genBound8 = g]. *)
Definition store_genBound8 (c i : nat) (g : Z) : M unit :=
  cls <- gets clusters ;;
  match cls !! c with
  | Some cl => match cl !! i with
               | Some e =>
                   modify (set_clusters (<[c := <[i := set_genBound8 g e]> cl]> cls))
               | None => undefined
               end
  | None => undefined
  end.

(** ** The code of tt.cpp *)

Section TT.

Set Default Proof Using "Type".

(** Constants of types.h and tt.h, which are not part of the sources at
    hand: they are parameters of the development. *)
Variable DEPTH_OFFSET : Z.
Variable BOUND_EXACT : Z.
Variable ClusterSize : nat.
Variable CacheLineSize : Z.
Variable sizeofCluster : Z.          (* sizeof(Cluster) *)

(** [first_entry(key)] of tt.h: the cluster a key is mapped to, given
    the current [clusterCount], as an index into the table. *)
Variable first_entry : Z -> Z -> nat.

(** The UCI options read by tt.cpp. *)
Variable Options_Threads : Z.        (* Options["Threads"] *)
Variable Options_Large_Pages : bool. (* Options["Large Pages"] *)

(** Answers of the operating system, given the calls made before. *)
Variable OpenProcessToken : list Event -> bool.
Variable LookupPrivilegeValue : list Event -> bool.
Variable AdjustTokenPrivileges : list Event -> bool.
Variable GetLastError : list Event -> Z.
Variable ERROR_NOT_ALL_ASSIGNED : Z.
Variable VirtualAlloc_result : list Event -> Z -> Z.
Variable calloc_result : list Event -> Z -> Z.
Variable malloc_result : list Event -> Z -> Z.
(** What a new block at a given address holds, per cluster and entry
    (the zeroes of [calloc] are one instance). *)
Variable uninit : Z -> nat -> nat -> TTEntry.

(** *** TTEntry::save

    [g] is the global [TT.generation8].  [None] is the failed
    [assert(d >= DEPTH_OFFSET)]. *)
Definition save (g : Z) (e : TTEntry)
    (k v : Z) (pv : bool) (b d m ev : Z) : option TTEntry :=
  (* Preserve any existing move for the same position *)
  let e1 :=
    if negb (m =? 0) || negb (Z.shiftr k 48 =? key16 e)
    then set_move16 (uint16_t m) e
    else e in
  (* Overwrite less valuable entries *)
  if negb (Z.shiftr k 48 =? key16 e1)
     || (d - DEPTH_OFFSET >? depth8 e1 - 4)
     || (b =? BOUND_EXACT)
  then
    if d >=? DEPTH_OFFSET then
      Some (mkTTEntry
              (uint16_t (Z.shiftr k 48))
              (move16 e1)
              (int16_t v)
              (int16_t ev)
              (uint8_t (Z.lor (Z.lor g (Z.shiftl (uint8_t (bool_to_Z pv)) 2)) b))
              (uint8_t (d - DEPTH_OFFSET)))
    else None
  else Some e1.

(** Modelled from the spec: [TTEntry::depth()] is declared in tt.h; the
    depth is "stored with a fixed negative offset", so the depth an
    entry stands for is its [depth8] plus [DEPTH_OFFSET]. *)
Definition depth (e : TTEntry) : Z := depth8 e + DEPTH_OFFSET.

(** *** Large-page privileges *)

Definition Get_LockMemory_Privileges : M bool :=
  tr <- gets trace ;;
  ret (if OpenProcessToken tr
       then if LookupPrivilegeValue tr
            then if AdjustTokenPrivileges tr
                 then negb (GetLastError tr =? ERROR_NOT_ALL_ASSIGNED)
                 else false
            else false
       else false).

Definition Try_Get_LockMemory_Privileges : M unit :=
  modify (set_use_large_pages 0) ;;;
  if negb Options_Large_Pages then ret tt
  else
    gp <- gets got_privileges ;;
    (if gp =? -1 then
       r <- Get_LockMemory_Privileges ;;
       if r then modify (set_got_privileges 1)
       else emit (Print NoPrivilegeForLargePages) ;;;
            modify (set_got_privileges 0)
     else ret tt) ;;;
    gp' <- gets got_privileges ;;
    if gp' =? 0 then ret tt
    else modify (set_use_large_pages 1).

(** *** TranspositionTable::clear *)

Definition zero_cluster : Cluster := replicate ClusterSize zero_entry.

(** [std::memset(&table[start], 0, len * sizeof(Cluster))]. *)
Definition memset_clusters (first count : Z) : M unit :=
  cls <- gets clusters ;;
  if first + count <=? Z.of_nat (length cls) then
    modify (set_clusters
              (take (Z.to_nat first) cls
               ++ replicate (Z.to_nat count) zero_cluster
               ++ drop (Z.to_nat (first + count)) cls))
  else undefined.

(** The part of the table the thread with index [idx] zeroes:
    [stride], [start] and [len] of the thread body. *)
Definition stride (cc : Z) : Z := cc / Options_Threads.
Definition start (cc idx : Z) : Z := uint64_t (stride cc * idx).
Definition len (cc idx : Z) : Z :=
  if negb (idx =? Options_Threads - 1)
  then stride cc
  else uint64_t (cc - start cc idx).

(** The body of the thread with index [idx].  Binding the thread to a
    processor group does not touch the table. *)
Definition clear_worker (idx : Z) : M unit :=
  cc <- gets clusterCount ;;
  memset_clusters (start cc idx) (len cc idx).

(** The threads in the order they are created. *)
Definition threads : list Z :=
  map Z.of_nat (seq 0 (Z.to_nat Options_Threads)).

(** The workers write disjoint ranges; a run of [clear] is the run of
    their bodies in some order, and [clear] returns after the last. *)
Fixpoint run_workers (order : list Z) : M unit :=
  match order with
  | [] => ret tt
  | idx :: rest => clear_worker idx ;;; run_workers rest
  end.

Definition clear : M unit := run_workers threads.

(** *** TranspositionTable::resize *)

Definition release_mem : M unit :=
  m <- gets mem ;;
  if m =? 0 then ret tt
  else
    lpu <- gets large_pages_used ;;
    (if lpu then emit (VirtualFree m) else emit (free m)) ;;;
    modify (set_block_size 0) ;;;
    modify (set_clusters []).

(** A call of an allocator: the answer is the address of a block of
    [memsize] bytes, or 0. *)
Definition allocate (call : Z -> Event) (result : list Event -> Z -> Z)
    (memsize : Z) : M Z :=
  tr <- gets trace ;;
  let p := result tr memsize in
  emit (call memsize) ;;;
  modify (set_block_size (if p =? 0 then 0 else memsize)) ;;;
  ret p.

(** [(uintptr_t(mem) + CacheLineSize - 1) & ~(CacheLineSize - 1)] *)
Definition align_up (p : Z) : Z :=
  Z.land (uint64_t (p + CacheLineSize - 1))
         (uint64_t (Z.lnot (CacheLineSize - 1))).

(** The clusters that lie between [t] and the end of the block at [p]. *)
Definition block_clusters (p size t : Z) : list Cluster :=
  map (fun c => map (uninit p c) (seq 0 ClusterSize))
      (seq 0 (Z.to_nat ((p + size - t) / sizeofCluster))).

Definition resize (mbSize : Z) : M unit :=
  (* Threads.main()->wait_for_search_finished(): no search is running *)
  last <- gets mbSize_last_used ;;
  let mbSize := if mbSize =? 0 then last else mbSize in
  if mbSize =? 0 then ret tt
  else
    modify (set_mbSize_last_used mbSize) ;;;
    Try_Get_LockMemory_Privileges ;;;
    let newClusterCount :=
      uint64_t (uint64_t (mbSize * 1024) * 1024) / sizeofCluster in
    cc <- gets clusterCount ;;
    ulp <- gets use_large_pages ;;
    lpu <- gets large_pages_used ;;
    if (newClusterCount =? cc)
       && (((ulp =? 1) && lpu) || ((ulp =? 0) && negb lpu))
    then ret tt
    else
      modify (set_clusterCount newClusterCount) ;;;
      (if ulp <? 1 then
         release_mem ;;;
         let memsize :=
           uint64_t (uint64_t (uint64_t (newClusterCount * sizeofCluster)
                               + CacheLineSize) - 1) in
         p <- allocate calloc calloc_result memsize ;;
         modify (set_mem p) ;;;
         modify (set_large_pages_used false)
       else
         release_mem ;;;
         let memsize := int64_t (uint64_t (newClusterCount * sizeofCluster)) in
         p <- allocate VirtualAlloc VirtualAlloc_result (uint64_t memsize) ;;
         modify (set_mem p) ;;;
         if p =? 0 then
           emit (Print (FailedLargePageMemory mbSize)) ;;;
           modify (set_use_large_pages 0) ;;;
           p' <- allocate malloc malloc_result
                   (uint64_t (uint64_t (uint64_t (newClusterCount * sizeofCluster)
                                        + CacheLineSize) - 1)) ;;
           modify (set_mem p') ;;;
           modify (set_large_pages_used false)
         else
           emit (Print (HashLargePages (Z.shiftr memsize 20))) ;;;
           modify (set_large_pages_used true)) ;;;
      m <- gets mem ;;
      if m =? 0 then
        emit (Print (FailedToAllocate mbSize)) ;;;
        exit
      else
        size <- gets block_size ;;
        modify (set_table (align_up m)) ;;;
        modify (set_clusters (block_clusters m size (align_up m))) ;;;
        clear.

(** *** TranspositionTable::probe *)

(** The age term of the replacement strategy, for the current generation
    [g] and the [genBound8] byte [gb] of an entry. *)
Definition entry_age (g gb : Z) : Z := Z.land (263 + g - gb) 248.

(** The replace value of an entry: its depth minus 8 times its
    relative age. *)
Definition replace_value (g : Z) (e : TTEntry) : Z :=
  depth8 e - entry_age g (genBound8 e).

(** First loop, from entry [i] on, with [n] entries left to look at. *)
Fixpoint probe_scan (c : nat) (k16 : Z) (n i : nat) : M (option (bool * nat)) :=
  match n with
  | O => ret None
  | S n' =>
      e <- load c i ;;
      if (key16 e =? 0) || (key16 e =? k16) then
        g <- gets generation8 ;;
        store_genBound8 c i (uint8_t (Z.lor g (Z.land (genBound8 e) 7))) ;;; (* Refresh *)
        e' <- load c i ;;
        ret (Some (negb (key16 e' =? 0), i))
      else probe_scan c k16 n' (S i)
  end.

(** Second loop, from entry [i] on, with [n] entries left and the
    candidate [replace]. *)
Fixpoint probe_replace (c : nat) (n i replace : nat) : M nat :=
  match n with
  | O => ret replace
  | S n' =>
      g <- gets generation8 ;;
      r <- load c replace ;;
      e <- load c i ;;
      if replace_value g r >? replace_value g e
      then probe_replace c n' (S i) i
      else probe_replace c n' (S i) replace
  end.

(** The result is [found] and the entry returned, as the pair of the
    index of its cluster and its index in the cluster. *)
Definition probe (key : Z) : M (bool * (nat * nat)) :=
  cc <- gets clusterCount ;;
  let tte := first_entry cc key in
  let k16 := uint16_t (Z.shiftr key 48) in
  r <- probe_scan tte k16 ClusterSize 0 ;;
  match r with
  | Some (found, i) => ret (found, (tte, i))
  | None =>
      (* Find an entry to be replaced according to the replacement strategy *)
      replace <- probe_replace tte (ClusterSize - 1) 1 0 ;;
      ret (false, (tte, replace))
  end.

(** *** TranspositionTable::hashfull *)

Fixpoint hashfull_entries (i : nat) (n j : nat) (cnt : Z) : M Z :=
  match n with
  | O => ret cnt
  | S n' =>
      e <- load i j ;;
      g <- gets generation8 ;;
      hashfull_entries i n' (S j)
        (cnt + bool_to_Z (Z.land (genBound8 e) 248 =? g))
  end.

Fixpoint hashfull_clusters (n i : nat) (cnt : Z) : M Z :=
  match n with
  | O => ret cnt
  | S n' =>
      cnt' <- hashfull_entries i ClusterSize 0 cnt ;;
      hashfull_clusters n' (S i) cnt'
  end.

Definition hashfull : M Z :=
  cnt <- hashfull_clusters 1000 0 0 ;;
  ret (Z.quot cnt (Z.of_nat ClusterSize)).

(** ** Notions used to state the properties *)

(** The entry a reference [(c, i)] points to. *)
Definition entry_at (s : State) (c i : nat) : option TTEntry :=
  match clusters s !! c with
  | Some cl => cl !! i
  | None => None
  end.

(** The state in which the entry at [(c, i)] is [e]. *)
Definition with_entry (s : State) (c i : nat) (e : TTEntry) : State :=
  match clusters s !! c with
  | Some cl => set_clusters (<[c := <[i := e]> cl]> (clusters s)) s
  | None => s
  end.

(** An entry that has no tag or the tag [k16]: the test of the first
    loop of [probe]. *)
Definition empty_or_match (k16 : Z) (e : TTEntry) : Prop :=
  key16 e = 0 \/ key16 e = k16.

(** Among the first [m] entries of cluster [c], entry [r] has the least
    replace value, and is the first one that has it. *)
Definition least_valuable (s : State) (c m r : nat) : Prop :=
  (r < m)%nat /\
  exists er, entry_at s c r = Some er /\
    forall (j : nat) (e : TTEntry),
      (j < m)%nat -> entry_at s c j = Some e ->
      replace_value (generation8 s) er <= replace_value (generation8 s) e
      /\ ((j < r)%nat ->
          replace_value (generation8 s) er < replace_value (generation8 s) e).

(** The entries of the given clusters whose generation is [g]. *)
Definition current_entries (g : Z) (cls : list Cluster) : list TTEntry :=
  List.filter (fun e => Z.land (genBound8 e) 248 =? g) (concat cls).

(** The table lies in the block: the [clusterCount] clusters from
    [table] on are there, each with its [ClusterSize] entries. *)
Definition table_ok (s : State) : Prop :=
  0 <= clusterCount s < 2 ^ 64
  /\ (Z.to_nat (clusterCount s) <= length (clusters s))%nat
  /\ Forall (fun cl : Cluster => length cl = ClusterSize) (clusters s).

(** The state [release_mem] leaves. *)
Definition released (s : State) : State :=
  if mem s =? 0 then s
  else set_clusters []
         (set_block_size 0
            (set_trace ((if large_pages_used s then VirtualFree (mem s)
                         else free (mem s)) :: trace s) s)).

(** The state the call of an allocator leaves, and its answer. *)
Definition allocated (call : Z -> Event) (result : list Event -> Z -> Z)
    (memsize : Z) (s : State) : State :=
  set_block_size (if result (trace s) memsize =? 0 then 0 else memsize)
    (set_trace (call memsize :: trace s) s).

(** The state in which [table] is the block at [mem], rounded up. *)
Definition installed (s : State) : State :=
  set_clusters (block_clusters (mem s) (block_size s) (align_up (mem s)))
    (set_table (align_up (mem s)) s).

(** The state in which the clusters of the table are zero. *)
Definition zeroed (s : State) : State :=
  set_clusters (replicate (Z.to_nat (clusterCount s)) zero_cluster
                ++ drop (Z.to_nat (clusterCount s)) (clusters s)) s.

(** The number of clusters [resize] computes from a size in megabytes. *)
Definition newClusterCount (mbSize : Z) : Z :=
  uint64_t (uint64_t (mbSize * 1024) * 1024) / sizeofCluster.

(** The request with the padding of a cache line less one byte. *)
Definition padded_size (cc : Z) : Z :=
  uint64_t (uint64_t (uint64_t (cc * sizeofCluster) + CacheLineSize) - 1).

(** The states [resize] goes through when it allocates, from the state
    [s2] in which the old block is released: by [calloc], and by
    [VirtualAlloc] with [malloc] behind it. *)
Definition standard_alloc (s2 : State) : State :=
  set_large_pages_used false
    (set_mem (calloc_result (trace s2) (padded_size (clusterCount s2)))
       (allocated calloc calloc_result (padded_size (clusterCount s2)) s2)).

Definition large_page_size (cc : Z) : Z :=
  int64_t (uint64_t (cc * sizeofCluster)).

Definition large_page_alloc (mbSize : Z) (s2 : State) : State :=
  let memsize := large_page_size (clusterCount s2) in
  let p := VirtualAlloc_result (trace s2) (uint64_t memsize) in
  let s3 :=
    set_mem p (allocated VirtualAlloc VirtualAlloc_result (uint64_t memsize) s2) in
  if p =? 0 then
    let s4 :=
      set_use_large_pages 0
        (set_trace (Print (FailedLargePageMemory mbSize) :: trace s3) s3) in
    set_large_pages_used false
      (set_mem (malloc_result (trace s4) (padded_size (clusterCount s2)))
         (allocated malloc malloc_result (padded_size (clusterCount s2)) s4))
  else
    set_large_pages_used true
      (set_trace (Print (HashLargePages (Z.shiftr memsize 20)) :: trace s3) s3).

Definition reallocated (mbSize : Z) (s1 : State) : State :=
  let s2 := released (set_clusterCount (newClusterCount mbSize) s1) in
  if use_large_pages s1 <? 1 then standard_alloc s2
  else large_page_alloc mbSize s2.

(** The test under which [resize] returns before it allocates, in the
    state [s1] that [Try_Get_LockMemory_Privileges] has left. *)
Definition resize_skips (mbSize : Z) (s1 : State) : bool :=
  (newClusterCount mbSize =? clusterCount s1)
  && (((use_large_pages s1 =? 1) && large_pages_used s1)
      || ((use_large_pages s1 =? 0) && negb (large_pages_used s1))).

(** The allocator calls in a trace. *)
Definition is_allocation (ev : Event) : bool :=
  match ev with
  | calloc _ | VirtualAlloc _ | malloc _ => true
  | _ => false
  end.

Definition allocations (tr : list Event) : nat :=
  length (List.filter is_allocation tr).

(** ** Notions for the further properties *)

(** An entry whose members are in the range of their types. *)
Definition entry_wf (e : TTEntry) : Prop :=
  0 <= key16 e < 65536 /\ 0 <= move16 e < 65536
  /\ -32768 <= value16 e < 32768 /\ -32768 <= eval16 e < 32768
  /\ 0 <= genBound8 e < 256 /\ 0 <= depth8 e < 256.

(** [tte->save(k, v, pv, b, d, m, ev)] for the entry [(c, i)] of the
    table, as the search calls it on the entry [probe] has returned:
    [TTEntry::save] on this entry with the generation of the table
    object.  [None] is a reference outside the table or the failed
    assertion. *)
Definition save_entry (s : State) (c i : nat)
    (k v : Z) (pv : bool) (b d m ev : Z) : option State :=
  match entry_at s c i with
  | Some e =>
      match save (generation8 s) e k v pv b d m ev with
      | Some e' => Some (with_entry s c i e')
      | None => None
      end
  | None => None
  end.

(** The calls that give memory back. *)
Definition is_release (ev : Event) : bool :=
  match ev with
  | VirtualFree _ | free _ => true
  | _ => false
  end.

(** Allocators that answer as an operating system does: with 0, or with
    the address of a block that lies in the address space; large pages
    start at a multiple of the cache line size. *)
Definition allocators_ok : Prop :=
  (forall tr n, 0 <= n < 2 ^ 63 ->
     calloc_result tr n = 0
     \/ (0 < calloc_result tr n /\ calloc_result tr n + n < 2 ^ 64))
  /\ (forall tr n, 0 <= n < 2 ^ 63 ->
        malloc_result tr n = 0
        \/ (0 < malloc_result tr n /\ malloc_result tr n + n < 2 ^ 64))
  /\ (forall tr n, 0 <= n < 2 ^ 63 ->
        VirtualAlloc_result tr n = 0
        \/ (0 < VirtualAlloc_result tr n
            /\ VirtualAlloc_result tr n + n < 2 ^ 64
            /\ VirtualAlloc_result tr n mod CacheLineSize = 0)).

(** The call by which [resize] gives the block of [s] back: none when
    there is no block, [VirtualFree] for large pages, [free] otherwise. *)
Definition release_events (s : State) : list Event :=
  if mem s =? 0 then []
  else [if large_pages_used s then VirtualFree (mem s) else free (mem s)].

(** ** Sample data *)

(** An entry with a tag, a [depth8] and a [genBound8], the rest zero. *)
Definition sample_entry (tag d8 gb : Z) : TTEntry := mkTTEntry tag 0 0 0 gb d8.

(** A table object with the given clusters and generation, no block
    behind it, and the globals as they are at program start. *)
Definition sample_table (g : Z) (cls : list Cluster) : State :=
  mkState (Z.of_nat (length cls)) 0 0 g 0 false (-1) (-1) 0 cls [].

(** The table object at program start. *)
Definition initial_state : State := sample_table 0 [].

(** ** Casts and bit operations *)

Lemma land_248 (x : Z) : Z.land x 248 = 8 * ((x / 8) mod 32).
Proof.
  change 248 with (Z.shiftl 31 3).
  transitivity (Z.shiftl (Z.land (Z.shiftr x 3) 31) 3).
  - apply Z.bits_inj'. intros n Hn.
    rewrite Z.land_spec.
    destruct (Z.ltb_spec n 3) as [Hlt | Hge].
    + rewrite !Z.shiftl_spec_low by lia. apply andb_false_r.
    + rewrite !Z.shiftl_spec by lia.
      rewrite Z.land_spec, Z.shiftr_spec by lia.
      replace (n - 3 + 3) with n by lia. reflexivity.
  - change 31 with (Z.ones 5). rewrite Z.land_ones by lia.
    rewrite Z.shiftl_mul_pow2, Z.shiftr_div_pow2 by lia.
    change (2 ^ 3) with 8. change (2 ^ 5) with 32. lia.
Qed.

Lemma land_7 (x : Z) : Z.land x 7 = x mod 8.
Proof. change 7 with (Z.ones 3). rewrite Z.land_ones by lia. reflexivity. Qed.

Lemma entry_age_eq (g B f : Z) :
  g mod 8 = 0 -> B mod 8 = 0 -> 0 <= f < 8 ->
  entry_age g (B + f) = (g - B) mod 256.
Proof.
  intros Hg HB Hf. unfold entry_age. rewrite land_248.
  apply Z.mod_divide in Hg; [| lia]. destruct Hg as [g' ->].
  apply Z.mod_divide in HB; [| lia]. destruct HB as [B' ->].
  replace (263 + g' * 8 - (B' * 8 + f)) with ((32 + g' - B') * 8 + (7 - f)) by lia.
  rewrite Z.div_add_l by lia.
  rewrite (Z.div_small (7 - f) 8) by lia.
  replace (32 + g' - B' + 0) with ((g' - B') + 1 * 32) by lia.
  rewrite Z.mod_add by lia.
  replace (g' * 8 - B' * 8) with (8 * (g' - B')) by lia.
  change 256 with (8 * 32).
  rewrite Z.mul_mod_distr_l by lia. reflexivity.
Qed.

(** C4: for a current generation [g] that is a multiple of 8 and a stored
    byte [B + f] with [B] a multiple of 8 and [f] the three flag bits,
    the age term [(263 + g - (B + f)) & 0xF8] is the cyclic difference
    [(g - B) mod 256]; so the flag bits do not change it, and it is right
    across a wrap of the generation counter: generation 0 seen from an
    entry of generation 248 gives the age 8. *)
Theorem entry_age_cyclic :
  forall g B f : Z,
    0 <= g < 256 -> g mod 8 = 0 ->
    0 <= B < 256 -> B mod 8 = 0 ->
    0 <= f < 8 ->
    entry_age g (B + f) = (g - B) mod 256
    /\ entry_age g (B + f) = entry_age g B
    /\ entry_age 0 (248 + f) = 8.
Proof.
  intros g B f _ Hg _ HB Hf. repeat split.
  - apply entry_age_eq; assumption.
  - rewrite entry_age_eq by assumption.
    replace B with (B + 0) at 2 by lia.
    rewrite entry_age_eq by (assumption || lia). reflexivity.
  - rewrite entry_age_eq by (reflexivity || assumption). reflexivity.
Qed.

(** ** TTEntry::save *)

(** The three tests of [save], as propositions. *)
Lemma save_tests (e : TTEntry) (k b d m : Z) :
  (negb (m =? 0) = true <-> m <> 0)
  /\ (negb (Z.shiftr k 48 =? key16 e) = true <-> Z.shiftr k 48 <> key16 e)
  /\ ((d - DEPTH_OFFSET >? depth8 e - 4) = true <-> d > depth e - 4)
  /\ ((b =? BOUND_EXACT) = true <-> b = BOUND_EXACT).
Proof.
  unfold depth. rewrite !negb_true_iff, !Z.eqb_neq, Z.eqb_eq, Z.gtb_gt. lia.
Qed.

Lemma key16_set_move16 (x : Z) (e : TTEntry) : key16 (set_move16 x e) = key16 e.
Proof. reflexivity. Qed.

Lemma depth8_set_move16 (x : Z) (e : TTEntry) : depth8 (set_move16 x e) = depth8 e.
Proof. reflexivity. Qed.

(** The entry [save] leaves when it takes the overwrite branch. *)
Lemma save_overwrites (g : Z) (e : TTEntry) (k v : Z) (pv : bool) (b d m ev : Z) :
  Z.shiftr k 48 <> key16 e \/ d > depth e - 4 \/ b = BOUND_EXACT ->
  DEPTH_OFFSET <= d ->
  save g e k v pv b d m ev =
    Some (mkTTEntry (uint16_t (Z.shiftr k 48))
            (if negb (m =? 0) || negb (Z.shiftr k 48 =? key16 e)
             then uint16_t m else move16 e)
            (int16_t v) (int16_t ev)
            (uint8_t (Z.lor (Z.lor g (Z.shiftl (uint8_t (bool_to_Z pv)) 2)) b))
            (uint8_t (d - DEPTH_OFFSET))).
Proof.
  intros Hc Hd. unfold save.
  destruct (save_tests e k b d m) as (_ & Hk & Hdep & Hb).
  assert (Hif : negb (Z.shiftr k 48 =? key16 e)
                || (d - DEPTH_OFFSET >? depth8 e - 4) || (b =? BOUND_EXACT) = true).
  { rewrite !orb_true_iff. prop_tauto. }
  assert (Hge : (d >=? DEPTH_OFFSET) = true) by (apply Z.geb_le; lia).
  destruct (negb (m =? 0) || negb (Z.shiftr k 48 =? key16 e));
    cbv zeta; rewrite ?key16_set_move16, ?depth8_set_move16, Hif, Hge; reflexivity.
Qed.

(** The entry [save] leaves when it does not take the overwrite branch:
    the tag is the same there, so only a move that is not null is stored. *)
Lemma save_keeps (g : Z) (e : TTEntry) (k v : Z) (pv : bool) (b d m ev : Z) :
  ~ (Z.shiftr k 48 <> key16 e \/ d > depth e - 4 \/ b = BOUND_EXACT) ->
  save g e k v pv b d m ev =
    Some (if negb (m =? 0) then set_move16 (uint16_t m) e else e).
Proof.
  intros Hc. unfold save.
  destruct (save_tests e k b d m) as (_ & Hk & Hdep & Hb).
  assert (Hif : negb (Z.shiftr k 48 =? key16 e)
                || (d - DEPTH_OFFSET >? depth8 e - 4) || (b =? BOUND_EXACT) = false).
  { apply not_true_is_false. rewrite !orb_true_iff. prop_tauto. }
  assert (Hkf : negb (Z.shiftr k 48 =? key16 e) = false).
  { apply not_true_is_false. prop_tauto. }
  rewrite Hkf in Hif |- *. rewrite orb_false_r.
  destruct (negb (m =? 0));
    cbv zeta; rewrite ?key16_set_move16, ?depth8_set_move16, ?Hkf, Hif; reflexivity.
Qed.

Lemma classic_cond (e : TTEntry) (k b d : Z) :
  (Z.shiftr k 48 <> key16 e \/ d > depth e - 4 \/ b = BOUND_EXACT)
  \/ ~ (Z.shiftr k 48 <> key16 e \/ d > depth e - 4 \/ b = BOUND_EXACT).
Proof.
  destruct (Z.eq_dec (Z.shiftr k 48) (key16 e)),
           (Z_gt_dec d (depth e - 4)),
           (Z.eq_dec b BOUND_EXACT); prop_tauto.
Qed.

(** C2, as the code has it: [save] overwrites the tag, the value, the
    eval, the generation/pv/bound byte and the depth when (a) the stored
    tag differs from the high 16 bits of the key, or (b) the new depth is
    greater than the stored depth minus 4 plies, or (c) the bound is
    exact; otherwise these five members keep their values. *)
Theorem save_overwrite_policy :
  forall (g : Z) (e : TTEntry) (k v : Z) (pv : bool) (b d m ev : Z),
    (Z.shiftr k 48 <> key16 e \/ d > depth e - 4 \/ b = BOUND_EXACT ->
     DEPTH_OFFSET <= d ->
     exists e',
       save g e k v pv b d m ev = Some e'
       /\ key16 e' = uint16_t (Z.shiftr k 48)
       /\ value16 e' = int16_t v
       /\ eval16 e' = int16_t ev
       /\ genBound8 e' = uint8_t (Z.lor (Z.lor g (Z.shiftl (bool_to_Z pv) 2)) b)
       /\ depth8 e' = uint8_t (d - DEPTH_OFFSET))
    /\ (~ (Z.shiftr k 48 <> key16 e \/ d > depth e - 4 \/ b = BOUND_EXACT) ->
        exists e',
          save g e k v pv b d m ev = Some e'
          /\ key16 e' = key16 e
          /\ value16 e' = value16 e
          /\ eval16 e' = eval16 e
          /\ genBound8 e' = genBound8 e
          /\ depth8 e' = depth8 e).
Proof.
  intros g e k v pv b d m ev. split.
  - intros Hc Hd. eexists. split; [apply save_overwrites; assumption |].
    cbn. repeat split. destruct pv; reflexivity.
  - intros Hc. eexists. split; [apply save_keeps; assumption |].
    destruct (negb (m =? 0)); repeat split.
Qed.

(** C5, as the code has it: a call of [save] with the stored tag equal
    to the high 16 bits of the key, a null move, a bound that is not
    exact and a new depth that is not greater than the stored depth minus
    4 plies (the margin of the overwrite test) leaves the entry as it
    was, the stored move included.  With the same tag and a null move the
    stored move is kept in any case.  And the stored move is overwritten
    whenever the move given is not null or the tag differs. *)
Theorem save_move_preservation :
  forall (g : Z) (e : TTEntry) (k v : Z) (pv : bool) (b d m ev : Z),
    (Z.shiftr k 48 = key16 e -> m = 0 -> b <> BOUND_EXACT ->
     d <= depth e - 4 ->
     save g e k v pv b d m ev = Some e)
    /\ (Z.shiftr k 48 = key16 e -> m = 0 -> DEPTH_OFFSET <= d ->
        exists e', save g e k v pv b d m ev = Some e' /\ move16 e' = move16 e)
    /\ (m <> 0 \/ Z.shiftr k 48 <> key16 e ->
        DEPTH_OFFSET <= d ->
        exists e', save g e k v pv b d m ev = Some e' /\ move16 e' = uint16_t m).
Proof.
  intros g e k v pv b d m ev. split; [| split].
  - intros Hk Hm Hb Hd. rewrite save_keeps by lia.
    subst m. reflexivity.
  - intros Hk Hm Hd. subst m.
    assert (Hif : negb (0 =? 0) || negb (Z.shiftr k 48 =? key16 e) = false).
    { apply Z.eqb_eq in Hk. rewrite Hk. reflexivity. }
    destruct (classic_cond e k b d) as [Hc | Hc].
    + eexists. split; [apply save_overwrites; assumption |].
      cbn [move16]. rewrite Hif. reflexivity.
    + eexists. split; [apply save_keeps; assumption |]. reflexivity.
  - intros Hm Hd.
    destruct (save_tests e k b d m) as (Hm' & Hk' & _).
    assert (Hif : negb (m =? 0) || negb (Z.shiftr k 48 =? key16 e) = true).
    { rewrite orb_true_iff. prop_tauto. }
    destruct (classic_cond e k b d) as [Hc | Hc].
    + eexists. split; [apply save_overwrites; assumption |].
      cbn. rewrite Hif. reflexivity.
    + eexists. split; [apply save_keeps; assumption |].
      assert (Hm1 : negb (m =? 0) = true).
      { destruct Hm as [Hm | Hm]; [prop_tauto | exfalso; apply Hc; prop_tauto]. }
      rewrite Hm1. reflexivity.
Qed.

(** ** Reads and writes of entries *)

Lemma bind_Ret {A B : Type} (m : M A) (f : A -> M B) (s s' : State) (a : A) :
  m s = Ret a s' -> bind m f s = f a s'.
Proof. intros H. unfold bind. rewrite H. reflexivity. Qed.

Lemma load_Some (s : State) (c i : nat) (cl : Cluster) (e : TTEntry) :
  clusters s !! c = Some cl -> cl !! i = Some e -> load c i s = Ret e s.
Proof.
  intros Hc Hi. unfold load, bind, gets. rewrite Hc, Hi. reflexivity.
Qed.

Lemma load_entry_at (s : State) (c i : nat) (e : TTEntry) :
  entry_at s c i = Some e -> load c i s = Ret e s.
Proof.
  unfold entry_at. destruct (clusters s !! c) as [cl |] eqn:Hc; [| discriminate].
  intros Hi. eapply load_Some; eassumption.
Qed.

Lemma load_inv (s s' : State) (c i : nat) (e : TTEntry) :
  load c i s = Ret e s' -> s' = s /\ entry_at s c i = Some e.
Proof.
  unfold load, entry_at, bind, gets, ret, undefined.
  destruct (clusters s !! c) as [cl |]; [| discriminate].
  destruct (cl !! i) as [e0 |]; [| discriminate].
  intros H. inversion H. subst. auto.
Qed.

Lemma load_None (s : State) (c i : nat) :
  entry_at s c i = None -> load c i s = Undefined.
Proof.
  unfold load, entry_at, bind, gets, ret, undefined.
  destruct (clusters s !! c) as [cl |]; [| reflexivity].
  intros ->. reflexivity.
Qed.

Lemma store_genBound8_entry_at (s : State) (c i : nat) (e : TTEntry) (g : Z) :
  entry_at s c i = Some e ->
  store_genBound8 c i g s = Ret tt (with_entry s c i (set_genBound8 g e)).
Proof.
  unfold entry_at, store_genBound8, with_entry, bind, gets, modify.
  destruct (clusters s !! c) as [cl |]; [| discriminate].
  intros ->. reflexivity.
Qed.

Lemma entry_at_with_entry_eq (s : State) (c i : nat) (e0 e : TTEntry) :
  entry_at s c i = Some e0 -> entry_at (with_entry s c i e) c i = Some e.
Proof.
  unfold entry_at, with_entry.
  destruct (clusters s !! c) as [cl |] eqn:Hc; [| discriminate].
  intros Hi. cbn.
  rewrite list_lookup_insert_eq by (eapply lookup_lt_Some; eassumption).
  apply list_lookup_insert_eq. eapply lookup_lt_Some; eassumption.
Qed.

Lemma entry_at_with_entry_ne (s : State) (c i c' i' : nat) (e : TTEntry) :
  (c', i') <> (c, i) ->
  entry_at (with_entry s c i e) c' i' = entry_at s c' i'.
Proof.
  intros Hne. unfold entry_at, with_entry.
  destruct (clusters s !! c) as [cl |] eqn:Hc; [| reflexivity].
  cbn. destruct (decide (c' = c)) as [-> | Hcc].
  - rewrite list_lookup_insert_eq by (eapply lookup_lt_Some; eassumption).
    rewrite Hc. apply list_lookup_insert_ne. congruence.
  - rewrite list_lookup_insert_ne by congruence. reflexivity.
Qed.

(** ** TranspositionTable::probe *)

Lemma empty_or_match_test (k16 : Z) (e : TTEntry) :
  (key16 e =? 0) || (key16 e =? k16) = true <-> empty_or_match k16 e.
Proof. unfold empty_or_match. rewrite orb_true_iff, !Z.eqb_eq. prop_tauto. Qed.

Lemma empty_or_match_dec (k16 : Z) (e : TTEntry) :
  empty_or_match k16 e \/ ~ empty_or_match k16 e.
Proof.
  rewrite <- empty_or_match_test.
  destruct ((key16 e =? 0) || (key16 e =? k16)); [left | right]; congruence.
Qed.

(** The first loop stops at the first entry without a tag or with the tag
    looked for, and refreshes it. *)
Lemma probe_scan_hit (c : nat) (k16 : Z) (n : nat) :
  forall (i j : nat) (s : State) (e : TTEntry),
    (i <= j < i + n)%nat ->
    entry_at s c j = Some e ->
    empty_or_match k16 e ->
    (forall j', (i <= j' < j)%nat ->
       exists e', entry_at s c j' = Some e' /\ ~ empty_or_match k16 e') ->
    probe_scan c k16 n i s =
      Ret (Some (negb (key16 e =? 0), j))
          (with_entry s c j
             (set_genBound8
                (uint8_t (Z.lor (generation8 s) (Z.land (genBound8 e) 7))) e)).
Proof.
  induction n as [| n IH]; intros i j s e Hj He Hm Hbefore; [lia |].
  cbn [probe_scan].
  destruct (decide (i = j)) as [-> | Hij].
  - rewrite (bind_Ret _ _ s s e) by (apply load_entry_at; assumption).
    apply empty_or_match_test in Hm. rewrite Hm.
    unfold bind at 1. unfold gets at 1.
    erewrite bind_Ret by (apply store_genBound8_entry_at; eassumption).
    erewrite bind_Ret
      by (apply load_entry_at; eapply entry_at_with_entry_eq; eassumption).
    reflexivity.
  - destruct (Hbefore i) as (ei & Hei & Hnm); [lia |].
    rewrite (bind_Ret _ _ s s ei) by (apply load_entry_at; assumption).
    rewrite <- empty_or_match_test in Hnm.
    apply not_true_is_false in Hnm. rewrite Hnm.
    apply IH; [lia | assumption | assumption |].
    intros j' Hj'. apply Hbefore. lia.
Qed.

(** The first loop falls through when no entry is empty or has the tag. *)
Lemma probe_scan_miss (c : nat) (k16 : Z) (n : nat) :
  forall (i : nat) (s : State),
    (forall j, (i <= j < i + n)%nat ->
       exists e, entry_at s c j = Some e /\ ~ empty_or_match k16 e) ->
    probe_scan c k16 n i s = Ret None s.
Proof.
  induction n as [| n IH]; intros i s Hall; [reflexivity |].
  cbn [probe_scan].
  destruct (Hall i) as (ei & Hei & Hnm); [lia |].
  rewrite (bind_Ret _ _ s s ei) by (apply load_entry_at; assumption).
  rewrite <- empty_or_match_test in Hnm.
  apply not_true_is_false in Hnm. rewrite Hnm.
  apply IH. intros j Hj. apply Hall. lia.
Qed.

(** The second loop keeps in [replace] the first least valuable entry
    among those it has seen, and writes nothing. *)
Lemma probe_replace_spec (c : nat) (n : nat) :
  forall (i r : nat) (s : State),
    (forall j, (j < i + n)%nat -> is_Some (entry_at s c j)) ->
    least_valuable s c i r ->
    exists r', probe_replace c n i r s = Ret r' s
               /\ least_valuable s c (i + n) r'.
Proof.
  induction n as [| n IH]; intros i r s Hex Hlv.
  - exists r. split; [reflexivity |]. rewrite Nat.add_0_r. assumption.
  - cbn [probe_replace].
    destruct Hlv as (Hr & er & Her & Hmin).
    destruct (Hex i) as [ei Hei]; [lia |].
    unfold bind at 1. unfold gets at 1.
    rewrite (bind_Ret _ _ s s er) by (apply load_entry_at; assumption).
    rewrite (bind_Ret _ _ s s ei) by (apply load_entry_at; assumption).
    replace (i + S n)%nat with (S i + n)%nat by lia.
    destruct (Z.gtb_spec (replace_value (generation8 s) er)
                         (replace_value (generation8 s) ei)) as [Hgt | Hle].
    + apply IH; [intros j Hj; apply Hex; lia |].
      split; [lia |]. exists ei. split; [assumption |].
      intros j e Hj He.
      destruct (decide (j = i)) as [-> | Hji].
      * rewrite Hei in He. inversion He. subst. split; lia.
      * destruct (Hmin j e) as [Hmin1 _]; [lia | assumption |]. split; lia.
    + apply IH; [intros j Hj; apply Hex; lia |].
      split; [lia |]. exists er. split; [assumption |].
      intros j e Hj He.
      destruct (decide (j = i)) as [-> | Hji].
      * rewrite Hei in He. inversion He. subst. split; lia.
      * apply Hmin; [lia | assumption].
Qed.

Lemma entry_at_cluster (s : State) (c i : nat) (cl : Cluster) :
  clusters s !! c = Some cl -> entry_at s c i = cl !! i.
Proof. intros H. unfold entry_at. rewrite H. reflexivity. Qed.

(** [probe] when the cluster of the key has an entry that is empty or
    has the tag of the key: entry [j] is the first such. *)
Lemma probe_hit (s : State) (key : Z) (cl : Cluster) (j : nat) (e : TTEntry) :
  clusters s !! first_entry (clusterCount s) key = Some cl ->
  length cl = ClusterSize ->
  cl !! j = Some e ->
  empty_or_match (uint16_t (Z.shiftr key 48)) e ->
  (forall j' e', (j' < j)%nat -> cl !! j' = Some e' ->
     ~ empty_or_match (uint16_t (Z.shiftr key 48)) e') ->
  probe key s =
    Ret (negb (key16 e =? 0), (first_entry (clusterCount s) key, j))
        (with_entry s (first_entry (clusterCount s) key) j
           (set_genBound8
              (uint8_t (Z.lor (generation8 s) (Z.land (genBound8 e) 7))) e)).
Proof.
  intros Hcl Hlen Hj He Hfirst. unfold probe.
  unfold bind at 1. unfold gets at 1.
  erewrite bind_Ret.
  2:{ apply (probe_scan_hit _ _ _ 0%nat j s e).
      - apply lookup_lt_Some in Hj. lia.
      - rewrite (entry_at_cluster _ _ _ _ Hcl). assumption.
      - assumption.
      - intros j' Hj'.
        destruct (lookup_lt_is_Some_2 cl j') as [e' He'].
        { apply lookup_lt_Some in Hj. lia. }
        exists e'. rewrite (entry_at_cluster _ _ _ _ Hcl).
        split; [assumption |]. apply (Hfirst j'); [lia | assumption]. }
  reflexivity.
Qed.

(** [probe] when no entry of the cluster of the key is empty or has the
    tag of the key. *)
Lemma probe_miss (s : State) (key : Z) (cl : Cluster) :
  clusters s !! first_entry (clusterCount s) key = Some cl ->
  length cl = ClusterSize ->
  (0 < ClusterSize)%nat ->
  Forall (fun e => ~ empty_or_match (uint16_t (Z.shiftr key 48)) e) cl ->
  exists r, probe key s = Ret (false, (first_entry (clusterCount s) key, r)) s
            /\ least_valuable s (first_entry (clusterCount s) key) ClusterSize r.
Proof.
  intros Hcl Hlen Hpos Hall. unfold probe.
  unfold bind at 1. unfold gets at 1.
  assert (Hex : forall j, (j < ClusterSize)%nat ->
                  exists e, entry_at s (first_entry (clusterCount s) key) j = Some e
                            /\ ~ empty_or_match (uint16_t (Z.shiftr key 48)) e).
  { intros j Hj. destruct (lookup_lt_is_Some_2 cl j) as [e He]; [lia |].
    exists e. rewrite (entry_at_cluster _ _ _ _ Hcl). split; [assumption |].
    rewrite Forall_forall in Hall. apply Hall.
    apply list_elem_of_In. eapply list_elem_of_lookup_2. eassumption. }
  erewrite bind_Ret by (apply probe_scan_miss; intros j Hj; apply Hex; lia).
  destruct (probe_replace_spec (first_entry (clusterCount s) key)
              (ClusterSize - 1) 1 0 s) as (r & Hr & Hlv).
  - intros j Hj. destruct (Hex j) as (e & He & _); [lia |]. eauto.
  - split; [lia |]. destruct (Hex 0%nat) as (e0 & He0 & _); [lia |].
    exists e0. split; [assumption |]. intros j e Hj He.
    assert (j = 0)%nat as -> by lia.
    rewrite He0 in He. inversion He. subst. split; lia.
  - exists r. rewrite (bind_Ret _ _ _ _ _ Hr).
    replace (1 + (ClusterSize - 1))%nat with ClusterSize in Hlv by lia.
    split; [reflexivity | assumption].
Qed.

(** An entry whose generation is the current one has age 0. *)
Lemma entry_age_current (g gb : Z) :
  0 <= gb < 256 -> Z.land gb 248 = g -> entry_age g gb = 0.
Proof.
  intros Hgb Hg. rewrite land_248 in Hg.
  rewrite Z.mod_small in Hg
    by (split; [apply Z.div_pos; lia | apply Z.div_lt_upper_bound; lia]).
  replace gb with (g + gb mod 8) by (pose proof (Z.div_mod gb 8); lia).
  rewrite entry_age_eq.
  - rewrite Z.sub_diag. reflexivity.
  - subst g. rewrite Z.mul_comm. apply Z.mod_mul. lia.
  - subst g. rewrite Z.mul_comm. apply Z.mod_mul. lia.
  - apply Z.mod_pos_bound. lia.
Qed.

(** The refreshed byte: the generation in the high five bits, the old
    flags in the low three. *)
Lemma refresh_bits (g gb : Z) :
  0 <= g < 256 -> g mod 8 = 0 ->
  Z.land (uint8_t (Z.lor g (Z.land gb 7))) 248 = g
  /\ Z.land (uint8_t (Z.lor g (Z.land gb 7))) 7 = Z.land gb 7.
Proof.
  intros Hg Hg8.
  assert (Hdisj : Z.land g (Z.land gb 7) = 0).
  { rewrite (Z.land_comm gb 7), Z.land_assoc, land_7, Hg8. apply Z.land_0_l. }
  assert (Hsum : Z.lor g (Z.land gb 7) = g + Z.land gb 7).
  { rewrite <- Z.lxor_lor by assumption.
    symmetry. apply Z.add_nocarry_lxor. assumption. }
  rewrite Hsum, (land_7 gb).
  pose proof (Z.mod_pos_bound gb 8 ltac:(lia)) as Hf.
  apply Z.mod_divide in Hg8; [| lia]. destruct Hg8 as [g' ->].
  unfold uint8_t. rewrite Z.mod_small by lia.
  rewrite land_248, land_7. split.
  - rewrite Z.div_add_l, (Z.div_small (gb mod 8)) by lia.
    rewrite Z.add_0_r, Z.mod_small by lia. lia.
  - rewrite Z.add_comm, Z.mod_add by lia. apply Z.mod_mod. lia.
Qed.

Lemma first_hit_or_none (k16 : Z) (cl : list TTEntry) :
  (exists j e, cl !! j = Some e /\ empty_or_match k16 e
               /\ forall j' e', (j' < j)%nat -> cl !! j' = Some e' ->
                    ~ empty_or_match k16 e')
  \/ Forall (fun e => ~ empty_or_match k16 e) cl.
Proof.
  induction cl as [| a cl IH]; [right; constructor |].
  destruct (empty_or_match_dec k16 a) as [Ha | Ha].
  - left. exists 0%nat, a. repeat split; [assumption | lia].
  - destruct IH as [(j & e & Hj & He & Hfirst) | Hnone].
    + left. exists (S j), e. repeat split; [assumption .. |].
      intros [| j'] e' Hlt He'.
      * cbn in He'. inversion He'. subst. assumption.
      * apply (Hfirst j'); [lia | assumption].
    + right. constructor; assumption.
Qed.

Lemma set_clusters_back (s : State) (cls : list Cluster) :
  set_clusters (clusters s) (set_clusters cls s) = s.
Proof. destruct s. reflexivity. Qed.

Lemma set_clusters_same (s : State) : set_clusters (clusters s) s = s.
Proof. destruct s. reflexivity. Qed.

Lemma with_entry_frame (s : State) (c i : nat) (e : TTEntry) :
  set_clusters (clusters s) (with_entry s c i e) = s.
Proof.
  unfold with_entry. destruct (clusters s !! c);
    [apply set_clusters_back | apply set_clusters_same].
Qed.

Lemma with_entry_generation8 (s : State) (c i : nat) (e : TTEntry) :
  generation8 (with_entry s c i e) = generation8 s.
Proof. unfold with_entry. destruct (clusters s !! c); reflexivity. Qed.

Lemma in_current_entries (s : State) (c i : nat) (e : TTEntry) :
  entry_at s c i = Some e ->
  Z.land (genBound8 e) 248 = generation8 s ->
  In e (current_entries (generation8 s) (clusters s)).
Proof.
  unfold entry_at, current_entries.
  destruct (clusters s !! c) as [cl |] eqn:Hc; [| discriminate].
  intros Hi Hg. apply filter_In. split.
  - apply in_concat. exists cl. split; apply list_elem_of_In;
      eapply list_elem_of_lookup_2; eassumption.
  - apply Z.eqb_eq. assumption.
Qed.

(** C1: when no entry of the cluster of the key is empty or has the tag
    of the key, [probe] returns [found = false] and the entry of the
    cluster with the least valuation
    [depth8 - ((263 + generation8 - genBound8) & 0xF8)], the first one
    among those that have it; the valuation is written out here, the
    age term with it.  Hence an entry of the current generation is
    never returned while the cluster holds an entry that is older by
    [8 * n] in the generation byte and less than [8 * n] deeper.  In
    particular, in a cluster of three entries of depths 5, 6 and 7, all
    of the current generation, the entry of depth 5 is returned. *)
Theorem probe_replaces_least_valuable :
  forall (s : State) (key : Z) (cl : Cluster),
    clusters s !! first_entry (clusterCount s) key = Some cl ->
    length cl = ClusterSize ->
    (0 < ClusterSize)%nat ->
    Forall (fun e => key16 e <> 0 /\ key16 e <> uint16_t (Z.shiftr key 48)) cl ->
    exists (r : nat) (er : TTEntry),
      probe key s = Ret (false, (first_entry (clusterCount s) key, r)) s
      /\ cl !! r = Some er
      /\ (forall (j : nat) (e : TTEntry),
            cl !! j = Some e ->
            depth8 er - Z.land (263 + generation8 s - genBound8 er) 248
            <= depth8 e - Z.land (263 + generation8 s - genBound8 e) 248
            /\ ((j < r)%nat ->
                depth8 er - Z.land (263 + generation8 s - genBound8 er) 248
                < depth8 e - Z.land (263 + generation8 s - genBound8 e) 248))
      /\ (forall (j : nat) (e : TTEntry) (n : Z),
            cl !! j = Some e ->
            0 <= generation8 s < 256 -> generation8 s mod 8 = 0 ->
            0 <= genBound8 er < 256 ->
            Z.land (genBound8 er) 248 = generation8 s ->
            0 <= genBound8 e < 256 -> 0 <= n < 32 ->
            Z.land (genBound8 e) 248 = (generation8 s - 8 * n) mod 256 ->
            depth8 er <= depth8 e - 8 * n)
      /\ (Forall (fun e => 0 <= genBound8 e < 256
                           /\ Z.land (genBound8 e) 248 = generation8 s) cl ->
          Permutation (map depth cl) [5; 6; 7] ->
          depth er = 5).
Proof.
  intros s key cl Hcl Hlen Hpos Hall.
  destruct (probe_miss s key cl Hcl Hlen Hpos) as (r & Hr & Hlt & er & Her & Hmin).
  { eapply Forall_impl; [| exact Hall].
    intros a [H0 Hk] [Ha | Ha]; contradiction. }
  rewrite (entry_at_cluster _ _ _ _ Hcl) in Her.
  assert (Hmin' : forall (j : nat) (e : TTEntry),
            cl !! j = Some e ->
            depth8 er - Z.land (263 + generation8 s - genBound8 er) 248
            <= depth8 e - Z.land (263 + generation8 s - genBound8 e) 248
            /\ ((j < r)%nat ->
                depth8 er - Z.land (263 + generation8 s - genBound8 er) 248
                < depth8 e - Z.land (263 + generation8 s - genBound8 e) 248)).
  { intros j e He.
    assert (Hj : (j < ClusterSize)%nat) by (apply lookup_lt_Some in He; lia).
    assert (Hat : entry_at s (first_entry (clusterCount s) key) j = Some e)
      by (rewrite (entry_at_cluster _ _ _ _ Hcl); assumption).
    pose proof (Hmin j e Hj Hat) as Hje.
    unfold replace_value, entry_age in Hje. exact Hje. }
  exists r, er. split; [assumption |]. split; [assumption |].
  split; [exact Hmin' |]. split.
  - intros j e n He Hg Hg8 Hber Hcur Hbe Hn Hold.
    destruct (Hmin' j e He) as [Hle _].
    assert (Hager : Z.land (263 + generation8 s - genBound8 er) 248 = 0).
    { apply (entry_age_current (generation8 s) (genBound8 er)); assumption. }
    assert (Hagee : Z.land (263 + generation8 s - genBound8 e) 248 = 8 * n).
    { pose proof (Z.land_ones (genBound8 e) 3 ltac:(lia)) as Hlow.
      change (Z.ones 3) with 7 in Hlow. change (2 ^ 3) with 8 in Hlow.
      assert (Hsplit : genBound8 e
                       = Z.land (genBound8 e) 248 + genBound8 e mod 8).
      { rewrite land_248.
        pose proof (Z.div_mod (genBound8 e) 8 ltac:(lia)) as Hdm.
        rewrite (Z.mod_small (genBound8 e / 8) 32); [lia |].
        split; [apply Z.div_pos; lia | apply Z.div_lt_upper_bound; lia]. }
      pose proof (Z.mod_pos_bound (genBound8 e) 8 ltac:(lia)) as Hf.
      assert (HB8 : Z.land (genBound8 e) 248 mod 8 = 0).
      { rewrite land_248, Z.mul_comm. apply Z.mod_mul. lia. }
      pose proof (entry_age_eq (generation8 s) (Z.land (genBound8 e) 248)
                    (genBound8 e mod 8) Hg8 HB8 Hf) as Hage.
      unfold entry_age in Hage. rewrite <- Hsplit in Hage.
      rewrite Hage, Hold.
      apply Z.mod_divide in Hg8; [| lia]. destruct Hg8 as [q Hq].
      assert (Hdiff : (generation8 s - (generation8 s - 8 * n) mod 256) mod 256
                      = (8 * n) mod 256).
      { rewrite Zminus_mod_idemp_r. f_equal. lia. }
      rewrite Hdiff. apply Z.mod_small. lia. }
    lia.
  - intros Hgen Hperm.
    assert (Hval : forall e, In e cl -> replace_value (generation8 s) e = depth8 e).
    { intros e He. rewrite Forall_forall in Hgen.
      destruct (Hgen e He) as [Hb Hg].
      unfold replace_value. rewrite entry_age_current by assumption. lia. }
    assert (Her_in : In er cl).
    { apply list_elem_of_In. eapply list_elem_of_lookup_2. eassumption. }
    assert (H5 : In 5 (map depth cl)).
    { eapply Permutation_in; [symmetry; exact Hperm | cbn; prop_tauto]. }
    apply in_map_iff in H5. destruct H5 as (e5 & He5 & Hin5).
    assert (Hd : In (depth er) [5; 6; 7]).
    { eapply Permutation_in; [exact Hperm | apply in_map; assumption]. }
    apply list_elem_of_In, list_elem_of_lookup in Hin5. destruct Hin5 as [j5 Hj5].
    destruct (Hmin j5 e5) as [Hle _].
    + apply lookup_lt_Some in Hj5. lia.
    + rewrite (entry_at_cluster _ _ _ _ Hcl). assumption.
    + rewrite (Hval er Her_in) in Hle.
      rewrite (Hval e5) in Hle
        by (apply list_elem_of_In; eapply list_elem_of_lookup_2; eassumption).
      unfold depth in *. cbn in Hd. lia.
Qed.

(** C3: [probe] scans the cluster of the key in order and stops at the
    first entry whose tag is zero or is the tag of the key; it returns
    this entry with [found = (tag != 0)], after it has set the
    [genBound8] of the entry to the current generation together with the
    old low three bits.  The refresh is made for a tag match and for an
    empty slot alike. *)
Theorem probe_first_empty_or_match :
  forall (s : State) (key : Z) (cl : Cluster) (j : nat) (e : TTEntry),
    clusters s !! first_entry (clusterCount s) key = Some cl ->
    length cl = ClusterSize ->
    cl !! j = Some e ->
    key16 e = 0 \/ key16 e = uint16_t (Z.shiftr key 48) ->
    (forall j' e', (j' < j)%nat -> cl !! j' = Some e' ->
       key16 e' <> 0 /\ key16 e' <> uint16_t (Z.shiftr key 48)) ->
    exists (s' : State) (e' : TTEntry),
      probe key s =
        Ret (negb (key16 e =? 0), (first_entry (clusterCount s) key, j)) s'
      /\ entry_at s' (first_entry (clusterCount s) key) j = Some e'
      /\ e' = set_genBound8
                (uint8_t (Z.lor (generation8 s) (Z.land (genBound8 e) 7))) e
      /\ (0 <= generation8 s < 256 -> generation8 s mod 8 = 0 ->
          Z.land (genBound8 e') 248 = generation8 s
          /\ Z.land (genBound8 e') 7 = Z.land (genBound8 e) 7).
Proof.
  intros s key cl j e Hcl Hlen Hj He Hfirst.
  eexists. eexists. split.
  - apply (probe_hit s key cl j e Hcl Hlen Hj He).
    intros j' e' Hlt He'. destruct (Hfirst j' e' Hlt He').
    unfold empty_or_match. prop_tauto.
  - split.
    + eapply entry_at_with_entry_eq.
      rewrite (entry_at_cluster _ _ _ _ Hcl). eassumption.
    + split; [reflexivity |].
      intros Hg Hg8. cbn. apply refresh_bits; assumption.
Qed.


(** ** TranspositionTable::hashfull *)

(** The loops of [hashfull] read only, and add at most one per entry. *)
Lemma hashfull_entries_inv (i : nat) (n : nat) :
  forall (j : nat) (cnt : Z) (s s' : State) (r : Z),
    hashfull_entries i n j cnt s = Ret r s' ->
    s' = s /\ cnt <= r <= cnt + Z.of_nat n
    /\ (forall j', (j <= j' < j + n)%nat -> is_Some (entry_at s i j')).
Proof.
  induction n as [| n IH]; intros j cnt s s' r H.
  - inversion H. subst. split; [reflexivity |]. split; [lia |].
    intros j' Hj'. lia.
  - cbn [hashfull_entries] in H. unfold bind at 1 in H.
    destruct (load i j s) as [e s1 | s1 |] eqn:Hload; try discriminate.
    apply load_inv in Hload. destruct Hload as [-> He].
    unfold bind at 1 in H. unfold gets at 1 in H.
    apply IH in H. destruct H as (-> & Hr & Hex).
    split; [reflexivity |]. split.
    + destruct (Z.land (genBound8 e) 248 =? generation8 s); cbn in Hr; lia.
    + intros j' Hj'. destruct (decide (j' = j)) as [-> | Hne]; [eauto |].
      apply Hex. lia.
Qed.

Lemma hashfull_clusters_inv (n : nat) :
  forall (i : nat) (cnt : Z) (s s' : State) (r : Z),
    hashfull_clusters n i cnt s = Ret r s' ->
    s' = s /\ cnt <= r <= cnt + Z.of_nat n * Z.of_nat ClusterSize
    /\ ((0 < ClusterSize)%nat ->
        forall i', (i <= i' < i + n)%nat -> (i' < length (clusters s))%nat).
Proof.
  induction n as [| n IH]; intros i cnt s s' r H.
  - inversion H. subst. split; [reflexivity |]. split; lia.
  - cbn [hashfull_clusters] in H. unfold bind at 1 in H.
    destruct (hashfull_entries i ClusterSize 0 cnt s) as [c1 s1 | s1 |] eqn:He;
      try discriminate.
    apply hashfull_entries_inv in He. destruct He as (-> & Hc1 & Hex).
    apply IH in H. destruct H as (-> & Hr & Hlen).
    split; [reflexivity |]. split; [nia |].
    intros Hpos i' Hi'. specialize (Hlen Hpos).
    destruct (decide (i' = i)) as [-> | Hne]; [| apply Hlen; lia].
    destruct (Hex 0%nat) as [e He]; [lia |].
    unfold entry_at in He.
    destruct (clusters s !! i) as [cl |] eqn:Hcl; [| discriminate].
    eapply lookup_lt_Some. eassumption.
Qed.

Lemma hashfull_entries_spec (i : nat) (cl : Cluster) (n : nat) :
  forall (j : nat) (cnt : Z) (s : State),
    clusters s !! i = Some cl ->
    (j + n)%nat = length cl ->
    hashfull_entries i n j cnt s =
      Ret (cnt + Z.of_nat (length (List.filter
                 (fun e => Z.land (genBound8 e) 248 =? generation8 s)
                 (drop j cl)))) s.
Proof.
  induction n as [| n IH]; intros j cnt s Hcl Hlen.
  - rewrite drop_ge by lia. cbn. rewrite Z.add_0_r. reflexivity.
  - destruct (lookup_lt_is_Some_2 cl j) as [e He]; [lia |].
    cbn [hashfull_entries].
    rewrite (bind_Ret _ _ s s e) by (eapply load_Some; eassumption).
    unfold bind at 1. unfold gets at 1.
    rewrite IH by (assumption || lia).
    rewrite (drop_S cl e j He). cbn [List.filter].
    destruct (Z.land (genBound8 e) 248 =? generation8 s); cbn [bool_to_Z length];
      f_equal; lia.
Qed.

Lemma current_entries_cons (g : Z) (cl : Cluster) (cls : list Cluster) :
  length (current_entries g (cl :: cls)) =
    Nat.add (length (List.filter (fun e => Z.land (genBound8 e) 248 =? g) cl))
            (length (current_entries g cls)).
Proof.
  unfold current_entries. cbn [concat].
  rewrite List.filter_app, length_app. reflexivity.
Qed.

Lemma hashfull_clusters_spec (n : nat) :
  forall (i : nat) (cnt : Z) (s : State),
    (i + n <= length (clusters s))%nat ->
    Forall (fun cl : Cluster => length cl = ClusterSize) (clusters s) ->
    hashfull_clusters n i cnt s =
      Ret (cnt + Z.of_nat (length (current_entries (generation8 s)
                                     (take n (drop i (clusters s)))))) s.
Proof.
  induction n as [| n IH]; intros i cnt s Hlen Hwf.
  - cbn. rewrite Z.add_0_r. reflexivity.
  - destruct (lookup_lt_is_Some_2 (clusters s) i) as [cl Hcl]; [lia |].
    assert (Hsize : length cl = ClusterSize).
    { rewrite Forall_forall in Hwf. apply Hwf.
      apply list_elem_of_In. eapply list_elem_of_lookup_2. eassumption. }
    cbn [hashfull_clusters].
    erewrite bind_Ret
      by (apply (hashfull_entries_spec i cl); [assumption | cbn; lia]).
    rewrite IH by (assumption || lia).
    rewrite (drop_S _ cl i Hcl). cbn [take].
    rewrite current_entries_cons, drop_0. f_equal. lia.
Qed.

Lemma hashfull_entries_no_exit (i : nat) (n : nat) :
  forall (j : nat) (cnt : Z) (s s' : State),
    hashfull_entries i n j cnt s <> Exit s'.
Proof.
  induction n as [| n IH]; intros j cnt s s' He; [discriminate |].
  cbn [hashfull_entries] in He. unfold bind at 1 in He.
  destruct (load i j s) as [e s1 | s1 |] eqn:Hl; try discriminate.
  - unfold bind at 1 in He. unfold gets at 1 in He.
    eapply IH. eassumption.
  - unfold load, bind, gets, ret, undefined in Hl.
    destruct (clusters s !! i) as [cl |]; [| discriminate].
    destruct (cl !! j); discriminate.
Qed.

Lemma hashfull_clusters_no_exit (n : nat) :
  forall (i : nat) (cnt : Z) (s s' : State),
    hashfull_clusters n i cnt s <> Exit s'.
Proof.
  induction n as [| n IH]; intros i cnt s s' Hc; [discriminate |].
  cbn [hashfull_clusters] in Hc. unfold bind at 1 in Hc.
  destruct (hashfull_entries i ClusterSize 0 cnt s) as [c1 s1 | s1 |] eqn:He;
    try discriminate.
  - eapply IH. eassumption.
  - inversion Hc. subst. eapply hashfull_entries_no_exit. eassumption.
Qed.

Lemma hashfull_value (s : State) :
  table_ok s -> 1000 <= clusterCount s ->
  hashfull s =
    Ret (Z.of_nat (length (current_entries (generation8 s)
                             (take 1000 (clusters s))))
         / Z.of_nat ClusterSize) s.
Proof.
  intros (Hcc & Hlen & Hwf) H1000. unfold hashfull.
  erewrite bind_Ret by (apply hashfull_clusters_spec; [cbn; lia | assumption]).
  rewrite drop_0, Z.add_0_l. unfold ret. f_equal.
  destruct ClusterSize as [| k].
  - generalize (Z.of_nat (length (current_entries (generation8 s)
                                    (take 1000 (clusters s))))).
    intros z. destruct z; reflexivity.
  - apply Z.quot_div_nonneg; lia.
Qed.

Lemma with_entry_clusterCount (s : State) (c i : nat) (e : TTEntry) :
  clusterCount (with_entry s c i e) = clusterCount s.
Proof. unfold with_entry. destruct (clusters s !! c); reflexivity. Qed.

Lemma table_ok_with_entry (s : State) (c i : nat) (e : TTEntry) :
  table_ok s -> table_ok (with_entry s c i e).
Proof.
  intros (Hcc & Hlen & Hwf). unfold with_entry.
  destruct (clusters s !! c) as [cl |] eqn:Hc;
    [| exact (conj Hcc (conj Hlen Hwf))].
  unfold table_ok. cbn [clusterCount clusters set_clusters].
  split; [assumption |]. split.
  - unfold Cluster in *. rewrite length_insert. assumption.
  - apply Forall_insert; [assumption |].
    unfold Cluster in *. rewrite length_insert.
    rewrite Forall_forall in Hwf. apply Hwf.
    apply list_elem_of_In. eapply list_elem_of_lookup_2. eassumption.
Qed.

(** C10: the only thing [probe] can change in the state is the
    [genBound8] byte of the entry it returns, and it changes nothing
    when it returns by the replacement loop.  So [probe] never writes
    [key16], [move16], [value16], [eval16] or [depth8]; after [probe]
    has returned an empty slot, with [found = false], the slot still has
    [key16 = 0] while its generation bits are the current generation.
    It is then among the entries [hashfull] counts when its cluster is
    one of the first 1000, the clusters [hashfull] looks at; in a later
    cluster it is not looked at, and the clusters [hashfull] counts over
    are as before. *)
Theorem probe_frame :
  forall (s : State) (key : Z) (cl : Cluster),
    clusters s !! first_entry (clusterCount s) key = Some cl ->
    length cl = ClusterSize ->
    (0 < ClusterSize)%nat ->
    exists (found : bool) (i : nat) (s' : State) (e e' : TTEntry),
      probe key s = Ret (found, (first_entry (clusterCount s) key, i)) s'
      /\ set_clusters (clusters s) s' = s
      /\ (forall c' i', (c', i') <> (first_entry (clusterCount s) key, i) ->
            entry_at s' c' i' = entry_at s c' i')
      /\ entry_at s (first_entry (clusterCount s) key) i = Some e
      /\ entry_at s' (first_entry (clusterCount s) key) i = Some e'
      /\ key16 e' = key16 e /\ move16 e' = move16 e /\ value16 e' = value16 e
      /\ eval16 e' = eval16 e /\ depth8 e' = depth8 e
      /\ (Forall (fun x => key16 x <> 0 /\ key16 x <> uint16_t (Z.shiftr key 48)) cl ->
          s' = s)
      /\ (key16 e = 0 ->
          0 <= generation8 s < 256 -> generation8 s mod 8 = 0 ->
          found = false /\ key16 e' = 0
          /\ Z.land (genBound8 e') 248 = generation8 s'
          /\ ((first_entry (clusterCount s) key < 1000)%nat ->
              In e' (current_entries (generation8 s')
                       (take 1000 (clusters s'))))
          /\ ((1000 <= first_entry (clusterCount s) key)%nat ->
              take 1000 (clusters s') = take 1000 (clusters s)))
      /\ (table_ok s -> 1000 <= clusterCount s ->
          hashfull s'
          = Ret (Z.of_nat (length (current_entries (generation8 s')
                                     (take 1000 (clusters s'))))
                 / Z.of_nat ClusterSize) s').
Proof.
  intros s key cl Hcl Hlen Hpos.
  destruct (first_hit_or_none (uint16_t (Z.shiftr key 48)) cl)
    as [(j & e & Hj & He & Hfirst) | Hnone].
  - pose proof (probe_hit s key cl j e Hcl Hlen Hj He Hfirst) as Hp.
    assert (Hat : entry_at s (first_entry (clusterCount s) key) j = Some e).
    { rewrite (entry_at_cluster _ _ _ _ Hcl). assumption. }
    eexists _, j, _, e, _. split; [exact Hp |].
    split; [apply with_entry_frame |].
    split; [intros c' i' Hne; apply entry_at_with_entry_ne; assumption |].
    split; [assumption |].
    split; [eapply entry_at_with_entry_eq; eassumption |].
    cbn. do 5 (split; [reflexivity |]). split; [| split].
    + intros Hall. exfalso. rewrite Forall_forall in Hall.
      destruct (Hall e) as [H0 Hk].
      { apply list_elem_of_In. eapply list_elem_of_lookup_2. eassumption. }
      destruct He; contradiction.
    + intros Hk Hg Hg8. rewrite Hk. split; [reflexivity |]. split; [reflexivity |].
      destruct (refresh_bits (generation8 s) (genBound8 e) Hg Hg8) as [Hhi _].
      split; [rewrite with_entry_generation8; assumption |].
      rewrite with_entry_generation8.
      unfold with_entry. rewrite Hcl. cbn [clusters set_clusters].
      unfold Cluster in *. split.
      * intros Hc. rewrite take_insert_lt by assumption.
        unfold current_entries. apply filter_In. split.
        -- apply in_concat. eexists. split.
           ++ apply list_elem_of_In.
              apply (list_elem_of_lookup_2 _ (first_entry (clusterCount s) key)).
              apply list_lookup_insert_eq. rewrite length_take.
              apply lookup_lt_Some in Hcl. lia.
           ++ apply list_elem_of_In. apply (list_elem_of_lookup_2 _ j).
              apply list_lookup_insert_eq. eapply lookup_lt_Some. eassumption.
        -- apply Z.eqb_eq. assumption.
      * intros Hc. apply take_insert_ge. assumption.
    + intros Hok H1000. apply hashfull_value.
      * apply table_ok_with_entry. assumption.
      * rewrite with_entry_clusterCount. assumption.
  - destruct (probe_miss s key cl Hcl Hlen Hpos Hnone)
      as (r & Hr & Hlt & er & Her & Hmin).
    exists false, r, s, er, er. split; [exact Hr |].
    split; [apply set_clusters_same |].
    split; [reflexivity |].
    do 2 (split; [assumption |]).
    do 5 (split; [reflexivity |]). split; [reflexivity |]. split.
    + intros Hk. exfalso. rewrite Forall_forall in Hnone.
      apply (Hnone er).
      * rewrite (entry_at_cluster _ _ _ _ Hcl) in Her.
        apply list_elem_of_In. eapply list_elem_of_lookup_2. eassumption.
      * left. assumption.
    + intros Hok H1000. apply hashfull_value; assumption.
Qed.

(** C7: [hashfull] looks at the first 1000 clusters whatever
    [clusterCount] is.  When the table has at least 1000 clusters the
    result is the number of entries of these clusters whose [genBound8],
    the low three bits masked off, is the current generation, divided by
    [ClusterSize]; with fewer than 1000 clusters in the block the reads
    leave it.  A result is between 0 and 1000, and the call leaves the
    state as it was. *)
Theorem hashfull_first_1000_clusters :
  forall s : State,
    (forall (r : Z) (s' : State),
       hashfull s = Ret r s' -> s' = s /\ 0 <= r <= 1000)
    /\ (table_ok s -> 1000 <= clusterCount s ->
        hashfull s =
          Ret (Z.of_nat (length (current_entries (generation8 s)
                                   (take 1000 (clusters s))))
               / Z.of_nat ClusterSize) s)
    /\ ((length (clusters s) < 1000)%nat -> (0 < ClusterSize)%nat ->
        hashfull s = Undefined).
Proof.
  intros s. split; [| split].
  - intros r s' H. unfold hashfull in H. unfold bind at 1 in H.
    destruct (hashfull_clusters 1000 0 0 s) as [cnt s1 | s1 |] eqn:Hc;
      try discriminate.
    apply hashfull_clusters_inv in Hc. destruct Hc as (-> & Hcnt & _).
    inversion H. subst. split; [reflexivity |].
    change (Z.of_nat 1000) with 1000 in Hcnt.
    destruct ClusterSize as [| k].
    + change (Z.of_nat 0) with 0 in *.
      assert (cnt = 0) as -> by lia.
      replace (Z.quot 0 0) with 0 by reflexivity. lia.
    + rewrite Z.quot_div_nonneg by lia. split.
      * apply Z.div_pos; lia.
      * apply Z.div_le_upper_bound; lia.
  - apply hashfull_value.
  - intros Hlen Hpos. unfold hashfull. unfold bind at 1.
    destruct (hashfull_clusters 1000 0 0 s) as [cnt s1 | s1 |] eqn:Hc.
    + apply hashfull_clusters_inv in Hc. destruct Hc as (_ & _ & Hall).
      specialize (Hall Hpos 999%nat). lia.
    + exfalso. eapply hashfull_clusters_no_exit. eassumption.
    + reflexivity.
Qed.

(** ** TranspositionTable::clear *)

Lemma uint64_t_small (x : Z) : 0 <= x < 2 ^ 64 -> uint64_t x = x.
Proof. intros H. unfold uint64_t. apply Z.mod_small. assumption. Qed.

(** The ranges of the workers, without the casts. *)
Lemma worker_range (cc idx : Z) :
  1 <= Options_Threads -> 0 <= cc < 2 ^ 64 -> 0 <= idx < Options_Threads ->
  start cc idx = cc / Options_Threads * idx
  /\ len cc idx = (if idx =? Options_Threads - 1
                  then cc - cc / Options_Threads * idx
                  else cc / Options_Threads)
  /\ 0 <= start cc idx /\ 0 <= len cc idx
  /\ start cc idx + len cc idx <= cc.
Proof.
  intros HN Hcc Hidx.
  assert (Hq : 0 <= cc / Options_Threads) by (apply Z.div_pos; lia).
  assert (Hmul : Options_Threads * (cc / Options_Threads) <= cc)
    by (apply Z.mul_div_le; lia).
  assert (Hs : 0 <= cc / Options_Threads * idx <= cc) by nia.
  assert (Hstart : start cc idx = cc / Options_Threads * idx).
  { unfold start, stride. apply uint64_t_small. lia. }
  unfold len. rewrite Hstart. unfold stride.
  destruct (Z.eqb_spec idx (Options_Threads - 1)) as [-> | Hne]; cbn [negb].
  - rewrite uint64_t_small by lia. repeat split; lia.
  - repeat split; try lia. nia.
Qed.

(** Every cluster of the table is in the range of one worker and of no
    other. *)
Lemma worker_cover (cc x : Z) :
  1 <= Options_Threads -> 0 <= cc < 2 ^ 64 -> 0 <= x < cc ->
  exists idx,
    (0 <= idx < Options_Threads
     /\ start cc idx <= x < start cc idx + len cc idx)
    /\ forall idx',
         0 <= idx' < Options_Threads ->
         start cc idx' <= x < start cc idx' + len cc idx' ->
         idx' = idx.
Proof.
  intros HN Hcc Hx.
  assert (Hq : 0 <= cc / Options_Threads) by (apply Z.div_pos; lia).
  assert (Hmul : Options_Threads * (cc / Options_Threads) <= cc)
    by (apply Z.mul_div_le; lia).
  assert (Hrange : forall i, 0 <= i < Options_Threads ->
            start cc i = cc / Options_Threads * i
            /\ len cc i = (if i =? Options_Threads - 1
                           then cc - cc / Options_Threads * i
                           else cc / Options_Threads)).
  { intros i Hi. destruct (worker_range cc i HN Hcc Hi) as (H1 & H2 & _). auto. }
  set (q := cc / Options_Threads) in *.
  assert (Hin : forall i, 0 <= i < Options_Threads ->
            (start cc i <= x < start cc i + len cc i
             <-> (q * i <= x /\ (i < Options_Threads - 1 -> x < q * (i + 1))))).
  { intros i Hi. destruct (Hrange i Hi) as [-> ->].
    destruct (Z.eqb_spec i (Options_Threads - 1)); nia. }
  destruct (Z_lt_le_dec x (q * (Options_Threads - 1))) as [Hlow | Hhigh].
  - assert (Hqpos : 0 < q) by nia.
    exists (x / q).
    assert (Hxq : q * (x / q) <= x < q * (x / q + 1)).
    { pose proof (Z.mul_div_le x q Hqpos).
      pose proof (Z.mul_succ_div_gt x q Hqpos). lia. }
    assert (Hi : 0 <= x / q < Options_Threads).
    { split; [apply Z.div_pos; lia |]. apply Z.div_lt_upper_bound; nia. }
    split.
    + split; [assumption |]. apply Hin; [assumption |]. lia.
    + intros i' Hi' Hx'. apply Hin in Hx'; [| assumption].
      destruct Hx' as [Hlo Hup].
      assert (i' < Options_Threads - 1) by nia.
      specialize (Hup ltac:(assumption)). nia.
  - exists (Options_Threads - 1). split.
    + split; [lia |]. apply Hin; [lia |]. lia.
    + intros i' Hi' Hx'. apply Hin in Hx'; [| assumption].
      destruct Hx' as [Hlo Hup].
      destruct (Z.eq_dec i' (Options_Threads - 1)) as [| Hne]; [assumption |].
      specialize (Hup ltac:(lia)). nia.
Qed.

Lemma zeroed_lookup (cls : list Cluster) (z : Cluster) (a n x : nat) :
  (a + n <= length cls)%nat ->
  (take a cls ++ replicate n z ++ drop (a + n) cls) !! x =
    if decide (a <= x < a + n)%nat then Some z else cls !! x.
Proof.
  intros Hlen.
  destruct (decide (x < a)%nat) as [Hlt | Hge].
  - rewrite lookup_app_l by (rewrite length_take; lia).
    rewrite lookup_take_lt by lia.
    destruct (decide (a <= x < a + n)%nat); [lia | reflexivity].
  - rewrite lookup_app_r by (rewrite length_take; lia).
    rewrite length_take, Nat.min_l by lia.
    destruct (decide (x - a < n)%nat) as [Hin | Hout].
    + rewrite lookup_app_l by (rewrite length_replicate; lia).
      rewrite lookup_replicate_2 by lia.
      destruct (decide (a <= x < a + n)%nat); [reflexivity | lia].
    + rewrite lookup_app_r by (rewrite length_replicate; lia).
      rewrite length_replicate, lookup_drop.
      destruct (decide (a <= x < a + n)%nat); [lia |].
      f_equal. lia.
Qed.

Lemma zeroed_length (cls : list Cluster) (z : Cluster) (a n : nat) :
  (a + n <= length cls)%nat ->
  length (take a cls ++ replicate n z ++ drop (a + n) cls) = length cls.
Proof.
  intros Hlen.
  rewrite !length_app, length_take, length_replicate, length_drop. lia.
Qed.

Lemma memset_clusters_spec (first count : Z) (s : State) :
  0 <= first -> 0 <= count ->
  first + count <= Z.of_nat (length (clusters s)) ->
  memset_clusters first count s =
    Ret tt (set_clusters
              (take (Z.to_nat first) (clusters s)
               ++ replicate (Z.to_nat count) zero_cluster
               ++ drop (Z.to_nat first + Z.to_nat count) (clusters s)) s).
Proof.
  intros Hf Hc Hlen. unfold memset_clusters, bind, gets, modify.
  destruct (Z.leb_spec (first + count) (Z.of_nat (length (clusters s))));
    [| lia].
  rewrite Z2Nat.inj_add by lia. reflexivity.
Qed.

Lemma set_clusters_twice (s : State) (cls cls' : list Cluster) :
  set_clusters cls' (set_clusters cls s) = set_clusters cls' s.
Proof. reflexivity. Qed.

(** A run of worker bodies, in any order: the clusters in the range of
    one of them are zero afterwards, zero clusters stay zero, and what
    lies behind the table is not touched. *)
Lemma run_workers_spec (cc : Z) (order : list Z) :
  forall s : State,
    1 <= Options_Threads ->
    clusterCount s = cc -> 0 <= cc < 2 ^ 64 ->
    cc <= Z.of_nat (length (clusters s)) ->
    (forall idx, In idx order -> 0 <= idx < Options_Threads) ->
    exists cls',
      run_workers order s = Ret tt (set_clusters cls' s)
      /\ length cls' = length (clusters s)
      /\ (forall (x : nat) (idx : Z),
            In idx order ->
            start cc idx <= Z.of_nat x < start cc idx + len cc idx ->
            cls' !! x = Some zero_cluster)
      /\ (forall x : nat,
            clusters s !! x = Some zero_cluster -> cls' !! x = Some zero_cluster)
      /\ (forall x : nat, cc <= Z.of_nat x -> cls' !! x = clusters s !! x).
Proof.
  induction order as [| idx rest IH]; intros s HN Hcc Hrange Hlen Hidx.
  - exists (clusters s). cbn [run_workers]. unfold ret.
    rewrite set_clusters_same. repeat split; auto. intros x idx [].
  - destruct (worker_range cc idx HN Hrange (Hidx idx (or_introl eq_refl)))
      as (_ & _ & Hs0 & Hl0 & Hsl).
    cbn [run_workers]. unfold clear_worker.
    unfold bind at 1. unfold bind at 1. unfold gets at 1. rewrite Hcc.
    rewrite memset_clusters_spec by lia.
    set (cls1 := take (Z.to_nat (start cc idx)) (clusters s)
                 ++ replicate (Z.to_nat (len cc idx)) zero_cluster
                 ++ drop (Z.to_nat (start cc idx) + Z.to_nat (len cc idx))
                      (clusters s)).
    assert (Hlen1 : length cls1 = length (clusters s))
      by (apply zeroed_length; lia).
    assert (Hlook : forall x : nat,
              cls1 !! x =
                if decide (Z.to_nat (start cc idx) <= x
                           < Z.to_nat (start cc idx) + Z.to_nat (len cc idx))%nat
                then Some zero_cluster else clusters s !! x)
      by (intros x; apply zeroed_lookup; lia).
    destruct (IH (set_clusters cls1 s) HN) as (cls' & Hrun & Hlen' & Hcov & Hzero & Hbeyond).
    + exact Hcc.
    + exact Hrange.
    + cbn. lia.
    + intros i Hi. apply Hidx. right. assumption.
    + exists cls'. rewrite Hrun, set_clusters_twice. cbn in Hlen', Hzero, Hbeyond.
      split; [reflexivity |]. split; [lia |]. split; [| split].
      * intros x i [<- | Hin] Hx.
        -- apply Hzero. rewrite Hlook.
           destruct (decide _) as [_ | Hout]; [reflexivity | lia].
        -- eapply Hcov; eassumption.
      * intros x Hx. apply Hzero. rewrite Hlook.
        destruct (decide _); [reflexivity | assumption].
      * intros x Hx. rewrite Hbeyond by assumption. rewrite Hlook.
        destruct (decide _) as [Hin | _]; [lia | reflexivity].
Qed.

Lemma In_threads (idx : Z) : In idx threads <-> 0 <= idx < Options_Threads.
Proof.
  unfold threads. rewrite in_map_iff. split.
  - intros (n & <- & Hn). apply in_seq in Hn. lia.
  - intros H. exists (Z.to_nat idx). split; [lia |]. apply in_seq. lia.
Qed.

(** The table after a run of all the workers. *)
Lemma run_workers_all (order : list Z) (s : State) :
  1 <= Options_Threads ->
  0 <= clusterCount s < 2 ^ 64 ->
  (Z.to_nat (clusterCount s) <= length (clusters s))%nat ->
  Permutation order threads ->
  run_workers order s =
    Ret tt (set_clusters
              (replicate (Z.to_nat (clusterCount s)) zero_cluster
               ++ drop (Z.to_nat (clusterCount s)) (clusters s)) s).
Proof.
  intros HN Hcc Hlen Hperm.
  destruct (run_workers_spec (clusterCount s) order s HN eq_refl Hcc)
    as (cls' & Hrun & Hlen' & Hcov & _ & Hbeyond).
  { lia. }
  { intros idx Hin. apply In_threads. eapply Permutation_in; eassumption. }
  rewrite Hrun. do 2 f_equal. apply list_eq. intros x.
  destruct (decide (x < Z.to_nat (clusterCount s))%nat) as [Hlt | Hge].
  - rewrite lookup_app_l by (rewrite length_replicate; lia).
    rewrite lookup_replicate_2 by lia.
    destruct (worker_cover (clusterCount s) (Z.of_nat x) HN Hcc)
      as (idx & (Hidx & Hx) & _); [lia |].
    apply (Hcov x idx); [| assumption].
    eapply Permutation_in; [symmetry; eassumption |]. apply In_threads. assumption.
  - rewrite lookup_app_r by (rewrite length_replicate; lia).
    rewrite length_replicate, lookup_drop, Hbeyond by lia.
    f_equal. lia.
Qed.

Lemma current_entries_zero (g : Z) (n : nat) :
  g <> 0 -> current_entries g (replicate n zero_cluster) = [].
Proof.
  intros Hg. unfold current_entries.
  induction n as [| n IH]; [reflexivity |].
  cbn [replicate concat]. rewrite List.filter_app, IH, app_nil_r.
  unfold zero_cluster. induction ClusterSize as [| k IHk]; [reflexivity |].
  cbn [replicate List.filter]. cbn [zero_entry genBound8].
  destruct (Z.eqb_spec (Z.land 0 248) g) as [Heq | _]; [| assumption].
  rewrite Z.land_0_l in Heq. congruence.
Qed.

Lemma zeroed_table_ok (s : State) :
  table_ok s ->
  table_ok (set_clusters
              (replicate (Z.to_nat (clusterCount s)) zero_cluster
               ++ drop (Z.to_nat (clusterCount s)) (clusters s)) s).
Proof.
  intros (Hcc & Hlen & Hwf). unfold table_ok. cbn.
  split; [assumption |]. split.
  - rewrite length_app, length_replicate, length_drop. lia.
  - apply Forall_app. split.
    + apply Forall_forall. intros cl Hin.
      apply list_elem_of_In, elem_of_replicate in Hin. destruct Hin as [-> _].
      apply length_replicate.
    + apply Forall_forall. intros cl Hin. rewrite Forall_forall in Hwf.
      apply Hwf. apply list_elem_of_In. apply list_elem_of_In in Hin.
      eapply (subseteq_drop _ _ _ Hin).
Qed.

(** [clear] with N = Options["Threads"] workers: worker
    [idx] zeroes the clusters from [stride * idx] on, [stride] =
    [clusterCount / N] of them, and the last worker those up to the end
    of the table; these ranges lie in the table, and every cluster of
    the table is in exactly one of them.  [clear] returns when all the
    workers are done, in whatever order they ran, and then every cluster
    of the table is zero and nothing else has changed.  A call of
    [hashfull] right after it returns 0 when the current generation is
    not 0. *)
Theorem clear_zeroes_table :
  forall s : State,
    1 <= Options_Threads ->
    table_ok s ->
    (forall idx, 0 <= idx < Options_Threads ->
       start (clusterCount s) idx = clusterCount s / Options_Threads * idx
       /\ len (clusterCount s) idx =
            (if idx =? Options_Threads - 1
             then clusterCount s - start (clusterCount s) idx
             else clusterCount s / Options_Threads)
       /\ 0 <= start (clusterCount s) idx
       /\ start (clusterCount s) idx + len (clusterCount s) idx <= clusterCount s)
    /\ (forall x, 0 <= x < clusterCount s ->
          exists idx,
            (0 <= idx < Options_Threads
             /\ start (clusterCount s) idx <= x
                < start (clusterCount s) idx + len (clusterCount s) idx)
            /\ forall idx',
                 0 <= idx' < Options_Threads ->
                 start (clusterCount s) idx' <= x
                 < start (clusterCount s) idx' + len (clusterCount s) idx' ->
                 idx' = idx)
    /\ exists s' : State,
         clear s = Ret tt s'
         /\ (forall order, Permutation order threads ->
               run_workers order s = Ret tt s')
         /\ set_clusters (clusters s) s' = s
         /\ (forall x : nat, (x < Z.to_nat (clusterCount s))%nat ->
               clusters s' !! x = Some zero_cluster)
         /\ (forall (c i : nat) (e : TTEntry),
               (c < Z.to_nat (clusterCount s))%nat ->
               entry_at s' c i = Some e -> e = zero_entry)
         /\ (generation8 s <> 0 -> 1000 <= clusterCount s ->
             hashfull s' = Ret 0 s').
Proof.
  intros s HN Hok. pose proof Hok as (Hcc & Hlen & Hwf).
  split; [| split].
  - intros idx Hidx.
    destruct (worker_range (clusterCount s) idx HN Hcc Hidx)
      as (Hs & Hl & Hs0 & Hl0 & Hsl).
    split; [assumption |]. split; [| split; assumption].
    rewrite Hl, Hs. reflexivity.
  - intros x Hx. apply worker_cover; assumption.
  - eexists. split.
    { unfold clear. apply run_workers_all; [assumption .. | reflexivity]. }
    split.
    { intros order Hperm. apply run_workers_all; assumption. }
    split; [apply set_clusters_back |].
    assert (Hzero : forall x : nat, (x < Z.to_nat (clusterCount s))%nat ->
              (replicate (Z.to_nat (clusterCount s)) zero_cluster
               ++ drop (Z.to_nat (clusterCount s)) (clusters s)) !! x
              = Some zero_cluster).
    { intros x Hx. rewrite lookup_app_l by (rewrite length_replicate; lia).
      apply lookup_replicate_2. assumption. }
    split; [exact Hzero |]. split.
    + intros c i e Hc He. unfold entry_at in He. cbn in He.
      rewrite (Hzero c Hc) in He. unfold zero_cluster in He.
      apply lookup_replicate in He. prop_tauto.
    + intros Hg H1000.
      rewrite hashfull_value by (try apply zeroed_table_ok; assumption).
      cbn [clusters generation8 set_clusters].
      rewrite take_app_le by (rewrite length_replicate; lia).
      rewrite take_replicate, current_entries_zero by assumption.
      reflexivity.
Qed.

(** ** TranspositionTable::resize *)

Lemma Try_Get_LockMemory_Privileges_returns (s : State) :
  exists s1,
    Try_Get_LockMemory_Privileges s = Ret tt s1
    /\ clusterCount s1 = clusterCount s /\ table s1 = table s
    /\ mem s1 = mem s /\ generation8 s1 = generation8 s
    /\ mbSize_last_used s1 = mbSize_last_used s
    /\ large_pages_used s1 = large_pages_used s
    /\ block_size s1 = block_size s /\ clusters s1 = clusters s
    /\ (trace s1 = trace s
        \/ trace s1 = Print NoPrivilegeForLargePages :: trace s)
    /\ (use_large_pages s1 = 0 \/ use_large_pages s1 = 1)
    /\ (Options_Large_Pages = false -> use_large_pages s1 = 0).
Proof.
  unfold Try_Get_LockMemory_Privileges, Get_LockMemory_Privileges.
  unfold bind, gets, modify, ret, emit.
  destruct s as [cc t m g last lpu ulp gp bs cls tr].
  destruct Options_Large_Pages; cbn.
  2:{ eexists. split; [reflexivity |]. cbn. prop_tauto. }
  repeat (cbn; match goal with
               | |- context [if ?b then _ else _] => destruct b eqn:?
               end);
    cbn; (eexists; split; [reflexivity |]; cbn;
          repeat split; auto; intros; discriminate).
Qed.

Lemma release_mem_spec (s : State) : release_mem s = Ret tt (released s).
Proof.
  unfold release_mem, released, bind, gets, modify, ret, emit.
  destruct (mem s =? 0); [reflexivity |].
  destruct (large_pages_used s); reflexivity.
Qed.

Lemma allocate_spec (call : Z -> Event) (result : list Event -> Z -> Z)
    (memsize : Z) (s : State) :
  allocate call result memsize s =
    Ret (result (trace s) memsize) (allocated call result memsize s).
Proof. reflexivity. Qed.

Lemma clear_worker_inv (idx : Z) (s : State) :
  (exists cls', clear_worker idx s = Ret tt (set_clusters cls' s))
  \/ clear_worker idx s = Undefined.
Proof.
  unfold clear_worker, memset_clusters, bind, gets, modify, undefined.
  destruct (_ <=? _); [left; eexists; reflexivity | right; reflexivity].
Qed.

(** A run of worker bodies changes clusters only, and does not exit. *)
Lemma run_workers_inv (order : list Z) :
  forall s : State,
    (exists s', run_workers order s = Ret tt s'
                /\ set_clusters (clusters s) s' = s)
    \/ run_workers order s = Undefined.
Proof.
  induction order as [| idx rest IH]; intros s.
  - left. exists s. split; [reflexivity | apply set_clusters_same].
  - cbn [run_workers].
    destruct (clear_worker_inv idx s) as [[cls1 H1] | H1].
    + rewrite (bind_Ret _ _ _ _ _ H1).
      destruct (IH (set_clusters cls1 s)) as [(s' & Hrun & Hframe) | Hundef].
      * left. exists s'. split; [assumption |].
        destruct s, s'. cbn in Hframe |- *. inversion Hframe. reflexivity.
      * right. assumption.
    + right. unfold bind. rewrite H1. reflexivity.
Qed.

Lemma clusterCount_released (s : State) :
  clusterCount (released s) = clusterCount s.
Proof.
  unfold released. destruct (mem s =? 0); reflexivity.
Qed.

(** The end of [resize], from the test of [mem] on. *)
Lemma resize_tail (mbSize : Z) (s4 : State) :
  (m <- gets mem ;;
   if m =? 0 then
     emit (Print (FailedToAllocate mbSize)) ;;;
     exit
   else
     size <- gets block_size ;;
     modify (set_table (align_up m)) ;;;
     modify (set_clusters (block_clusters m size (align_up m))) ;;;
     clear) s4 =
  if mem s4 =? 0
  then Exit (set_trace (Print (FailedToAllocate mbSize) :: trace s4) s4)
  else clear (installed s4).
Proof.
  unfold bind at 1. unfold gets at 1.
  destruct (mem s4 =? 0); reflexivity.
Qed.

(** [resize] with a size that is not 0, as a function of the state that
    [Try_Get_LockMemory_Privileges] leaves. *)
Lemma resize_unfold (mbSize : Z) (s s1 : State) :
  mbSize <> 0 ->
  Try_Get_LockMemory_Privileges (set_mbSize_last_used mbSize s) = Ret tt s1 ->
  resize mbSize s =
    if resize_skips mbSize s1 then Ret tt s1
    else if mem (reallocated mbSize s1) =? 0
         then Exit (set_trace (Print (FailedToAllocate mbSize)
                               :: trace (reallocated mbSize s1))
                      (reallocated mbSize s1))
         else clear (installed (reallocated mbSize s1)).
Proof.
  intros Hmb HTry. unfold resize.
  unfold bind at 1. unfold gets at 1.
  apply Z.eqb_neq in Hmb. rewrite Hmb. cbv iota. rewrite Hmb.
  unfold bind at 1. unfold modify at 1.
  unfold bind at 1. rewrite HTry.
  fold (newClusterCount mbSize).
  fold (padded_size (newClusterCount mbSize)).
  fold (large_page_size (newClusterCount mbSize)).
  do 3 (unfold bind at 1; unfold gets at 1).
  unfold resize_skips.
  destruct ((newClusterCount mbSize =? clusterCount s1) && _); [reflexivity |].
  unfold bind at 1. unfold modify at 1.
  unfold reallocated.
  set (s2 := set_clusterCount (newClusterCount mbSize) s1).
  assert (Hcc : clusterCount (released s2) = newClusterCount mbSize)
    by (rewrite clusterCount_released; reflexivity).
  unfold bind at 1.
  destruct (use_large_pages s1 <? 1).
  - unfold bind at 1. rewrite release_mem_spec.
    unfold bind at 1. rewrite allocate_spec.
    unfold bind at 1. unfold modify at 1. unfold modify at 1.
    rewrite resize_tail. unfold standard_alloc. rewrite Hcc. reflexivity.
  - unfold bind at 1. rewrite release_mem_spec.
    unfold bind at 1. rewrite allocate_spec.
    unfold bind at 1. unfold modify at 1.
    unfold large_page_alloc. rewrite Hcc. cbv zeta.
    destruct (VirtualAlloc_result (trace (released s2))
                (uint64_t (large_page_size (newClusterCount mbSize))) =? 0).
    + unfold bind at 1. unfold emit at 1. unfold modify at 1.
      unfold bind at 1. unfold modify at 1.
      unfold bind at 1. rewrite allocate_spec.
      unfold bind at 1. unfold modify at 1. unfold modify at 1.
      rewrite resize_tail. reflexivity.
    + unfold bind at 1. unfold emit at 1. unfold modify at 1.
      unfold modify at 1.
      rewrite resize_tail. reflexivity.
Qed.

(** The rounding of an address to the next multiple of the cache line
    size, a power of two. *)
Lemma align_up_spec (k p : Z) :
  0 <= k < 64 -> CacheLineSize = 2 ^ k ->
  0 <= p -> p + CacheLineSize - 1 < 2 ^ 64 ->
  align_up p = (p + CacheLineSize - 1) / CacheLineSize * CacheLineSize.
Proof.
  intros Hk HC Hp Hlt.
  assert (Hpos : 0 < 2 ^ k) by (apply Z.pow_pos_nonneg; lia).
  unfold align_up. rewrite uint64_t_small by lia.
  unfold uint64_t. rewrite HC.
  replace (2 ^ k - 1) with (Z.ones k) by (rewrite Z.ones_equiv; lia).
  rewrite <- (Z.land_ones (Z.lnot (Z.ones k)) 64) by lia.
  rewrite (Z.land_comm (Z.lnot (Z.ones k))), Z.land_assoc.
  rewrite (Z.land_ones _ 64) by lia.
  rewrite HC in Hlt.
  rewrite (Z.mod_small _ (2 ^ 64)) by lia.
  rewrite <- Z.ldiff_land, Z.ldiff_ones_r by lia.
  rewrite Z.shiftl_mul_pow2, Z.shiftr_div_pow2 by lia.
  reflexivity.
Qed.

Lemma align_up_bounds (k p : Z) :
  0 <= k < 64 -> CacheLineSize = 2 ^ k ->
  0 <= p -> p + CacheLineSize - 1 < 2 ^ 64 ->
  p <= align_up p <= p + CacheLineSize - 1
  /\ align_up p mod CacheLineSize = 0
  /\ (p mod CacheLineSize = 0 -> align_up p = p).
Proof.
  intros Hk HC Hp Hlt.
  assert (Hpos : 0 < CacheLineSize) by (rewrite HC; apply Z.pow_pos_nonneg; lia).
  rewrite (align_up_spec k p Hk HC Hp Hlt).
  pose proof (Z.div_mod (p + CacheLineSize - 1) CacheLineSize ltac:(lia)) as Hdm.
  pose proof (Z.mod_pos_bound (p + CacheLineSize - 1) CacheLineSize Hpos) as Hm.
  split; [| split].
  - pose proof (Z.div_mod p CacheLineSize ltac:(lia)) as Hdp.
    pose proof (Z.mod_pos_bound p CacheLineSize Hpos) as Hmp.
    split; [| lia].
    destruct (Z.eq_dec (p mod CacheLineSize) 0) as [H0 | Hn0].
    + assert (Hq : (p + CacheLineSize - 1) / CacheLineSize = p / CacheLineSize).
      { symmetry. apply (Z.div_unique _ _ _ (CacheLineSize - 1)); lia. }
      rewrite Hq. lia.
    + assert (Hq : (p + CacheLineSize - 1) / CacheLineSize = p / CacheLineSize + 1).
      { symmetry. apply (Z.div_unique _ _ _ (p mod CacheLineSize - 1)); lia. }
      rewrite Hq. lia.
  - apply Z.mod_mul. lia.
  - intros H0.
    pose proof (Z.div_mod p CacheLineSize ltac:(lia)) as Hdp.
    assert (Hq : (p + CacheLineSize - 1) / CacheLineSize = p / CacheLineSize).
    { symmetry. apply (Z.div_unique _ _ _ (CacheLineSize - 1)); lia. }
    rewrite Hq. lia.
Qed.

(** An address that is a multiple of the cache line size leaves room for
    a cache line below the top of the address space. *)
Lemma aligned_below_top (k p : Z) :
  0 <= k < 64 -> CacheLineSize = 2 ^ k ->
  0 <= p < 2 ^ 64 -> p mod CacheLineSize = 0 ->
  p + CacheLineSize - 1 < 2 ^ 64.
Proof.
  intros Hk HC Hp Hmod.
  assert (Hpos : 0 < CacheLineSize) by (rewrite HC; apply Z.pow_pos_nonneg; lia).
  assert (Htop : 2 ^ 64 = CacheLineSize * 2 ^ (64 - k)).
  { rewrite HC, <- Z.pow_add_r by lia. f_equal. lia. }
  apply Z.mod_divide in Hmod; [| lia]. destruct Hmod as [q ->].
  assert (q < 2 ^ (64 - k)) by nia. nia.
Qed.

Lemma newClusterCount_range (mbSize : Z) :
  0 < sizeofCluster ->
  0 <= newClusterCount mbSize
  /\ 0 <= newClusterCount mbSize * sizeofCluster < 2 ^ 64.
Proof.
  intros Hsz. unfold newClusterCount.
  set (x := uint64_t (uint64_t (mbSize * 1024) * 1024)).
  assert (Hx : 0 <= x < 2 ^ 64) by (apply Z.mod_pos_bound; lia).
  assert (Hq : 0 <= x / sizeofCluster) by (apply Z.div_pos; lia).
  pose proof (Z.mul_div_le x sizeofCluster Hsz). nia.
Qed.

Lemma padded_size_eq (cc : Z) :
  0 <= cc * sizeofCluster -> 1 <= CacheLineSize ->
  cc * sizeofCluster + CacheLineSize - 1 < 2 ^ 63 ->
  padded_size cc = cc * sizeofCluster + CacheLineSize - 1.
Proof.
  intros H0 HC Hlt. unfold padded_size.
  rewrite (uint64_t_small (cc * sizeofCluster)) by lia.
  rewrite (uint64_t_small (cc * sizeofCluster + CacheLineSize)) by lia.
  apply uint64_t_small. lia.
Qed.

Lemma large_page_size_eq (cc : Z) :
  0 <= cc * sizeofCluster < 2 ^ 63 ->
  large_page_size cc = cc * sizeofCluster
  /\ uint64_t (large_page_size cc) = cc * sizeofCluster.
Proof.
  intros H. unfold large_page_size.
  rewrite (uint64_t_small (cc * sizeofCluster)) by lia.
  assert (Hi : int64_t (cc * sizeofCluster) = cc * sizeofCluster).
  { unfold int64_t. rewrite Z.mod_small by lia. lia. }
  rewrite Hi. split; [reflexivity | apply uint64_t_small; lia].
Qed.

(** The block [resize] has when the allocators answer as an operating
    system does: [calloc] and [malloc] with 0 or with a block in the
    address space, [VirtualAlloc] with 0 or with such a block at a
    multiple of the cache line size. *)
Lemma reallocated_facts (mbSize : Z) (s1 : State) :
  0 < sizeofCluster -> 1 <= CacheLineSize ->
  newClusterCount mbSize * sizeofCluster + CacheLineSize - 1 < 2 ^ 63 ->
  (forall tr n, 0 <= n < 2 ^ 63 ->
     calloc_result tr n = 0
     \/ (0 < calloc_result tr n /\ calloc_result tr n + n < 2 ^ 64)) ->
  (forall tr n, 0 <= n < 2 ^ 63 ->
     malloc_result tr n = 0
     \/ (0 < malloc_result tr n /\ malloc_result tr n + n < 2 ^ 64)) ->
  (forall tr n, 0 <= n < 2 ^ 63 ->
     VirtualAlloc_result tr n = 0
     \/ (0 < VirtualAlloc_result tr n
         /\ VirtualAlloc_result tr n + n < 2 ^ 64
         /\ VirtualAlloc_result tr n mod CacheLineSize = 0)) ->
  clusterCount (reallocated mbSize s1) = newClusterCount mbSize
  /\ (mem (reallocated mbSize s1) = 0
      \/ (0 < mem (reallocated mbSize s1)
          /\ mem (reallocated mbSize s1) + block_size (reallocated mbSize s1)
             < 2 ^ 64
          /\ ((large_pages_used (reallocated mbSize s1) = false
               /\ block_size (reallocated mbSize s1) =
                    newClusterCount mbSize * sizeofCluster + CacheLineSize - 1
               /\ exists tr,
                    trace (reallocated mbSize s1) =
                      calloc (newClusterCount mbSize * sizeofCluster
                              + CacheLineSize - 1) :: tr
                    \/ trace (reallocated mbSize s1) =
                      malloc (newClusterCount mbSize * sizeofCluster
                              + CacheLineSize - 1) :: tr)
              \/ (large_pages_used (reallocated mbSize s1) = true
                  /\ block_size (reallocated mbSize s1) =
                       newClusterCount mbSize * sizeofCluster
                  /\ mem (reallocated mbSize s1) mod CacheLineSize = 0
                  /\ exists msg tr,
                       trace (reallocated mbSize s1) =
                         Print msg
                         :: VirtualAlloc (newClusterCount mbSize * sizeofCluster)
                         :: tr)))).
Proof.
  intros Hsz HC Hlt Hcalloc Hmalloc Hvirtual.
  destruct (newClusterCount_range mbSize Hsz) as [Hcc Hbytes].
  unfold reallocated.
  set (s2 := released (set_clusterCount (newClusterCount mbSize) s1)).
  assert (Hcc2 : clusterCount s2 = newClusterCount mbSize)
    by (unfold s2; rewrite clusterCount_released; reflexivity).
  pose proof (padded_size_eq (newClusterCount mbSize) ltac:(lia) HC Hlt) as Hpad.
  destruct (large_page_size_eq (newClusterCount mbSize) ltac:(lia)) as [Hlp Hlpu].
  destruct (use_large_pages s1 <? 1).
  - unfold standard_alloc, allocated. rewrite Hcc2, Hpad. cbn.
    split; [assumption |].
    destruct (Hcalloc (trace s2)
                (newClusterCount mbSize * sizeofCluster + CacheLineSize - 1))
      as [H0 | [Hp Hend]]; [lia | left; assumption |].
    right.
    destruct (Z.eqb_spec (calloc_result (trace s2)
                (newClusterCount mbSize * sizeofCluster + CacheLineSize - 1)) 0);
      [lia |].
    repeat split; try assumption. left. repeat split. eauto.
  - unfold large_page_alloc. rewrite Hcc2, Hlpu, Hlp, Hpad. cbv zeta.
    destruct (Hvirtual (trace s2) (newClusterCount mbSize * sizeofCluster))
      as [H0 | (Hp & Hend & Hal)]; [lia | |].
    + rewrite H0. cbn. split; [assumption |].
      match goal with |- context [malloc_result ?tr ?n] =>
        destruct (Hmalloc tr n) as [H0' | [Hp Hend]];
          [lia | left; assumption |];
        destruct (Z.eqb_spec (malloc_result tr n) 0); [lia |] end.
      right. repeat split; try assumption. left. repeat split. eauto.
    + destruct (Z.eqb_spec (VirtualAlloc_result (trace s2)
                  (newClusterCount mbSize * sizeofCluster)) 0); [lia |].
      unfold allocated. cbn. split; [assumption |].
      destruct (Z.eqb_spec (VirtualAlloc_result (trace s2)
                  (newClusterCount mbSize * sizeofCluster)) 0); [lia |].
      right. repeat split; try assumption. right.
      repeat split; try assumption. eauto.
Qed.

Lemma block_clusters_length (p size t : Z) :
  length (block_clusters p size t) = Z.to_nat ((p + size - t) / sizeofCluster).
Proof. unfold block_clusters. rewrite length_map, length_seq. reflexivity. Qed.

Lemma block_clusters_wf (p size t : Z) :
  Forall (fun cl : Cluster => length cl = ClusterSize) (block_clusters p size t).
Proof.
  unfold block_clusters. apply Forall_forall. intros cl Hin.
  apply in_map_iff in Hin. destruct Hin as (c & <- & _).
  rewrite length_map, length_seq. reflexivity.
Qed.

(** [clear] on a table that was put into a block in which it fits. *)
Lemma clear_installed (s4 : State) :
  1 <= Options_Threads -> 0 < sizeofCluster ->
  0 <= clusterCount s4 < 2 ^ 64 ->
  align_up (mem s4) + clusterCount s4 * sizeofCluster
    <= mem s4 + block_size s4 ->
  table_ok (installed s4)
  /\ clear (installed s4) = Ret tt (zeroed (installed s4)).
Proof.
  intros HN Hsz Hcc Hfit.
  assert (Hlen : (Z.to_nat (clusterCount s4)
                  <= length (clusters (installed s4)))%nat).
  { cbn. rewrite block_clusters_length. apply Z2Nat.inj_le; [lia | |].
    - apply Z.div_pos; lia.
    - apply Z.div_le_lower_bound; lia. }
  split.
  - split; [exact Hcc |]. split; [exact Hlen |]. apply block_clusters_wf.
  - unfold clear. apply run_workers_all; [assumption .. | reflexivity].
Qed.

Lemma allocations_cons (ev : Event) (tr : list Event) :
  allocations (ev :: tr) =
    ((if is_allocation ev then 1 else 0) + allocations tr)%nat.
Proof. unfold allocations. cbn. destruct (is_allocation ev); reflexivity. Qed.

Lemma allocations_released (s : State) :
  allocations (trace (released s)) = allocations (trace s).
Proof.
  unfold released. destruct (mem s =? 0); [reflexivity |].
  cbn -[allocations]. rewrite allocations_cons.
  destruct (large_pages_used s); reflexivity.
Qed.

(** [resize] calls an allocator when it does not return early. *)
Lemma allocations_reallocated (mbSize : Z) (s1 : State) :
  (allocations (trace s1) < allocations (trace (reallocated mbSize s1)))%nat.
Proof.
  unfold reallocated.
  set (s2 := released (set_clusterCount (newClusterCount mbSize) s1)).
  assert (H2 : allocations (trace s2) = allocations (trace s1))
    by (unfold s2; rewrite allocations_released; reflexivity).
  destruct (use_large_pages s1 <? 1).
  - unfold standard_alloc, allocated. cbn -[allocations].
    rewrite allocations_cons. cbn -[allocations]. lia.
  - unfold large_page_alloc, allocated. cbv zeta.
    destruct (_ =? 0); cbn -[allocations]; rewrite !allocations_cons;
      cbn -[allocations]; lia.
Qed.

Lemma allocations_Try_Get (s s1 : State) :
  trace s1 = trace s \/ trace s1 = Print NoPrivilegeForLargePages :: trace s ->
  allocations (trace s1) = allocations (trace s).
Proof. intros [-> | ->]; [reflexivity | apply allocations_cons]. Qed.

(** C6, as the code has it: when [resize] allocates by [calloc], or by
    [malloc] after [VirtualAlloc] has failed, the request is
    [clusterCount * sizeof(Cluster) + CacheLineSize - 1] bytes; when it
    allocates large pages by [VirtualAlloc], the request is
    [clusterCount * sizeof(Cluster)] bytes, without padding.  With
    allocators that answer as an operating system does (0, or a block
    inside the address space, which for large pages starts at a multiple
    of the cache line size), [resize] exits when it has got no block,
    and returns otherwise; the table, from the address rounded up to a
    cache line on, then has its [clusterCount * sizeof(Cluster)] bytes
    inside the block. *)
Theorem resize_table_in_block :
  forall (k mbSize : Z) (s : State),
    0 <= k < 64 -> CacheLineSize = 2 ^ k ->
    0 < sizeofCluster -> 1 <= Options_Threads ->
    mbSize <> 0 ->
    newClusterCount mbSize * sizeofCluster + CacheLineSize - 1 < 2 ^ 63 ->
    (forall tr n, 0 <= n < 2 ^ 63 ->
       calloc_result tr n = 0
       \/ (0 < calloc_result tr n /\ calloc_result tr n + n < 2 ^ 64)) ->
    (forall tr n, 0 <= n < 2 ^ 63 ->
       malloc_result tr n = 0
       \/ (0 < malloc_result tr n /\ malloc_result tr n + n < 2 ^ 64)) ->
    (forall tr n, 0 <= n < 2 ^ 63 ->
       VirtualAlloc_result tr n = 0
       \/ (0 < VirtualAlloc_result tr n
           /\ VirtualAlloc_result tr n + n < 2 ^ 64
           /\ VirtualAlloc_result tr n mod CacheLineSize = 0)) ->
    exists s' : State,
      (resize mbSize s = Exit s'
       /\ mem s' = 0
       /\ exists tr, trace s' = Print (FailedToAllocate mbSize) :: tr)
      \/ (resize mbSize s = Ret tt s'
          /\ ((allocations (trace s) < allocations (trace s'))%nat ->
              clusterCount s' = newClusterCount mbSize
              /\ mem s' <= table s'
              /\ table s' mod CacheLineSize = 0
              /\ table s' + clusterCount s' * sizeofCluster
                 <= mem s' + block_size s'
              /\ (large_pages_used s' = false ->
                  block_size s' =
                    clusterCount s' * sizeofCluster + CacheLineSize - 1
                  /\ exists tr,
                       trace s' =
                         calloc (clusterCount s' * sizeofCluster
                                 + CacheLineSize - 1) :: tr
                       \/ trace s' =
                         malloc (clusterCount s' * sizeofCluster
                                 + CacheLineSize - 1) :: tr)
              /\ (large_pages_used s' = true ->
                  block_size s' = clusterCount s' * sizeofCluster
                  /\ table s' = mem s'
                  /\ exists msg tr,
                       trace s' =
                         Print msg
                         :: VirtualAlloc (clusterCount s' * sizeofCluster)
                         :: tr))).
Proof.
  intros k mbSize s Hk HC Hsz HN Hmb Hlt Hcalloc Hmalloc Hvirtual.
  assert (HC1 : 1 <= CacheLineSize).
  { rewrite HC. pose proof (Z.pow_pos_nonneg 2 k). lia. }
  destruct (Try_Get_LockMemory_Privileges_returns (set_mbSize_last_used mbSize s))
    as (s1 & HTry & _ & _ & _ & _ & _ & _ & _ & _ & Htr & _).
  rewrite (resize_unfold mbSize s s1 Hmb HTry).
  destruct (resize_skips mbSize s1).
  - exists s1. right. split; [reflexivity |]. intros Hal. exfalso.
    pose proof (allocations_Try_Get (set_mbSize_last_used mbSize s) s1 Htr)
      as Heq.
    cbn -[allocations] in Heq. lia.
  - destruct (newClusterCount_range mbSize Hsz) as [Hcc Hbytes].
    destruct (reallocated_facts mbSize s1 Hsz HC1 Hlt Hcalloc Hmalloc Hvirtual)
      as (Hcc4 & Hblock).
    set (s4 := reallocated mbSize s1) in *.
    destruct Hblock as [H0 | (Hmem & Hend & Hpath)].
    { rewrite H0. cbn [Z.eqb].
      exists (set_trace (Print (FailedToAllocate mbSize) :: trace s4) s4).
      left. split; [reflexivity |]. split; [exact H0 | eauto]. }
    destruct (Z.eqb_spec (mem s4) 0) as [H0 | _]; [lia |].
    assert (Hsize : clusterCount s4 * sizeofCluster <= block_size s4
                    /\ (large_pages_used s4 = true -> mem s4 mod CacheLineSize = 0)
                    /\ (large_pages_used s4 = false ->
                        block_size s4 = clusterCount s4 * sizeofCluster
                                        + CacheLineSize - 1)).
    { rewrite Hcc4.
      destruct Hpath as [(Hl & Hb & _) | (Hl & Hb & Hal & _)];
        rewrite Hl, Hb; repeat split; try lia; intros; congruence. }
    destruct Hsize as (Hbs & Halign & Hpadded).
    assert (Hno : mem s4 + CacheLineSize - 1 < 2 ^ 64).
    { destruct (large_pages_used s4) eqn:Hl.
      - apply aligned_below_top with (k := k); auto; lia.
      - rewrite (Hpadded eq_refl) in Hend. lia. }
    destruct (align_up_bounds k (mem s4) Hk HC ltac:(lia) Hno)
      as (Hb & Hmod & Hid).
    assert (Hfit : align_up (mem s4) + clusterCount s4 * sizeofCluster
                   <= mem s4 + block_size s4).
    { destruct (large_pages_used s4) eqn:Hl.
      - rewrite (Hid (Halign eq_refl)). lia.
      - rewrite (Hpadded eq_refl). lia. }
    destruct (clear_installed s4 HN Hsz ltac:(rewrite Hcc4; nia) Hfit) as [_ Hclear].
    exists (zeroed (installed s4)). right. split; [exact Hclear |].
    intros _. cbn [zeroed installed clusterCount mem table block_size
                   large_pages_used trace set_clusters set_table].
    split; [exact Hcc4 |]. split; [lia |]. split; [exact Hmod |].
    split; [exact Hfit |]. rewrite Hcc4. split.
    + intros Hl. destruct Hpath as [(_ & Hb' & Htr') | (Hl' & _)];
        [| congruence].
      split; assumption.
    + intros Hl. destruct Hpath as [(Hl' & _) | (_ & Hb' & Hal & Htr')];
        [congruence |].
      split; [assumption |]. split; [apply Hid; assumption | assumption].
Qed.

Lemma resize_skips_iff (mbSize : Z) (s1 : State) :
  resize_skips mbSize s1 = true <->
  newClusterCount mbSize = clusterCount s1
  /\ (use_large_pages s1 = 1 /\ large_pages_used s1 = true
      \/ use_large_pages s1 = 0 /\ large_pages_used s1 = false).
Proof.
  unfold resize_skips.
  rewrite andb_true_iff, orb_true_iff, !andb_true_iff, negb_true_iff, !Z.eqb_eq.
  prop_tauto.
Qed.

(** C9: [resize] leaves the buffer and the table as they are in these
    cases and in no other: (1) [resize(0)] when no size other than 0 was
    asked for before returns at once and changes nothing; (2)
    [resize(0)] is otherwise [resize] of the last size asked for; (3)
    when the cluster count computed is the current one and the use of
    large pages is as wanted now ([use_large_pages], as
    [Try_Get_LockMemory_Privileges] has just set it), [resize] returns
    without a call of an allocator and without [clear].  In any other
    case a [resize] that returns or exits has called an allocator. *)
Theorem resize_noop_cases :
  forall (mbSize : Z) (s : State),
    (mbSize_last_used s = 0 -> resize 0 s = Ret tt s)
    /\ resize 0 s = resize (mbSize_last_used s) s
    /\ (mbSize <> 0 ->
        exists s1 : State,
          Try_Get_LockMemory_Privileges (set_mbSize_last_used mbSize s)
            = Ret tt s1
          /\ (use_large_pages s1 = 0 \/ use_large_pages s1 = 1)
          /\ mbSize_last_used s1 = mbSize
          /\ table s1 = table s /\ mem s1 = mem s
          /\ block_size s1 = block_size s
          /\ clusters s1 = clusters s /\ clusterCount s1 = clusterCount s
          /\ large_pages_used s1 = large_pages_used s
          /\ generation8 s1 = generation8 s
          /\ (trace s1 = trace s
              \/ trace s1 = Print NoPrivilegeForLargePages :: trace s)
          /\ (newClusterCount mbSize = clusterCount s
              /\ (use_large_pages s1 = 1 /\ large_pages_used s = true
                  \/ use_large_pages s1 = 0 /\ large_pages_used s = false) ->
              resize mbSize s = Ret tt s1)
          /\ (~ (newClusterCount mbSize = clusterCount s
                 /\ (use_large_pages s1 = 1 /\ large_pages_used s = true
                     \/ use_large_pages s1 = 0 /\ large_pages_used s = false)) ->
              forall s' : State,
                resize mbSize s = Ret tt s' \/ resize mbSize s = Exit s' ->
                (allocations (trace s) < allocations (trace s'))%nat)).
Proof.
  intros mbSize s. split; [| split].
  - intros Hlast. unfold resize, bind, gets. cbn. rewrite Hlast. reflexivity.
  - destruct (Z.eqb_spec (mbSize_last_used s) 0) as [-> | Hne]; [reflexivity |].
    unfold resize. cbv beta delta [bind gets] iota zeta.
    change (0 =? 0) with true. cbv iota.
    apply Z.eqb_neq in Hne. rewrite Hne. cbv iota. rewrite Hne. reflexivity.
  - intros Hmb.
    destruct (Try_Get_LockMemory_Privileges_returns
                (set_mbSize_last_used mbSize s))
      as (s1 & HTry & Hcc & Ht & Hm & Hg & Hlast & Hl & Hb & Hcl & Htr & Hu & _).
    cbn [clusterCount table mem generation8 large_pages_used block_size
         clusters trace mbSize_last_used set_mbSize_last_used] in *.
    exists s1. do 11 (split; [assumption |]).
    rewrite (resize_unfold mbSize s s1 Hmb HTry).
    rewrite <- Hcc, <- Hl. rewrite <- resize_skips_iff. split.
    + intros ->. reflexivity.
    + intros Hskip. apply not_true_is_false in Hskip. rewrite Hskip.
      intros s' Hres.
      pose proof (allocations_reallocated mbSize s1) as Hal.
      pose proof (allocations_Try_Get s s1 Htr) as Heq.
      destruct (mem (reallocated mbSize s1) =? 0).
      * destruct Hres as [Hres | Hres]; [discriminate |].
        inversion Hres. subst s'. cbn -[allocations].
        rewrite allocations_cons. cbn -[allocations]. lia.
      * unfold clear in Hres.
        destruct (run_workers_inv threads (installed (reallocated mbSize s1)))
          as [(s'' & Hrun & Hframe) | Hundef].
        -- rewrite Hrun in Hres.
           destruct Hres as [Hres | Hres]; [| discriminate].
           inversion Hres. subst s''.
           assert (Htrace : trace s' = trace (reallocated mbSize s1)).
           { change (trace (reallocated mbSize s1))
               with (trace (installed (reallocated mbSize s1))).
             rewrite <- Hframe. reflexivity. }
           rewrite Htrace. lia.
        -- rewrite Hundef in Hres. destruct Hres; discriminate.
Qed.

(** ** Further properties: the entry *)

(** The valuation of the replacement loop is [depth8] minus the age
    term [(263 + generation8 - genBound8) & 0xF8]; the age term is a
    multiple of 8 between 0 and 248, so the valuation of an entry stays
    between -248 and 255: the [int] arithmetic of the loop cannot
    overflow. *)
Theorem replace_value_bounds :
  forall (g : Z) (e : TTEntry),
    0 <= depth8 e < 256 ->
    replace_value g e = depth8 e - Z.land (263 + g - genBound8 e) 248
    /\ 0 <= Z.land (263 + g - genBound8 e) 248 <= 248
    /\ Z.land (263 + g - genBound8 e) 248 mod 8 = 0
    /\ -248 <= replace_value g e <= 255.
Proof.
  intros g e Hd. unfold replace_value, entry_age.
  split; [reflexivity |]. rewrite land_248.
  pose proof (Z.mod_pos_bound ((263 + g - genBound8 e) / 8) 32 ltac:(lia)) as Hm.
  split; [lia |]. split; [| lia].
  rewrite Z.mul_comm. apply Z.mod_mul. lia.
Qed.

Lemma uint8_t_range (x : Z) : 0 <= uint8_t x < 256.
Proof. unfold uint8_t. apply Z.mod_pos_bound. lia. Qed.

Lemma uint16_t_range (x : Z) : 0 <= uint16_t x < 65536.
Proof. unfold uint16_t. apply Z.mod_pos_bound. lia. Qed.

Lemma int16_t_range (x : Z) : -32768 <= int16_t x < 32768.
Proof.
  unfold int16_t. pose proof (Z.mod_pos_bound (x + 32768) 65536 ltac:(lia)). lia.
Qed.

Lemma uint8_t_small (x : Z) : 0 <= x < 256 -> uint8_t x = x.
Proof. intros H. unfold uint8_t. apply Z.mod_small. assumption. Qed.

Lemma uint16_t_small (x : Z) : 0 <= x < 65536 -> uint16_t x = x.
Proof. intros H. unfold uint16_t. apply Z.mod_small. assumption. Qed.

Lemma int16_t_small (x : Z) : -32768 <= x < 32768 -> int16_t x = x.
Proof. intros H. unfold int16_t. rewrite Z.mod_small by lia. lia. Qed.

(** [save] keeps every member of the entry in the range of its type,
    whatever the arguments are. *)
Theorem save_keeps_entry_wf :
  forall (g : Z) (e e' : TTEntry) (k v : Z) (pv : bool) (b d m ev : Z),
    entry_wf e ->
    save g e k v pv b d m ev = Some e' ->
    entry_wf e'.
Proof.
  intros g e e' k v pv b d m ev (Hk & Hm & Hv & He & Hg & Hd) Hsave.
  unfold save in Hsave.
  destruct (negb (m =? 0) || negb (Z.shiftr k 48 =? key16 e));
    cbv zeta in Hsave;
    rewrite ?key16_set_move16, ?depth8_set_move16 in Hsave;
    destruct (negb (Z.shiftr k 48 =? key16 e)
              || (d - DEPTH_OFFSET >? depth8 e - 4) || (b =? BOUND_EXACT));
    try destruct (d >=? DEPTH_OFFSET); try discriminate;
    inversion Hsave; subst e'; unfold entry_wf; cbn;
    pose proof (uint16_t_range m); pose proof (uint16_t_range (Z.shiftr k 48));
    pose proof (int16_t_range v); pose proof (int16_t_range ev);
    pose proof (uint8_t_range (d - DEPTH_OFFSET));
    pose proof (uint8_t_range
                  (Z.lor (Z.lor g (Z.shiftl (uint8_t (bool_to_Z pv)) 2)) b));
    repeat split; lia.
Qed.

(** A multiple of 8 and a number below 8 have no bit in common. *)
Lemma lor_low3 (g x : Z) :
  g mod 8 = 0 -> 0 <= x < 8 -> Z.lor g x = g + x.
Proof.
  intros Hg Hx.
  assert (Hx7 : Z.land x 7 = x) by (rewrite land_7; apply Z.mod_small; lia).
  assert (Hdisj : Z.land g x = 0).
  { rewrite <- Hx7, (Z.land_comm x 7), Z.land_assoc, land_7, Hg.
    apply Z.land_0_l. }
  rewrite <- Z.lxor_lor by assumption.
  symmetry. apply Z.add_nocarry_lxor. assumption.
Qed.

Lemma pv_bound_bits (pv : bool) (b : Z) :
  0 <= b < 4 ->
  Z.lor (Z.shiftl (uint8_t (bool_to_Z pv)) 2) b = 4 * bool_to_Z pv + b.
Proof.
  intros Hb.
  assert (b = 0 \/ b = 1 \/ b = 2 \/ b = 3) as [-> | [-> | [-> | ->]]] by lia;
    destruct pv; reflexivity.
Qed.

(** What [save] stores when it overwrites and the arguments are in the
    range of the members: the tag, value, eval and depth as given, and
    the byte [generation + 4 * pv + bound], whose high five bits are the
    generation and whose low three bits are the pv flag and the bound. *)
Theorem save_stores_arguments :
  forall (g : Z) (e : TTEntry) (k v : Z) (pv : bool) (b d m ev : Z),
    0 <= k < 2 ^ 64 ->
    -32768 <= v < 32768 -> -32768 <= ev < 32768 ->
    0 <= m < 65536 ->
    0 <= d - DEPTH_OFFSET < 256 ->
    0 <= g < 256 -> g mod 8 = 0 -> 0 <= b < 4 ->
    Z.shiftr k 48 <> key16 e \/ d - DEPTH_OFFSET > depth8 e - 4
      \/ b = BOUND_EXACT ->
    exists e',
      save g e k v pv b d m ev = Some e'
      /\ key16 e' = Z.shiftr k 48
      /\ value16 e' = v /\ eval16 e' = ev
      /\ depth8 e' = d - DEPTH_OFFSET
      /\ genBound8 e' = g + 4 * bool_to_Z pv + b
      /\ Z.land (genBound8 e') 248 = g
      /\ Z.land (genBound8 e') 7 = 4 * bool_to_Z pv + b
      /\ move16 e' = (if (m =? 0) && (Z.shiftr k 48 =? key16 e)
                      then move16 e else m).
Proof.
  intros g e k v pv b d m ev Hk Hv Hev Hm Hd Hg Hg8 Hb Hc.
  assert (Htag : 0 <= Z.shiftr k 48 < 65536).
  { rewrite Z.shiftr_div_pow2 by lia. split.
    - apply Z.div_pos; lia.
    - apply Z.div_lt_upper_bound; lia. }
  assert (Hlow : 0 <= 4 * bool_to_Z pv + b < 8) by (destruct pv; cbn; lia).
  assert (Hgb : Z.lor (Z.lor g (Z.shiftl (uint8_t (bool_to_Z pv)) 2)) b
                = g + (4 * bool_to_Z pv + b)).
  { rewrite <- Z.lor_assoc, pv_bound_bits by assumption.
    apply lor_low3; assumption. }
  eexists. split; [apply save_overwrites; [unfold depth; lia | lia] |].
  cbn [key16 value16 eval16 depth8 genBound8 move16].
  rewrite Hgb.
  apply Z.mod_divide in Hg8; [| lia]. destruct Hg8 as [g' ->].
  rewrite (uint16_t_small (Z.shiftr k 48)), (int16_t_small v), (int16_t_small ev),
    (uint8_t_small (d - DEPTH_OFFSET)), uint16_t_small by lia.
  rewrite uint8_t_small by lia.
  do 4 (split; [reflexivity |]).
  split; [lia |]. split; [| split].
  - rewrite land_248.
    rewrite Z.div_add_l, (Z.div_small (4 * bool_to_Z pv + b)) by lia.
    rewrite Z.add_0_r, Z.mod_small by lia. lia.
  - rewrite land_7, Z.add_comm, Z.mod_add by lia. apply Z.mod_small. lia.
  - destruct (m =? 0), (Z.shiftr k 48 =? key16 e); reflexivity.
Qed.

(** ** Further properties: probe *)

Lemma with_entry_same (s : State) (c i : nat) (e : TTEntry) :
  entry_at s c i = Some e -> with_entry s c i e = s.
Proof.
  unfold entry_at, with_entry.
  destruct (clusters s !! c) as [cl |] eqn:Hc; [| discriminate].
  intros Hi. unfold Cluster in *.
  rewrite (list_insert_id cl i e Hi), (list_insert_id _ c cl Hc).
  apply set_clusters_same.
Qed.

Lemma with_entry_cluster (s : State) (c i : nat) (cl : Cluster) (e : TTEntry) :
  clusters s !! c = Some cl ->
  clusters (with_entry s c i e) !! c = Some (<[i := e]> cl).
Proof.
  intros Hc. unfold with_entry. rewrite Hc. cbn.
  apply list_lookup_insert_eq. eapply lookup_lt_Some. eassumption.
Qed.


(** The refresh of [probe] applied to its own result gives this result
    again. *)
Lemma refresh_idempotent (g gb : Z) :
  uint8_t (Z.lor g (Z.land (uint8_t (Z.lor g (Z.land gb 7))) 7))
  = uint8_t (Z.lor g (Z.land gb 7)).
Proof.
  f_equal. unfold uint8_t.
  change 256 with (2 ^ 8). rewrite <- Z.land_ones by lia.
  rewrite <- Z.land_assoc. change (Z.land (Z.ones 8) 7) with 7.
  rewrite Z.land_lor_distr_l, <- Z.land_assoc. change (Z.land 7 7) with 7.
  rewrite Z.lor_assoc. f_equal.
  apply Z.bits_inj'. intros n Hn.
  rewrite Z.lor_spec, Z.land_spec.
  destruct (Z.testbit g n), (Z.testbit 7 n); reflexivity.
Qed.

(** The byte [save] writes is left as it is by the refresh, for a bound
    below 4. *)
Lemma refresh_saved (g : Z) (pv : bool) (b : Z) :
  0 <= b < 4 ->
  uint8_t (Z.lor g (Z.land
     (uint8_t (Z.lor (Z.lor g (Z.shiftl (uint8_t (bool_to_Z pv)) 2)) b)) 7))
  = uint8_t (Z.lor (Z.lor g (Z.shiftl (uint8_t (bool_to_Z pv)) 2)) b).
Proof.
  intros Hb. rewrite <- !Z.lor_assoc, pv_bound_bits by assumption.
  assert (Hx : Z.land (4 * bool_to_Z pv + b) 7 = 4 * bool_to_Z pv + b).
  { rewrite land_7. apply Z.mod_small. destruct pv; cbn; lia. }
  pose proof (refresh_idempotent g (4 * bool_to_Z pv + b)) as H.
  rewrite Hx in H. exact H.
Qed.

(** [probe] a second time gives the same answer and changes nothing
    more: the first call has made the only change there is to make. *)
Theorem probe_twice :
  forall (s : State) (key : Z) (cl : Cluster),
    clusters s !! first_entry (clusterCount s) key = Some cl ->
    length cl = ClusterSize ->
    (0 < ClusterSize)%nat ->
    exists (r : bool * (nat * nat)) (s' : State),
      probe key s = Ret r s' /\ probe key s' = Ret r s'.
Proof.
  intros s key cl Hcl Hlen Hpos.
  destruct (first_hit_or_none (uint16_t (Z.shiftr key 48)) cl)
    as [(j & e & Hj & He & Hfirst) | Hnone].
  - pose proof (probe_hit s key cl j e Hcl Hlen Hj He Hfirst) as Hp.
    set (c := first_entry (clusterCount s) key) in *.
    set (e1 := set_genBound8
                 (uint8_t (Z.lor (generation8 s) (Z.land (genBound8 e) 7))) e)
      in *.
    set (s' := with_entry s c j e1) in *.
    exists (negb (key16 e =? 0), (c, j)), s'. split; [exact Hp |].
    assert (Hc' : first_entry (clusterCount s') key = c).
    { unfold s'. rewrite with_entry_clusterCount. reflexivity. }
    assert (Hat : entry_at s' c j = Some e1).
    { unfold s'. eapply entry_at_with_entry_eq.
      rewrite (entry_at_cluster _ _ _ _ Hcl). eassumption. }
    rewrite (probe_hit s' key (<[j := e1]> cl) j e1).
    + rewrite Hc'. unfold s' at 1 2. rewrite with_entry_generation8.
      unfold e1 at 1 2 3. cbn [key16 genBound8 set_genBound8].
      rewrite refresh_idempotent.
      replace (set_genBound8
                 (uint8_t (Z.lor (generation8 s) (Z.land (genBound8 e) 7))) e1)
        with e1 by reflexivity.
      f_equal. exact (with_entry_same s' c j e1 Hat).
    + rewrite Hc'. unfold s'. apply with_entry_cluster. assumption.
    + etransitivity; [apply length_insert | assumption].
    + apply list_lookup_insert_eq. eapply lookup_lt_Some. eassumption.
    + exact He.
    + intros j' e' Hlt He'.
      assert (Hsame : <[j := e1]> cl !! j' = cl !! j')
        by (apply list_lookup_insert_ne; lia).
      rewrite Hsame in He'. eapply Hfirst; eassumption.
  - destruct (probe_miss s key cl Hcl Hlen Hpos Hnone) as (r & Hr & _).
    exists (false, (first_entry (clusterCount s) key, r)), s.
    split; assumption.
Qed.

(** [found] is true exactly when the cluster of the key has an entry
    with the tag of the key, the tag is not 0, and no slot before this
    entry is empty; the entry returned is then the first such.  So a key
    whose high 16 bits are 0 is never found, and an entry behind an
    empty slot is not found either. *)
Theorem probe_found_iff :
  forall (s : State) (key : Z) (cl : Cluster),
    clusters s !! first_entry (clusterCount s) key = Some cl ->
    length cl = ClusterSize ->
    (0 < ClusterSize)%nat ->
    exists (found : bool) (i : nat) (s' : State),
      probe key s = Ret (found, (first_entry (clusterCount s) key, i)) s'
      /\ (found = true <->
          exists (j : nat) (e : TTEntry),
            cl !! j = Some e
            /\ key16 e = uint16_t (Z.shiftr key 48) /\ key16 e <> 0
            /\ forall j' e', (j' < j)%nat -> cl !! j' = Some e' ->
                 key16 e' <> 0)
      /\ (found = true ->
          exists e : TTEntry,
            cl !! i = Some e
            /\ key16 e = uint16_t (Z.shiftr key 48) /\ key16 e <> 0
            /\ forall j' e', (j' < i)%nat -> cl !! j' = Some e' ->
                 key16 e' <> 0 /\ key16 e' <> uint16_t (Z.shiftr key 48))
      /\ (uint16_t (Z.shiftr key 48) = 0 -> found = false).
Proof.
  intros s key cl Hcl Hlen Hpos.
  set (tag := uint16_t (Z.shiftr key 48)).
  destruct (first_hit_or_none tag cl)
    as [(j & e & Hj & He & Hfirst) | Hnone].
  - exists (negb (key16 e =? 0)), j. eexists.
    split; [apply (probe_hit s key cl j e Hcl Hlen Hj He Hfirst) |].
    assert (Hbefore : forall j' e', (j' < j)%nat -> cl !! j' = Some e' ->
              key16 e' <> 0 /\ key16 e' <> tag).
    { intros j' e' Hlt He'. pose proof (Hfirst j' e' Hlt He') as Hn.
      unfold empty_or_match in Hn. split; intros Heq; apply Hn; auto. }
    rewrite negb_true_iff, Z.eqb_neq.
    split; [| split].
    + split.
      * intros Hne. exists j, e. destruct He as [H0 | Ht]; [contradiction |].
        repeat split; try assumption.
        intros j' e' Hlt He'. apply (Hbefore j' e' Hlt He').
      * intros (j2 & e2 & Hj2 & Ht2 & Hne2 & Hfull) H0.
        destruct (Nat.lt_trichotomy j j2) as [Hlt | [-> | Hgt]].
        -- apply (Hfull j e Hlt Hj). assumption.
        -- pose proof (eq_trans (eq_sym Hj) Hj2) as Heq.
           inversion Heq. subst e2. contradiction.
        -- destruct (Hbefore j2 e2 Hgt Hj2) as [_ Hnt]. contradiction.
    + intros Hne. exists e. destruct He as [H0 | Ht]; [contradiction |].
      split; [assumption |]. split; [assumption |]. split; [assumption |].
      exact Hbefore.
    + intros Htag. apply negb_false_iff, Z.eqb_eq.
      destruct He as [H0 | Ht]; [exact H0 | congruence].
  - destruct (probe_miss s key cl Hcl Hlen Hpos Hnone) as (r & Hr & _).
    exists false, r, s. split; [exact Hr |].
    split; [| split; [discriminate | reflexivity]].
    split; [discriminate |].
    intros (j2 & e2 & Hj2 & Ht2 & _). exfalso.
    rewrite Forall_forall in Hnone. apply (Hnone e2).
    + apply list_elem_of_In. eapply list_elem_of_lookup_2. eassumption.
    + right. assumption.
Qed.


(** [probe] on a state where the key is already at entry [i] of its
    cluster, with no empty slot before it and the generation bits
    refreshed: the entry is found and nothing changes. *)
Lemma probe_finds_stable (s : State) (key : Z) (cl : Cluster) (i : nat)
    (e : TTEntry) :
  clusters s !! first_entry (clusterCount s) key = Some cl ->
  length cl = ClusterSize ->
  cl !! i = Some e ->
  key16 e = uint16_t (Z.shiftr key 48) -> key16 e <> 0 ->
  (forall j' e', (j' < i)%nat -> cl !! j' = Some e' ->
     ~ empty_or_match (uint16_t (Z.shiftr key 48)) e') ->
  uint8_t (Z.lor (generation8 s) (Z.land (genBound8 e) 7)) = genBound8 e ->
  probe key s = Ret (true, (first_entry (clusterCount s) key, i)) s.
Proof.
  intros Hcl Hlen Hi Htag Hne Hfirst Hgb.
  rewrite (probe_hit s key cl i e Hcl Hlen Hi (or_intror Htag) Hfirst).
  rewrite Hgb.
  replace (set_genBound8 (genBound8 e) e) with e by (destruct e; reflexivity).
  rewrite with_entry_same
    by (rewrite (entry_at_cluster _ _ _ _ Hcl); assumption).
  apply Z.eqb_neq in Hne. rewrite Hne. reflexivity.
Qed.

(** The tag of a 64-bit key is below 2^16. *)
Lemma tag_range (key : Z) :
  0 <= key < 2 ^ 64 -> uint16_t (Z.shiftr key 48) = Z.shiftr key 48.
Proof.
  intros Hk. apply uint16_t_small. rewrite Z.shiftr_div_pow2 by lia. split.
  - apply Z.div_pos; lia.
  - apply Z.div_lt_upper_bound; lia.
Qed.

(** The round trip of the search: [probe] for a key, [save] for this key
    on the entry [probe] has returned, [probe] again.  Whatever the first
    [probe] has answered (found, an empty slot, or an entry to replace),
    the second one finds the key at the same entry and leaves the table
    as [save] has left it. *)
Theorem save_then_probe_finds :
  forall (s s1 : State) (key : Z) (cl : Cluster) (found : bool) (c i : nat)
         (v : Z) (pv : bool) (b d m ev : Z),
    clusters s !! first_entry (clusterCount s) key = Some cl ->
    length cl = ClusterSize ->
    (0 < ClusterSize)%nat ->
    0 <= key < 2 ^ 64 -> Z.shiftr key 48 <> 0 ->
    DEPTH_OFFSET <= d -> 0 <= b < 4 ->
    probe key s = Ret (found, (c, i)) s1 ->
    exists (s2 : State) (e2 : TTEntry),
      save_entry s1 c i key v pv b d m ev = Some s2
      /\ probe key s2 = Ret (true, (c, i)) s2
      /\ entry_at s2 c i = Some e2
      /\ key16 e2 = Z.shiftr key 48
      /\ (found = false ->
          value16 e2 = int16_t v /\ eval16 e2 = int16_t ev
          /\ depth8 e2 = uint8_t (d - DEPTH_OFFSET)
          /\ move16 e2 = uint16_t m).
Proof.
  intros s s1 key cl found c i v pv b d m ev Hcl Hlen Hpos Hk Hnz Hd Hb Hp.
  pose proof (tag_range key Hk) as Htag.
  set (c0 := first_entry (clusterCount s) key) in *.
  (* the cluster and the entry after the first probe *)
  assert (Hs1 : exists (cl1 : Cluster) (e1 : TTEntry),
             c = c0
             /\ clusters s1 !! c0 = Some cl1 /\ length cl1 = ClusterSize
             /\ cl1 !! i = Some e1
             /\ generation8 s1 = generation8 s
             /\ clusterCount s1 = clusterCount s
             /\ (forall j' e', (j' < i)%nat -> cl1 !! j' = Some e' ->
                   ~ empty_or_match (uint16_t (Z.shiftr key 48)) e')
             /\ (if found
                 then key16 e1 = Z.shiftr key 48
                      /\ uint8_t (Z.lor (generation8 s)
                                    (Z.land (genBound8 e1) 7)) = genBound8 e1
                 else key16 e1 <> Z.shiftr key 48)).
  { destruct (first_hit_or_none (uint16_t (Z.shiftr key 48)) cl)
      as [(j & e & Hj & He & Hfirst) | Hnone].
    - rewrite (probe_hit s key cl j e Hcl Hlen Hj He Hfirst) in Hp.
      fold c0 in Hp. inversion Hp as [[Hf Hc Hi Hst]]. subst i.
      set (e1 := set_genBound8
                   (uint8_t (Z.lor (generation8 s) (Z.land (genBound8 e) 7))) e).
      exists (<[j := e1]> cl), e1.
      split; [reflexivity |].
      split; [apply with_entry_cluster; assumption |].
      split; [etransitivity; [apply length_insert | assumption] |].
      split; [apply list_lookup_insert_eq; eapply lookup_lt_Some; eassumption |].
      split; [apply with_entry_generation8 |].
      split; [apply with_entry_clusterCount |].
      split.
      + intros j' e' Hlt He'.
        assert (Hsame : <[j := e1]> cl !! j' = cl !! j')
          by (apply list_lookup_insert_ne; lia).
        rewrite Hsame in He'. eapply Hfirst; eassumption.
      + unfold e1. cbn [key16 genBound8 set_genBound8].
        destruct (Z.eqb_spec (key16 e) 0) as [H0 | Hn0]; cbn [negb].
        * rewrite H0. auto.
        * destruct He as [H0 | Ht]; [contradiction |].
          split; [congruence | apply refresh_idempotent].
    - destruct (probe_miss s key cl Hcl Hlen Hpos Hnone)
        as (r & Hr & Hlt & er & Her & _).
      rewrite Hr in Hp. fold c0 in Hp. inversion Hp as [[Hf Hc Hi Hst]].
      subst i s1. fold c0 in Her.
      rewrite (entry_at_cluster _ _ _ _ Hcl) in Her.
      exists cl, er. repeat (split; [first [reflexivity | assumption] |]).
      split.
      + intros j' e' _ He'. rewrite Forall_forall in Hnone. apply Hnone.
        apply list_elem_of_In. eapply list_elem_of_lookup_2. eassumption.
      + rewrite Forall_forall in Hnone.
        intros Heq. apply (Hnone er).
        * apply list_elem_of_In. eapply list_elem_of_lookup_2. eassumption.
        * right. congruence. }
  destruct Hs1 as (cl1 & e1 & -> & Hcl1 & Hlen1 & Hi1 & Hg1 & Hcc1 & Hfirst1 & Hcase).
  (* what save leaves *)
  assert (Hsave : exists e2,
             save (generation8 s1) e1 key v pv b d m ev = Some e2
             /\ key16 e2 = Z.shiftr key 48
             /\ uint8_t (Z.lor (generation8 s1) (Z.land (genBound8 e2) 7))
                = genBound8 e2
             /\ (found = false ->
                 value16 e2 = int16_t v /\ eval16 e2 = int16_t ev
                 /\ depth8 e2 = uint8_t (d - DEPTH_OFFSET)
                 /\ move16 e2 = uint16_t m)).
  { destruct (classic_cond e1 key b d) as [Hover | Hkeep].
    - eexists. split; [apply save_overwrites; assumption |].
      cbn [key16 genBound8 value16 eval16 depth8 move16].
      split; [exact Htag |]. split; [apply refresh_saved; assumption |].
      intros ->. do 3 (split; [reflexivity |]).
      assert (Hne : negb (Z.shiftr key 48 =? key16 e1) = true).
      { apply negb_true_iff, Z.eqb_neq. congruence. }
      rewrite Hne, orb_true_r. reflexivity.
    - destruct found.
      + destruct Hcase as [Hkey Hgb].
        eexists. split; [apply save_keeps; assumption |].
        rewrite Hg1.
        destruct (negb (m =? 0)); cbn [key16 genBound8 set_move16];
          (split; [assumption |]); (split; [assumption |]); discriminate.
      + exfalso. apply Hkeep. left. congruence. }
  destruct Hsave as (e2 & Hsv & Hkey2 & Hgb2 & Hfields).
  exists (with_entry s1 c0 i e2), e2.
  assert (Hat1 : entry_at s1 c0 i = Some e1).
  { rewrite (entry_at_cluster _ _ _ _ Hcl1). assumption. }
  split; [unfold save_entry; rewrite Hat1, Hsv; reflexivity |].
  assert (Hc2 : first_entry (clusterCount (with_entry s1 c0 i e2)) key = c0).
  { rewrite with_entry_clusterCount, Hcc1. reflexivity. }
  split; [| split; [eapply entry_at_with_entry_eq; eassumption |
                    split; assumption]].
  pose proof (probe_finds_stable (with_entry s1 c0 i e2) key
                (<[i := e2]> cl1) i e2) as Hstable.
  rewrite Hc2 in Hstable. apply Hstable; clear Hstable.
  - apply with_entry_cluster. assumption.
  - etransitivity; [apply length_insert | assumption].
  - apply list_lookup_insert_eq. eapply lookup_lt_Some. eassumption.
  - congruence.
  - congruence.
  - intros j' e' Hlt He'.
    assert (Hsame : <[i := e2]> cl1 !! j' = cl1 !! j')
      by (apply list_lookup_insert_ne; lia).
    rewrite Hsame in He'. eapply Hfirst1; eassumption.
  - rewrite with_entry_generation8. assumption.
Qed.


(** [save] with a depth below [DEPTH_OFFSET] on the overwrite branch:
    the assertion fails. *)
Lemma save_asserts (g : Z) (e : TTEntry) (k v : Z) (pv : bool) (b d m ev : Z) :
  Z.shiftr k 48 <> key16 e \/ d > depth e - 4 \/ b = BOUND_EXACT ->
  d < DEPTH_OFFSET ->
  save g e k v pv b d m ev = None.
Proof.
  intros Hc Hd. unfold save.
  destruct (save_tests e k b d m) as (_ & Hk & Hdep & Hb).
  assert (Hif : negb (Z.shiftr k 48 =? key16 e)
                || (d - DEPTH_OFFSET >? depth8 e - 4) || (b =? BOUND_EXACT) = true).
  { rewrite !orb_true_iff. prop_tauto. }
  assert (Hge : (d >=? DEPTH_OFFSET) = false).
  { apply not_true_is_false. rewrite Z.geb_le. lia. }
  destruct (negb (m =? 0) || negb (Z.shiftr k 48 =? key16 e));
    cbv zeta; rewrite ?key16_set_move16, ?depth8_set_move16, Hif, Hge; reflexivity.
Qed.

(** [save] a second time with the same arguments changes nothing: the
    entry the first call has left is the entry the second one leaves. *)
Theorem save_idempotent :
  forall (g : Z) (e e1 : TTEntry) (k v : Z) (pv : bool) (b d m ev : Z),
    0 <= k < 2 ^ 64 ->
    save g e k v pv b d m ev = Some e1 ->
    save g e1 k v pv b d m ev = Some e1.
Proof.
  intros g e e1 k v pv b d m ev Hk Hsave.
  pose proof (tag_range k Hk) as Htag.
  destruct (classic_cond e k b d) as [Hover | Hkeep].
  - destruct (Z_lt_le_dec d DEPTH_OFFSET) as [Hlt | Hge].
    { rewrite save_asserts in Hsave by assumption. discriminate. }
    rewrite save_overwrites in Hsave by assumption.
    apply Some_inj in Hsave. subst e1.
    rewrite save_overwrites; [| | assumption].
    + cbn [key16 move16]. do 2 f_equal.
      rewrite Htag, Z.eqb_refl.
      destruct (m =? 0); reflexivity.
    + right. left. unfold depth. cbn [depth8].
      assert (Hle : uint8_t (d - DEPTH_OFFSET) <= d - DEPTH_OFFSET).
      { unfold uint8_t. apply Z.mod_le; lia. }
      lia.
  - rewrite save_keeps in Hsave by assumption.
    apply Some_inj in Hsave. subst e1.
    rewrite save_keeps.
    + destruct (m =? 0); reflexivity.
    + unfold depth in *. destruct (m =? 0); exact Hkeep.
Qed.

(** [probe] in a cluster that is all zero: the first slot is returned as
    an empty one, with the current generation written to it. *)
Lemma probe_zero_cluster (s : State) (key : Z) :
  clusters s !! first_entry (clusterCount s) key = Some zero_cluster ->
  (0 < ClusterSize)%nat ->
  probe key s =
    Ret (false, (first_entry (clusterCount s) key, 0%nat))
        (with_entry s (first_entry (clusterCount s) key) 0
           (set_genBound8 (uint8_t (generation8 s)) zero_entry)).
Proof.
  intros Hcl Hpos.
  rewrite (probe_hit s key zero_cluster 0 zero_entry Hcl).
  - cbn [zero_entry genBound8 key16]. rewrite Z.land_0_l, Z.lor_0_r.
    reflexivity.
  - apply length_replicate.
  - apply lookup_replicate_2. assumption.
  - left. reflexivity.
  - intros j' e' Hlt. lia.
Qed.

(** After [clear] no key is found: [probe] for a key whose cluster is in
    the table returns [found = false] and the first slot of the cluster,
    which it stamps with the current generation. *)
Theorem clear_then_probe_not_found :
  forall (s : State) (key : Z),
    1 <= Options_Threads ->
    table_ok s ->
    (0 < ClusterSize)%nat ->
    (first_entry (clusterCount s) key < Z.to_nat (clusterCount s))%nat ->
    exists s1 s2 : State,
      clear s = Ret tt s1
      /\ probe key s1
         = Ret (false, (first_entry (clusterCount s) key, 0%nat)) s2
      /\ entry_at s2 (first_entry (clusterCount s) key) 0
         = Some (set_genBound8 (uint8_t (generation8 s)) zero_entry)
      /\ forall c i : nat,
           (c, i) <> (first_entry (clusterCount s) key, 0%nat) ->
           (c < Z.to_nat (clusterCount s))%nat ->
           (i < ClusterSize)%nat ->
           entry_at s2 c i = Some zero_entry.
Proof.
  intros s key HN (Hcc & Hlen & Hwf) Hpos Hin.
  set (c0 := first_entry (clusterCount s) key) in *.
  set (s1 := set_clusters
               (replicate (Z.to_nat (clusterCount s)) zero_cluster
                ++ drop (Z.to_nat (clusterCount s)) (clusters s)) s).
  assert (Hzero : forall x : nat, (x < Z.to_nat (clusterCount s))%nat ->
            clusters s1 !! x = Some zero_cluster).
  { intros x Hx. unfold s1. cbn [clusters set_clusters].
    rewrite lookup_app_l by (rewrite length_replicate; lia).
    apply lookup_replicate_2. assumption. }
  assert (Hat : forall c i : nat, (c < Z.to_nat (clusterCount s))%nat ->
            (i < ClusterSize)%nat -> entry_at s1 c i = Some zero_entry).
  { intros c i Hc Hi. rewrite (entry_at_cluster _ _ _ _ (Hzero c Hc)).
    apply lookup_replicate_2. assumption. }
  exists s1. eexists.
  split; [unfold clear; apply run_workers_all;
          [assumption .. | reflexivity] |].
  split; [apply (probe_zero_cluster s1 key); [apply Hzero |]; assumption |].
  change (first_entry (clusterCount s1) key) with c0.
  change (generation8 s1) with (generation8 s).
  split.
  - eapply entry_at_with_entry_eq. apply Hat; assumption.
  - intros c i Hne Hc Hi. rewrite entry_at_with_entry_ne by assumption.
    apply Hat; assumption.
Qed.


(** ** Further properties: hashfull *)

Lemma length_concat_uniform (n : nat) (cls : list Cluster) :
  Forall (fun cl : Cluster => length cl = n) cls ->
  length (concat cls) = (length cls * n)%nat.
Proof.
  induction 1 as [| cl cls Hcl _ IH]; [reflexivity |].
  cbn [concat length]. rewrite length_app, IH, Hcl. lia.
Qed.

Lemma filter_length_all {A : Type} (f : A -> bool) (l : list A) :
  length (List.filter f l) = length l <-> Forall (fun x => f x = true) l.
Proof.
  induction l as [| x l IH]; [split; [constructor | reflexivity] |].
  cbn [List.filter]. pose proof (List.filter_length_le f l) as Hle.
  destruct (f x) eqn:Hfx; cbn [length].
  - split.
    + intros Hlen. constructor; [assumption | apply IH; lia].
    + intros Hall. inversion Hall; subst. f_equal. apply IH. assumption.
  - split; [lia |]. intros Hall. inversion Hall; subst. congruence.
Qed.

(** The two ends of the scale of [hashfull]: it returns 1000 exactly
    when every entry of the first 1000 clusters carries the current
    generation, and 0 exactly when fewer than [ClusterSize] of these
    entries do. *)
Theorem hashfull_extremes :
  forall s : State,
    table_ok s -> 1000 <= clusterCount s -> (0 < ClusterSize)%nat ->
    exists r : Z,
      hashfull s = Ret r s
      /\ (r = 1000 <->
          forall (c i : nat) (e : TTEntry),
            (c < 1000)%nat -> entry_at s c i = Some e ->
            Z.land (genBound8 e) 248 = generation8 s)
      /\ (r = 0 <->
          (length (current_entries (generation8 s) (take 1000 (clusters s)))
           < ClusterSize)%nat).
Proof.
  intros s Hok H1000 Hpos. pose proof Hok as (Hcc & Hlen & Hwf).
  eexists. split; [apply hashfull_value; assumption |].
  set (g := generation8 s).
  set (first := take 1000 (clusters s)).
  assert (Hfirst : length first = 1000%nat).
  { unfold first. rewrite length_take. lia. }
  assert (Htotal : length (concat first) = (1000 * ClusterSize)%nat).
  { rewrite (length_concat_uniform ClusterSize), Hfirst; [reflexivity |].
    unfold first. apply Forall_take. assumption. }
  pose proof (List.filter_length_le
                (fun e => Z.land (genBound8 e) 248 =? g) (concat first)) as Hle.
  pose proof (filter_length_all
                (fun e => Z.land (genBound8 e) 248 =? g) (concat first)) as Hall.
  fold (current_entries g first) in Hle, Hall.
  set (n := length (current_entries g first)) in *.
  pose proof (Z.div_mod (Z.of_nat n) (Z.of_nat ClusterSize) ltac:(lia)) as Hdm.
  pose proof (Z.mod_pos_bound (Z.of_nat n) (Z.of_nat ClusterSize) ltac:(lia))
    as Hmod.
  split.
  - assert (Hn : Z.of_nat n / Z.of_nat ClusterSize = 1000
                 <-> n = length (concat first)).
    { rewrite Htotal. split; intros H; nia. }
    rewrite Hn, Hall. split.
    + intros HF c i e Hc He. unfold entry_at in He.
      destruct (clusters s !! c) as [cl |] eqn:Hcl; [| discriminate].
      rewrite Forall_forall in HF. apply Z.eqb_eq. apply HF.
      apply in_concat. exists cl. split.
      * apply list_elem_of_In. apply (list_elem_of_lookup_2 _ c).
        unfold first. rewrite lookup_take_lt by assumption. assumption.
      * apply list_elem_of_In. eapply list_elem_of_lookup_2. eassumption.
    + intros Hent. apply Forall_forall. intros e Hin.
      apply in_concat in Hin. destruct Hin as (cl & Hcl & He).
      apply list_elem_of_In, list_elem_of_lookup_1 in Hcl.
      destruct Hcl as [c Hc].
      apply list_elem_of_In, list_elem_of_lookup_1 in He.
      destruct He as [i Hi].
      assert (Hc1000 : (c < 1000)%nat).
      { rewrite <- Hfirst. eapply lookup_lt_Some. eassumption. }
      unfold first in Hc. rewrite lookup_take_lt in Hc by assumption.
      apply Z.eqb_eq. apply (Hent c i e Hc1000).
      rewrite (entry_at_cluster _ _ _ _ Hc). assumption.
  - rewrite Z.div_small_iff by lia. lia.
Qed.

Lemma filter_length_insert {A : Type} (f : A -> bool) (l : list A) (i : nat)
    (x y : A) :
  l !! i = Some y -> f x = true ->
  (length (List.filter f l) <= length (List.filter f (<[i := x]> l))
   <= S (length (List.filter f l)))%nat.
Proof.
  revert i. induction l as [| a l IH]; intros [| i] Hi Hx; try discriminate.
  - change (<[0%nat := x]> (a :: l)) with (x :: l).
    cbn [List.filter]. rewrite Hx.
    destruct (f a); rewrite ?length_cons; lia.
  - change (<[S i := x]> (a :: l)) with (a :: <[i := x]> l).
    cbn [List.filter].
    pose proof (IH i Hi Hx) as IHi.
    destruct (f a); rewrite ?length_cons; lia.
Qed.

Lemma current_entries_insert (g : Z) (cls : list Cluster) (c : nat)
    (cl cl' : Cluster) :
  cls !! c = Some cl ->
  (length (List.filter (fun e => (Z.land (genBound8 e) 248 =? g)%Z) cl)
   <= length (List.filter (fun e => (Z.land (genBound8 e) 248 =? g)%Z) cl')
   <= S (length (List.filter (fun e => (Z.land (genBound8 e) 248 =? g)%Z) cl)))%nat ->
  (length (current_entries g cls)
   <= length (current_entries g (<[c := cl']> cls))
   <= S (length (current_entries g cls)))%nat.
Proof.
  revert c. induction cls as [| a cls IH]; intros [| c] Hc Hcl; try discriminate.
  - inversion Hc. subst a.
    change (<[0%nat := cl']> (cl :: cls)) with (cl' :: cls).
    rewrite !current_entries_cons. lia.
  - change (<[S c := cl']> (a :: cls)) with (a :: <[c := cl']> cls).
    rewrite !current_entries_cons.
    pose proof (IH c Hc Hcl). lia.
Qed.


(** [probe] never lowers [hashfull]: the only write of [probe] stamps an
    entry with the current generation, so the count of current entries
    goes up by one or stays, and [hashfull] with it. *)
Theorem probe_never_lowers_hashfull :
  forall (s : State) (key : Z),
    table_ok s -> 1000 <= clusterCount s -> (0 < ClusterSize)%nat ->
    (first_entry (clusterCount s) key < Z.to_nat (clusterCount s))%nat ->
    0 <= generation8 s < 256 -> generation8 s mod 8 = 0 ->
    exists (r : bool * (nat * nat)) (s' : State) (h h' : Z),
      probe key s = Ret r s'
      /\ hashfull s = Ret h s
      /\ hashfull s' = Ret h' s'
      /\ h <= h' <= h + 1.
Proof.
  intros s key Hok H1000 Hpos Hin Hg Hg8.
  pose proof Hok as (Hcc & Hlen & Hwf).
  set (c0 := first_entry (clusterCount s) key) in *.
  destruct (lookup_lt_is_Some_2 (clusters s) c0) as [cl Hcl]; [lia |].
  assert (Hlcl : length cl = ClusterSize).
  { rewrite Forall_forall in Hwf. apply Hwf.
    apply list_elem_of_In. eapply list_elem_of_lookup_2. eassumption. }
  destruct (first_hit_or_none (uint16_t (Z.shiftr key 48)) cl)
    as [(j & e & Hj & He & Hfirst) | Hnone].
  - pose proof (probe_hit s key cl j e Hcl Hlcl Hj He Hfirst) as Hp.
    fold c0 in Hp.
    set (e1 := set_genBound8
                 (uint8_t (Z.lor (generation8 s) (Z.land (genBound8 e) 7))) e)
      in *.
    set (s' := with_entry s c0 j e1) in *.
    assert (Hok' : table_ok s') by (apply table_ok_with_entry; assumption).
    assert (Hg' : generation8 s' = generation8 s)
      by apply with_entry_generation8.
    assert (Hcc' : clusterCount s' = clusterCount s)
      by apply with_entry_clusterCount.
    assert (Hcls : clusters s' = <[c0 := <[j := e1]> cl]> (clusters s)).
    { unfold s', with_entry. rewrite Hcl. reflexivity. }
    do 4 eexists. split; [exact Hp |].
    split; [apply hashfull_value; assumption |].
    split; [apply hashfull_value; [assumption | rewrite Hcc'; assumption] |].
    { rewrite Hg', Hcls.
      set (g := generation8 s) in *.
      assert (Hcount :
                (length (current_entries g (take 1000 (clusters s)))
                 <= length (current_entries g
                              (take 1000 (<[c0 := <[j := e1]> cl]> (clusters s))))
                 <= S (length (current_entries g (take 1000 (clusters s)))))%nat).
      { destruct (decide (c0 < 1000)%nat) as [Hlt | Hge].
        - unfold Cluster in *. rewrite take_insert_lt by assumption.
          apply (current_entries_insert g _ c0 cl).
          + rewrite lookup_take_lt by assumption. assumption.
          + apply (filter_length_insert _ cl j e1 e Hj).
            apply Z.eqb_eq. unfold e1. cbn [genBound8 set_genBound8].
            apply refresh_bits; assumption.
        - unfold Cluster in *. rewrite take_insert_ge by lia. lia. }
      set (n := length (current_entries g (take 1000 (clusters s)))) in *.
      set (n' := length (current_entries g
                  (take 1000 (<[c0 := <[j := e1]> cl]> (clusters s))))) in *.
      pose proof (Z.div_le_mono (Z.of_nat n) (Z.of_nat n')
                    (Z.of_nat ClusterSize) ltac:(lia) ltac:(lia)) as Hlo.
      pose proof (Z.div_le_mono (Z.of_nat n') (Z.of_nat n + Z.of_nat ClusterSize)
                    (Z.of_nat ClusterSize) ltac:(lia) ltac:(lia)) as Hhi.
      replace (Z.of_nat n + Z.of_nat ClusterSize)
        with (Z.of_nat n + 1 * Z.of_nat ClusterSize) in Hhi by lia.
      rewrite Z.div_add in Hhi by lia. lia. }
  - destruct (probe_miss s key cl Hcl Hlcl Hpos Hnone) as (r & Hr & _).
    do 4 eexists. split; [exact Hr |].
    split; [apply hashfull_value; assumption |].
    split; [apply hashfull_value; assumption |]. lia.
Qed.

(** ** Further properties: resize *)

(** The number of clusters for a size below 2^44 megabytes (below which
    [mbSize * 1024 * 1024] does not wrap around in 64 bits): the table
    never takes more than the size asked for, and falls short of it by
    less than one cluster.  Sizes that differ by 2^44 megabytes give the
    same number of clusters. *)
Theorem newClusterCount_bounds :
  forall mbSize : Z,
    0 < sizeofCluster ->
    (0 <= mbSize < 2 ^ 44 ->
     newClusterCount mbSize = mbSize * 2 ^ 20 / sizeofCluster
     /\ newClusterCount mbSize * sizeofCluster <= mbSize * 2 ^ 20
        < (newClusterCount mbSize + 1) * sizeofCluster)
    /\ newClusterCount (mbSize + 2 ^ 44) = newClusterCount mbSize.
Proof.
  intros mbSize Hsz.
  assert (Hwrap : forall x,
            uint64_t (uint64_t (x * 1024) * 1024) = (x * 2 ^ 20) mod 2 ^ 64).
  { intros x. unfold uint64_t. rewrite Z.mul_mod_idemp_l by lia.
    f_equal. lia. }
  unfold newClusterCount. rewrite !Hwrap. split.
  - intros Hmb. rewrite Z.mod_small by lia.
    split; [reflexivity |].
    pose proof (Z.div_mod (mbSize * 2 ^ 20) sizeofCluster ltac:(lia)) as Hdm.
    pose proof (Z.mod_pos_bound (mbSize * 2 ^ 20) sizeofCluster Hsz) as Hmod.
    lia.
  - f_equal.
    replace ((mbSize + 2 ^ 44) * 2 ^ 20) with (mbSize * 2 ^ 20 + 1 * 2 ^ 64)
      by lia.
    apply Z.mod_add. lia.
Qed.

(** [Try_Get_LockMemory_Privileges] when the privilege was asked for
    before, or large pages are not wanted: no call of the operating
    system, no message; [use_large_pages] alone is set. *)
Lemma Try_Get_cached (s : State) :
  Options_Large_Pages = false \/ got_privileges s <> -1 ->
  Try_Get_LockMemory_Privileges s =
    Ret tt (set_use_large_pages
              (if Options_Large_Pages && negb (got_privileges s =? 0)
               then 1 else 0) s).
Proof.
  intros Hc. unfold Try_Get_LockMemory_Privileges.
  unfold bind, gets, modify, ret.
  destruct Options_Large_Pages; [| reflexivity].
  destruct Hc as [Hc | Hc]; [discriminate |].
  apply Z.eqb_neq in Hc. cbn. rewrite Hc.
  destruct s as [cc t m g last lpu ulp gp bs cls tr]. cbn in *.
  destruct (gp =? 0); reflexivity.
Qed.

(** What [Try_Get_LockMemory_Privileges] leaves in the two globals. *)
Lemma Try_Get_globals (s : State) :
  exists s1,
    Try_Get_LockMemory_Privileges s = Ret tt s1
    /\ (Options_Large_Pages = true -> got_privileges s1 <> -1)
    /\ use_large_pages s1 =
         (if Options_Large_Pages && negb (got_privileges s1 =? 0)
          then 1 else 0)
    /\ (Options_Large_Pages = false \/ got_privileges s <> -1 ->
        got_privileges s1 = got_privileges s /\ trace s1 = trace s)
    /\ (Options_Large_Pages = true -> got_privileges s = -1 ->
        got_privileges s1 = 1 /\ trace s1 = trace s
        \/ got_privileges s1 = 0
           /\ trace s1 = Print NoPrivilegeForLargePages :: trace s).
Proof.
  destruct (Z.eq_dec (got_privileges s) (-1)) as [Hgp | Hgp].
  - destruct Options_Large_Pages eqn:Hopt.
    + unfold Try_Get_LockMemory_Privileges, Get_LockMemory_Privileges.
      rewrite Hopt.
      unfold bind, gets, modify, ret, emit.
      destruct s as [cc t m g last lpu ulp gp bs cls tr]. cbn in *. subst gp.
      cbn.
      destruct (if OpenProcessToken tr then _ else _); cbn;
        (eexists; split; [reflexivity |]; cbn;
         split; [intros _; discriminate |];
         split; [reflexivity |];
         split; [intros [H | H]; [discriminate | contradiction] |];
         intros _ _; auto).
    + eexists. split; [apply Try_Get_cached; left; exact Hopt |].
      rewrite Hopt.
      cbn [andb got_privileges use_large_pages trace set_use_large_pages].
      split; [discriminate |]. split; [reflexivity |].
      split; [intros _; split; reflexivity | discriminate].
  - eexists. split; [apply Try_Get_cached; right; assumption |].
    cbn [got_privileges use_large_pages trace set_use_large_pages].
    split; [intros _; assumption |]. split; [reflexivity |].
    split; [intros _; split; reflexivity | intros _ H; contradiction].
Qed.

(** The privilege is asked for once: a second call of
    [Try_Get_LockMemory_Privileges] changes nothing, calls nothing and
    prints nothing.  [use_large_pages] is 1 after a call exactly when
    large pages are wanted and the privilege was not refused. *)
Theorem Try_Get_LockMemory_Privileges_once :
  forall s : State,
    exists s1 : State,
      Try_Get_LockMemory_Privileges s = Ret tt s1
      /\ Try_Get_LockMemory_Privileges s1 = Ret tt s1
      /\ (use_large_pages s1 = 1 <->
          Options_Large_Pages = true /\ got_privileges s1 <> 0)
      /\ (use_large_pages s1 = 0 <->
          Options_Large_Pages = false \/ got_privileges s1 = 0)
      /\ (Options_Large_Pages = false \/ got_privileges s <> -1 ->
          got_privileges s1 = got_privileges s /\ trace s1 = trace s)
      /\ (Options_Large_Pages = true -> got_privileges s = -1 ->
          got_privileges s1 = 1 /\ trace s1 = trace s
          \/ got_privileges s1 = 0
             /\ trace s1 = Print NoPrivilegeForLargePages :: trace s).
Proof.
  intros s.
  destruct (Try_Get_globals s) as (s1 & HTry & Hgp & Hulp & Hsame & Hfirst).
  exists s1. split; [assumption |].
  split.
  - rewrite Try_Get_cached.
    + rewrite <- Hulp. destruct s1; reflexivity.
    + destruct Options_Large_Pages; [right; auto | left; reflexivity].
  - split; [| split; [| split; assumption]]; rewrite Hulp;
      destruct Options_Large_Pages; cbn [andb].
    + destruct (Z.eqb_spec (got_privileges s1) 0) as [H0 | Hn0]; cbn [negb].
      * split; [discriminate | intros [_ H]; contradiction].
      * split; [intros _; split; [reflexivity | assumption] | reflexivity].
    + split; [discriminate | intros [H _]; discriminate].
    + destruct (Z.eqb_spec (got_privileges s1) 0) as [H0 | Hn0]; cbn [negb].
      * split; [intros _; right; assumption | reflexivity].
      * split; [discriminate | intros [H | H]; [discriminate | contradiction]].
    + split; [intros _; left; reflexivity | reflexivity].
Qed.


Lemma resize_zero (s : State) : resize 0 s = resize (mbSize_last_used s) s.
Proof.
  destruct (Z.eqb_spec (mbSize_last_used s) 0) as [-> | Hne]; [reflexivity |].
  unfold resize. cbv beta delta [bind gets] iota zeta.
  change (0 =? 0) with true. cbv iota.
  apply Z.eqb_neq in Hne. rewrite Hne. cbv iota. rewrite Hne. reflexivity.
Qed.

Lemma resize_zero_unset (s : State) :
  mbSize_last_used s = 0 -> resize 0 s = Ret tt s.
Proof.
  intros Hlast. unfold resize, bind, gets. cbn. rewrite Hlast. reflexivity.
Qed.

(** What the allocating part of [resize] leaves in the members it does
    not allocate. *)
Lemma reallocated_globals (mbSize : Z) (s1 : State) :
  got_privileges (reallocated mbSize s1) = got_privileges s1
  /\ mbSize_last_used (reallocated mbSize s1) = mbSize_last_used s1
  /\ generation8 (reallocated mbSize s1) = generation8 s1
  /\ clusterCount (reallocated mbSize s1) = newClusterCount mbSize
  /\ (if use_large_pages s1 <? 1
      then large_pages_used (reallocated mbSize s1) = false
           /\ use_large_pages (reallocated mbSize s1) = use_large_pages s1
      else large_pages_used (reallocated mbSize s1) = true
           /\ use_large_pages (reallocated mbSize s1) = use_large_pages s1
           \/ large_pages_used (reallocated mbSize s1) = false
              /\ use_large_pages (reallocated mbSize s1) = 0).
Proof.
  unfold reallocated, released.
  destruct s1 as [cc t m g last lpu ulp gp bs cls tr].
  cbn [mem set_clusterCount use_large_pages].
  destruct (ulp <? 1).
  - unfold standard_alloc, allocated.
    destruct (m =? 0); cbn; repeat split; reflexivity.
  - unfold large_page_alloc, allocated. cbv zeta.
    destruct (m =? 0); cbn;
      match goal with |- context [?x =? 0] => destruct (x =? 0) end;
      cbn; repeat split; auto.
Qed.

(** A run of [resize] that returns: either it has returned before it
    allocates, or it has got a block and [clear] has changed the
    clusters only. *)
Lemma resize_returns_inv (mbSize : Z) (s s1 s' : State) :
  mbSize <> 0 ->
  Try_Get_LockMemory_Privileges (set_mbSize_last_used mbSize s) = Ret tt s1 ->
  resize mbSize s = Ret tt s' ->
  resize_skips mbSize s1 = true /\ s' = s1
  \/ resize_skips mbSize s1 = false
     /\ mem (reallocated mbSize s1) <> 0
     /\ set_clusters (clusters (installed (reallocated mbSize s1))) s'
        = installed (reallocated mbSize s1).
Proof.
  intros Hmb HTry Hres. rewrite (resize_unfold mbSize s s1 Hmb HTry) in Hres.
  destruct (resize_skips mbSize s1).
  - left. split; [reflexivity |]. inversion Hres. reflexivity.
  - right. split; [reflexivity |].
    destruct (Z.eqb_spec (mem (reallocated mbSize s1)) 0) as [H0 | Hn0];
      [discriminate |].
    split; [assumption |]. unfold clear in Hres.
    destruct (run_workers_inv threads (installed (reallocated mbSize s1)))
      as [(s'' & Hrun & Hframe) | Hundef].
    + rewrite Hrun in Hres. inversion Hres. subst s''. assumption.
    + rewrite Hundef in Hres. discriminate.
Qed.

(** A run of [resize] that allocates, with allocators that answer as an
    operating system does: it exits when it has got no block, and
    otherwise returns with the table put into the block and zeroed. *)
Lemma resize_allocating_run (k mbSize : Z) (s s1 : State) :
  0 <= k < 64 -> CacheLineSize = 2 ^ k ->
  0 < sizeofCluster -> 1 <= Options_Threads ->
  mbSize <> 0 ->
  newClusterCount mbSize * sizeofCluster + CacheLineSize - 1 < 2 ^ 63 ->
  allocators_ok ->
  Try_Get_LockMemory_Privileges (set_mbSize_last_used mbSize s) = Ret tt s1 ->
  resize_skips mbSize s1 = false ->
  mem (reallocated mbSize s1) = 0
  /\ resize mbSize s =
       Exit (set_trace (Print (FailedToAllocate mbSize)
                        :: trace (reallocated mbSize s1))
               (reallocated mbSize s1))
  \/ mem (reallocated mbSize s1) <> 0
     /\ table_ok (installed (reallocated mbSize s1))
     /\ resize mbSize s = Ret tt (zeroed (installed (reallocated mbSize s1))).
Proof.
  intros Hk HC Hsz HN Hmb Hlt (Hcalloc & Hmalloc & Hvirtual) HTry Hskip.
  assert (HC1 : 1 <= CacheLineSize).
  { rewrite HC. pose proof (Z.pow_pos_nonneg 2 k). lia. }
  rewrite (resize_unfold mbSize s s1 Hmb HTry), Hskip.
  destruct (newClusterCount_range mbSize Hsz) as [Hcc Hbytes].
  destruct (reallocated_facts mbSize s1 Hsz HC1 Hlt Hcalloc Hmalloc Hvirtual)
    as (Hcc4 & Hblock).
  set (s4 := reallocated mbSize s1) in *.
  destruct Hblock as [H0 | (Hmem & Hend & Hpath)].
  { left. rewrite H0. split; reflexivity. }
  right.
  destruct (Z.eqb_spec (mem s4) 0) as [H0 | Hn0]; [lia |].
  split; [assumption |].
  assert (Hsize : (large_pages_used s4 = true ->
                   mem s4 mod CacheLineSize = 0
                   /\ block_size s4 = clusterCount s4 * sizeofCluster)
                  /\ (large_pages_used s4 = false ->
                      block_size s4 = clusterCount s4 * sizeofCluster
                                      + CacheLineSize - 1)).
  { rewrite Hcc4.
    destruct Hpath as [(Hl & Hb & _) | (Hl & Hb & Hal & _)];
      rewrite Hl, Hb; split; intros Hx;
      first [discriminate | reflexivity | split; [assumption | reflexivity]]. }
  destruct Hsize as (Hlarge & Hpadded).
  assert (Hno : mem s4 + CacheLineSize - 1 < 2 ^ 64).
  { destruct (large_pages_used s4) eqn:Hl.
    - apply aligned_below_top with (k := k); auto; [lia |].
      apply Hlarge. reflexivity.
    - rewrite (Hpadded eq_refl) in Hend. lia. }
  destruct (align_up_bounds k (mem s4) Hk HC ltac:(lia) Hno)
    as (Hb & Hmod & Hid).
  assert (Hfit : align_up (mem s4) + clusterCount s4 * sizeofCluster
                 <= mem s4 + block_size s4).
  { destruct (large_pages_used s4) eqn:Hl.
    - destruct (Hlarge eq_refl) as [Hal Hbs]. rewrite (Hid Hal), Hbs. lia.
    - rewrite (Hpadded eq_refl). lia. }
  apply (clear_installed s4 HN Hsz); [rewrite Hcc4; nia | exact Hfit].
Qed.

Lemma zeroed_cluster_at (s : State) (c : nat) :
  (c < Z.to_nat (clusterCount s))%nat ->
  clusters (zeroed s) !! c = Some zero_cluster.
Proof.
  intros Hc. unfold zeroed. cbn [clusters set_clusters].
  rewrite lookup_app_l by (rewrite length_replicate; lia).
  apply lookup_replicate_2. assumption.
Qed.

(** The table a [resize] that allocates leaves, with allocators that
    answer as an operating system does: it lies in the block, has the
    number of clusters computed from the size, every entry of it is
    zero, the generation is the one before, the size is remembered, and
    no key is found in it. *)
Theorem resize_fresh_table :
  forall (k mbSize : Z) (s s' : State),
    0 <= k < 64 -> CacheLineSize = 2 ^ k ->
    0 < sizeofCluster -> 1 <= Options_Threads ->
    mbSize <> 0 ->
    newClusterCount mbSize * sizeofCluster + CacheLineSize - 1 < 2 ^ 63 ->
    allocators_ok ->
    resize mbSize s = Ret tt s' ->
    (allocations (trace s) < allocations (trace s'))%nat ->
    table_ok s'
    /\ clusterCount s' = newClusterCount mbSize
    /\ generation8 s' = generation8 s
    /\ mbSize_last_used s' = mbSize
    /\ (forall c i : nat,
          (c < Z.to_nat (clusterCount s'))%nat -> (i < ClusterSize)%nat ->
          entry_at s' c i = Some zero_entry)
    /\ (forall key : Z,
          (0 < ClusterSize)%nat ->
          (first_entry (clusterCount s') key < Z.to_nat (clusterCount s'))%nat ->
          exists s2 : State,
            probe key s'
            = Ret (false, (first_entry (clusterCount s') key, 0%nat)) s2).
Proof.
  intros k mbSize s s' Hk HC Hsz HN Hmb Hlt Halloc Hres Hgrow.
  destruct (Try_Get_LockMemory_Privileges_returns (set_mbSize_last_used mbSize s))
    as (s1 & HTry & _ & _ & _ & Hg1 & Hlast1 & _ & _ & _ & Htr & _).
  cbn [generation8 mbSize_last_used set_mbSize_last_used] in Hg1, Hlast1.
  destruct (resize_skips mbSize s1) eqn:Hskip.
  { exfalso. rewrite (resize_unfold mbSize s s1 Hmb HTry), Hskip in Hres.
    inversion Hres. subst s'.
    pose proof (allocations_Try_Get (set_mbSize_last_used mbSize s) s1 Htr)
      as Heq.
    cbn -[allocations] in Heq. lia. }
  destruct (resize_allocating_run k mbSize s s1 Hk HC Hsz HN Hmb Hlt Halloc
              HTry Hskip) as [[_ Hexit] | (_ & Hok & Hret)].
  { rewrite Hexit in Hres. discriminate. }
  rewrite Hret in Hres. inversion Hres as [Hs']. clear Hres.
  destruct (reallocated_globals mbSize s1) as (_ & Hlast4 & Hg4 & Hcc4 & _).
  set (s5 := installed (reallocated mbSize s1)) in *.
  assert (Hcc5 : clusterCount (zeroed s5) = newClusterCount mbSize)
    by exact Hcc4.
  split; [apply zeroed_table_ok; exact Hok |].
  split; [exact Hcc5 |].
  split; [etransitivity; [exact Hg4 | exact Hg1] |].
  split; [etransitivity; [exact Hlast4 | exact Hlast1] |].
  split.
  - intros c i Hc Hi.
    rewrite (entry_at_cluster _ _ _ _ (zeroed_cluster_at s5 c Hc)).
    apply lookup_replicate_2. assumption.
  - intros key Hpos Hin. eexists.
    apply probe_zero_cluster; [| assumption].
    apply zeroed_cluster_at. exact Hin.
Qed.


Lemma set_globals_same (s : State) (mbSize u : Z) :
  mbSize_last_used s = mbSize -> use_large_pages s = u ->
  set_use_large_pages u (set_mbSize_last_used mbSize s) = s.
Proof. destruct s. cbn. intros -> ->. reflexivity. Qed.

(** [resize] with a size that is not 0 on a state it has left itself,
    when the last run has not fallen back from large pages. *)
Lemma resize_settles_nonzero (mbSize : Z) (s s' : State) :
  mbSize <> 0 ->
  resize mbSize s = Ret tt s' ->
  Options_Large_Pages = false \/ got_privileges s' = 0
    \/ large_pages_used s' = true ->
  resize mbSize s' = Ret tt s' /\ mbSize_last_used s' = mbSize.
Proof.
  intros Hmb Hres Hcond.
  destruct (Try_Get_globals (set_mbSize_last_used mbSize s))
    as (s1 & HTry & Hgp & Hulp & _ & _).
  destruct (Try_Get_LockMemory_Privileges_returns
              (set_mbSize_last_used mbSize s))
    as (s1' & HTry' & _ & _ & _ & _ & Hlast & _).
  rewrite HTry in HTry'. inversion HTry'. subst s1'. clear HTry'.
  cbn [mbSize_last_used set_mbSize_last_used] in Hlast.
  (* the globals in s' and the test of the second run *)
  assert (Hs' : got_privileges s' = got_privileges s1
                /\ mbSize_last_used s' = mbSize
                /\ use_large_pages s' = use_large_pages s1
                /\ resize_skips mbSize s' = true).
  { destruct (resize_returns_inv mbSize s s1 s' Hmb HTry Hres)
      as [(Hskip & ->) | (Hskip & Hmem & Hframe)].
    - repeat split; assumption.
    - destruct (reallocated_globals mbSize s1)
        as (Hgp4 & Hlast4 & _ & Hcc4 & Hpages).
      set (X := installed (reallocated mbSize s1)) in *.
      assert (Hgp' : got_privileges s' = got_privileges s1).
      { rewrite <- Hgp4. change (got_privileges s' = got_privileges X).
        rewrite <- Hframe. reflexivity. }
      assert (Hlast' : mbSize_last_used s' = mbSize).
      { rewrite <- Hlast, <- Hlast4.
        change (mbSize_last_used s' = mbSize_last_used X).
        rewrite <- Hframe. reflexivity. }
      assert (Hcc' : clusterCount s' = newClusterCount mbSize).
      { rewrite <- Hcc4. change (clusterCount s' = clusterCount X).
        rewrite <- Hframe. reflexivity. }
      assert (Hlpu' : large_pages_used s'
                      = large_pages_used (reallocated mbSize s1)).
      { change (large_pages_used s' = large_pages_used X).
        rewrite <- Hframe. reflexivity. }
      assert (Hulp' : use_large_pages s'
                      = use_large_pages (reallocated mbSize s1)).
      { change (use_large_pages s' = use_large_pages X).
        rewrite <- Hframe. reflexivity. }
      split; [assumption |]. split; [assumption |].
      unfold resize_skips. rewrite Hcc', Z.eqb_refl, Hlpu', Hulp'.
      rewrite Hlpu', Hgp' in Hcond.
      destruct (use_large_pages s1 <? 1) eqn:Hlt.
      + destruct Hpages as [-> ->].
        split; [reflexivity |].
        assert (H0 : use_large_pages s1 = 0).
        { rewrite Hulp in Hlt |- *.
          destruct (Options_Large_Pages && negb (got_privileges s1 =? 0));
            [discriminate | reflexivity]. }
        rewrite H0. reflexivity.
      + assert (H1 : use_large_pages s1 = 1
                     /\ Options_Large_Pages = true
                     /\ got_privileges s1 <> 0).
        { rewrite Hulp in Hlt |- *.
          destruct Options_Large_Pages; cbn [andb] in *; [| discriminate].
          destruct (Z.eqb_spec (got_privileges s1) 0); cbn [negb] in *;
            [discriminate |].
          repeat split; assumption. }
        destruct H1 as (H1 & Hopt & Hne).
        destruct Hpages as [[-> ->] | [Hl _]].
        * split; [reflexivity |]. rewrite H1. reflexivity.
        * exfalso. destruct Hcond as [Hc | [Hc | Hc]]; congruence. }
  destruct Hs' as (Hgp' & Hlast' & Hulp' & Hskip').
  split; [| assumption].
  assert (HTry2 : Try_Get_LockMemory_Privileges
                    (set_mbSize_last_used mbSize s') = Ret tt s').
  { rewrite Try_Get_cached.
    - f_equal. apply set_globals_same; [assumption |].
      cbn [got_privileges set_mbSize_last_used].
      rewrite Hulp', Hgp'. assumption.
    - cbn [got_privileges set_mbSize_last_used]. rewrite Hgp'.
      destruct Options_Large_Pages; [right; auto | left; reflexivity]. }
  rewrite (resize_unfold mbSize s' s' Hmb HTry2), Hskip'. reflexivity.
Qed.

(** [resize] settles: after a [resize] that has returned, and has not
    fallen back from large pages to [malloc], a second [resize] with
    the same size, and [resize(0)], return at once: they leave every
    member, the table and the list of calls as they are. *)
Theorem resize_settles :
  forall (mbSize : Z) (s s' : State),
    resize mbSize s = Ret tt s' ->
    Options_Large_Pages = false \/ got_privileges s' = 0
      \/ large_pages_used s' = true ->
    resize mbSize s' = Ret tt s' /\ resize 0 s' = Ret tt s'.
Proof.
  intros mbSize s s' Hres Hcond.
  destruct (Z.eq_dec mbSize 0) as [-> | Hmb].
  - assert (H0 : resize 0 s' = Ret tt s'); [| split; exact H0].
    destruct (Z.eq_dec (mbSize_last_used s) 0) as [Hlast | Hlast].
    + rewrite (resize_zero_unset s Hlast) in Hres. inversion Hres. subst s'.
      apply resize_zero_unset. assumption.
    + rewrite resize_zero in Hres.
      destruct (resize_settles_nonzero _ s s' Hlast Hres Hcond) as [H2 Hl].
      rewrite resize_zero, Hl. assumption.
  - destruct (resize_settles_nonzero mbSize s s' Hmb Hres Hcond) as [H2 Hl].
    split; [assumption |]. rewrite resize_zero, Hl. assumption.
Qed.

(** A run of [resize] that does not return before it allocates has
    called an allocator, whether it returns or exits. *)
Lemma resize_allocates (mbSize : Z) (s s1 s' : State) :
  mbSize <> 0 ->
  Try_Get_LockMemory_Privileges (set_mbSize_last_used mbSize s) = Ret tt s1 ->
  resize_skips mbSize s1 = false ->
  resize mbSize s = Ret tt s' \/ resize mbSize s = Exit s' ->
  (allocations (trace s1) < allocations (trace s'))%nat
  /\ (trace s' = trace (reallocated mbSize s1)
      \/ trace s' = Print (FailedToAllocate mbSize)
                    :: trace (reallocated mbSize s1)).
Proof.
  intros Hmb HTry Hskip Hres.
  rewrite (resize_unfold mbSize s s1 Hmb HTry), Hskip in Hres.
  pose proof (allocations_reallocated mbSize s1) as Hal.
  destruct (mem (reallocated mbSize s1) =? 0).
  - destruct Hres as [Hres | Hres]; [discriminate |].
    inversion Hres. subst s'. cbn -[allocations].
    rewrite allocations_cons. cbn -[allocations].
    split; [lia | right; reflexivity].
  - unfold clear in Hres.
    destruct (run_workers_inv threads (installed (reallocated mbSize s1)))
      as [(s'' & Hrun & Hframe) | Hundef].
    + rewrite Hrun in Hres.
      destruct Hres as [Hres | Hres]; [| discriminate].
      inversion Hres. subst s''.
      assert (Htrace : trace s' = trace (reallocated mbSize s1)).
      { change (trace (reallocated mbSize s1))
          with (trace (installed (reallocated mbSize s1))).
        rewrite <- Hframe. reflexivity. }
      rewrite Htrace. split; [lia | left; reflexivity].
    + rewrite Hundef in Hres. destruct Hres; discriminate.
Qed.

(** [resize] on a state in which large pages are wanted and the
    privilege is held, but the table is not in large pages: it does not
    return before it allocates, whatever the size. *)
Lemma resize_retries_large_pages (mbSize : Z) (s s' : State) :
  mbSize <> 0 ->
  Options_Large_Pages = true ->
  got_privileges s <> 0 -> got_privileges s <> -1 ->
  large_pages_used s = false ->
  resize mbSize s = Ret tt s' \/ resize mbSize s = Exit s' ->
  (allocations (trace s) < allocations (trace s'))%nat.
Proof.
  intros Hmb Hopt Hgp0 Hgp1 Hlpu Hres.
  assert (HTry : Try_Get_LockMemory_Privileges (set_mbSize_last_used mbSize s)
                 = Ret tt (set_use_large_pages 1
                             (set_mbSize_last_used mbSize s))).
  { rewrite Try_Get_cached by (right; exact Hgp1).
    cbn [got_privileges set_mbSize_last_used]. rewrite Hopt.
    apply Z.eqb_neq in Hgp0. rewrite Hgp0. reflexivity. }
  apply (resize_allocates mbSize s _ s' Hmb HTry); [| assumption].
  unfold resize_skips.
  cbn [use_large_pages large_pages_used set_use_large_pages
       set_mbSize_last_used].
  rewrite Hlpu. cbn. apply andb_false_r.
Qed.

(** After a fall back from large pages no [resize] is a no-op: when a
    [resize] that has allocated leaves the table outside large pages
    although large pages are wanted and the privilege is held
    ([VirtualAlloc] has failed and [malloc] has given the block), every
    later [resize], also one with the size the table has, releases the
    block and allocates again. *)
Theorem resize_after_fallback :
  forall (mbSize mbSize2 : Z) (s s' s'' : State),
    resize mbSize s = Ret tt s' ->
    (allocations (trace s) < allocations (trace s'))%nat ->
    Options_Large_Pages = true ->
    got_privileges s' <> 0 ->
    large_pages_used s' = false ->
    mbSize2 <> 0 ->
    resize mbSize2 s' = Ret tt s'' \/ resize mbSize2 s' = Exit s'' ->
    (allocations (trace s') < allocations (trace s''))%nat.
Proof.
  intros mbSize mbSize2 s s' s'' Hres Hgrow Hopt Hgp0 Hlpu Hmb2 Hres2.
  apply (resize_retries_large_pages mbSize2 s' s''); try assumption.
  (* the first run has asked for the privilege *)
  assert (Hrun : exists mb, mb <> 0 /\ resize mb s = Ret tt s').
  { destruct (Z.eq_dec mbSize 0) as [-> | Hmb]; [| eauto].
    destruct (Z.eq_dec (mbSize_last_used s) 0) as [Hlast | Hlast].
    - rewrite (resize_zero_unset s Hlast) in Hres. inversion Hres. subst s'.
      lia.
    - rewrite resize_zero in Hres. eauto. }
  destruct Hrun as (mb & Hmb & Hres').
  destruct (Try_Get_globals (set_mbSize_last_used mb s))
    as (s1 & HTry & Hgp & _).
  destruct (resize_returns_inv mb s s1 s' Hmb HTry Hres')
    as [(_ & ->) | (_ & _ & Hframe)].
  - apply Hgp. assumption.
  - destruct (reallocated_globals mb s1) as (Hgp4 & _).
    assert (Hgp' : got_privileges s' = got_privileges s1).
    { rewrite <- Hgp4.
      change (got_privileges s'
              = got_privileges (installed (reallocated mb s1))).
      rewrite <- Hframe. reflexivity. }
    rewrite Hgp'. apply Hgp. assumption.
Qed.

Lemma release_events_no_allocation (s : State) :
  Forall (fun ev => is_release ev = true /\ is_allocation ev = false)
         (release_events s).
Proof.
  unfold release_events. destruct (mem s =? 0); [constructor |].
  constructor; [| constructor]. destruct (large_pages_used s); auto.
Qed.

(** The calls of the allocating part of [resize]: the release of the old
    block first, then what the allocators are asked. *)
Lemma reallocated_trace (mbSize : Z) (s1 : State) :
  exists post,
    trace (reallocated mbSize s1) = post ++ release_events s1 ++ trace s1
    /\ Forall (fun ev => is_release ev = false) post.
Proof.
  unfold reallocated, released, release_events.
  destruct s1 as [cc t m g last lpu ulp gp bs cls tr].
  cbn [mem set_clusterCount use_large_pages large_pages_used trace].
  destruct (ulp <? 1).
  - unfold standard_alloc, allocated.
    destruct (m =? 0); cbn;
      (eexists [_]; split; [reflexivity | repeat constructor]).
  - unfold large_page_alloc, allocated. cbv zeta.
    destruct (m =? 0); cbn;
      match goal with |- context [?x =? 0] => destruct (x =? 0) end;
      cbn;
      first [ eexists [_; _]; split; [reflexivity | repeat constructor]
            | eexists [_; _; _]; split; [reflexivity | repeat constructor] ].
Qed.

(** The old block is given back once, before the new one is asked for,
    and by the call that matches it: in a [resize] that allocates, the
    calls made are, in this order, at most a message, then
    [VirtualFree] of the old block when it was in large pages, [free]
    of it when it was not, and nothing when there was no block, and
    then the calls of the allocators and their messages, with no
    further release among them. *)
Theorem resize_release_order :
  forall (mbSize : Z) (s s' : State),
    mbSize <> 0 ->
    resize mbSize s = Ret tt s' \/ resize mbSize s = Exit s' ->
    (allocations (trace s) < allocations (trace s'))%nat ->
    exists post pre : list Event,
      trace s' = post ++ release_events s ++ pre ++ trace s
      /\ Forall (fun ev => is_release ev = false) post
      /\ Forall (fun ev => is_release ev = false /\ is_allocation ev = false)
                pre
      /\ (0 < allocations post)%nat.
Proof.
  intros mbSize s s' Hmb Hres Hgrow.
  destruct (Try_Get_LockMemory_Privileges_returns (set_mbSize_last_used mbSize s))
    as (s1 & HTry & _ & _ & Hmem & _ & _ & Hlpu & _ & _ & Htr & _).
  cbn [mem large_pages_used trace set_mbSize_last_used] in Hmem, Hlpu, Htr.
  pose proof (allocations_Try_Get (set_mbSize_last_used mbSize s) s1 Htr)
    as Heq.
  cbn -[allocations] in Heq.
  destruct (resize_skips mbSize s1) eqn:Hskip.
  { exfalso. rewrite (resize_unfold mbSize s s1 Hmb HTry), Hskip in Hres.
    destruct Hres as [Hres | Hres]; [| discriminate].
    inversion Hres. subst s'. lia. }
  destruct (resize_allocates mbSize s s1 s' Hmb HTry Hskip Hres)
    as [Hal Htrace].
  destruct (reallocated_trace mbSize s1) as (post & Hpost & Hnorel).
  assert (Hrel : release_events s1 = release_events s).
  { unfold release_events. rewrite Hmem, Hlpu. reflexivity. }
  rewrite Hrel in Hpost.
  assert (Hpre : exists pre, trace s1 = pre ++ trace s
                   /\ Forall (fun ev => is_release ev = false
                                        /\ is_allocation ev = false) pre).
  { destruct Htr as [-> | ->].
    - exists []. split; [reflexivity | constructor].
    - exists [Print NoPrivilegeForLargePages].
      split; [reflexivity | repeat constructor]. }
  destruct Hpre as (pre & Hpre & Hquiet).
  rewrite Hpre in Hpost.
  assert (Hcount : forall tr : list Event,
            tr = post ++ release_events s ++ pre ++ trace s ->
            (allocations tr = allocations post + allocations (trace s))%nat).
  { intros tr ->. unfold allocations.
    rewrite !List.filter_app, !length_app.
    assert (H0 : forall l : list Event,
              Forall (fun ev => is_allocation ev = false) l ->
              length (List.filter is_allocation l) = 0%nat).
    { induction 1 as [| ev l Hev _ IH]; [reflexivity |].
      cbn [List.filter]. rewrite Hev. assumption. }
    rewrite (H0 (release_events s)), (H0 pre); [lia | |].
    - eapply Forall_impl; [| exact Hquiet]. cbn. intros ev [_ H]. exact H.
    - eapply Forall_impl; [| apply release_events_no_allocation].
      cbn. intros ev [_ H]. exact H. }
  destruct Htrace as [Ht | Ht].
  - exists post, pre. rewrite Ht. split; [assumption |].
    split; [assumption |]. split; [assumption |].
    pose proof (Hcount _ Hpost) as Hc. rewrite <- Ht in Hc. lia.
  - exists (Print (FailedToAllocate mbSize) :: post), pre.
    rewrite Ht, Hpost. split; [reflexivity |].
    split; [constructor; [reflexivity | assumption] |].
    split; [assumption |].
    pose proof (Hcount _ Hpost) as Hc.
    rewrite allocations_cons. cbn [is_allocation].
    rewrite Ht, allocations_cons in Hgrow. cbn [is_allocation] in Hgrow.
    lia.
Qed.


(** ** The zero entries at the generation 0 *)

(** At the generation 0 every entry of a zeroed cluster has the current
    generation in its [genBound8]. *)
Lemma current_entries_zero_all (n : nat) :
  length (current_entries 0 (replicate n zero_cluster)) = (n * ClusterSize)%nat.
Proof.
  unfold current_entries.
  assert (Hlen : length (concat (replicate n zero_cluster))
                 = (n * ClusterSize)%nat).
  { rewrite (length_concat_uniform ClusterSize), length_replicate;
      [reflexivity |].
    apply Forall_forall. intros cl Hin.
    apply list_elem_of_In, elem_of_replicate in Hin. destruct Hin as [-> _].
    apply length_replicate. }
  rewrite <- Hlen. apply filter_length_all.
  apply Forall_forall. intros e Hin.
  apply in_concat in Hin. destruct Hin as (cl & Hcl & He).
  apply list_elem_of_In, elem_of_replicate in Hcl. destruct Hcl as [-> _].
  apply list_elem_of_In, elem_of_replicate in He. destruct He as [-> _].
  reflexivity.
Qed.

(** [clear] and then [hashfull] at the generation 0: every entry of the
    table is zero, and [hashfull] returns 1000. *)
Lemma clear_then_hashfull_generation_0 (s : State) :
  1 <= Options_Threads ->
  table_ok s ->
  (0 < ClusterSize)%nat ->
  1000 <= clusterCount s ->
  generation8 s = 0 ->
  exists s' : State,
    clear s = Ret tt s'
    /\ generation8 s' = 0
    /\ (forall c i : nat,
          (c < Z.to_nat (clusterCount s))%nat -> (i < ClusterSize)%nat ->
          entry_at s' c i = Some zero_entry)
    /\ hashfull s' = Ret 1000 s'.
Proof.
  intros HN Hok Hpos H1000 Hg. pose proof Hok as (Hcc & Hlen & Hwf).
  exists (zeroed s).
  split; [unfold clear; apply run_workers_all;
          [assumption .. | reflexivity] |].
  split; [exact Hg |]. split.
  - intros c i Hc Hi.
    rewrite (entry_at_cluster _ _ _ _ (zeroed_cluster_at s c Hc)).
    apply lookup_replicate_2. assumption.
  - rewrite hashfull_value; [| apply zeroed_table_ok; assumption | assumption].
    unfold zeroed. cbn [clusters generation8 set_clusters].
    rewrite Hg, take_app_le by (rewrite length_replicate; lia).
    rewrite take_replicate, current_entries_zero_all.
    replace (Init.Nat.min 1000 (Z.to_nat (clusterCount s))) with 1000%nat
      by lia.
    f_equal. rewrite Nat2Z.inj_mul.
    apply Z.div_mul. lia.
Qed.

End TT.

(** ** The theorems at sample inputs

    The constants are given sample values: [DEPTH_OFFSET = -6],
    [BOUND_EXACT = 3], [ClusterSize = 3], [CacheLineSize = 64] and
    [sizeof(Cluster) = 32]; every key is mapped to cluster 0. *)

Lemma entry_age_cyclic_witness :
  entry_age 8 (248 + 3) = (8 - 248) mod 256
  /\ entry_age 8 (248 + 3) = entry_age 8 248
  /\ entry_age 0 (248 + 3) = 8.
Proof.
  apply (entry_age_cyclic 8 248 3); try lia; reflexivity.
Defined.

(** C2 as stated fails: the stored entry has the tag of the key and the
    depth 10; a call with the same depth 10 and an upper bound meets none
    of (a), (b) as stated (the new depth is not 4 plies or more above the
    stored one) and (c), and yet value, eval and the rest are
    overwritten. *)
Lemma save_overwrite_margin_counterexample :
  Z.shiftr (2 ^ 48) 48 = key16 (mkTTEntry 1 77 100 50 9 16)
  /\ depth (-6) (mkTTEntry 1 77 100 50 9 16) = 10
  /\ ~ (10 >= depth (-6) (mkTTEntry 1 77 100 50 9 16) + 4)
  /\ 1 <> 3
  /\ save (-6) 3 8 (mkTTEntry 1 77 100 50 9 16) (2 ^ 48) 200 false 1 10 0 60
     = Some (mkTTEntry 1 77 200 60 9 16)
  /\ value16 (mkTTEntry 1 77 200 60 9 16) <> value16 (mkTTEntry 1 77 100 50 9 16)
  /\ eval16 (mkTTEntry 1 77 200 60 9 16) <> eval16 (mkTTEntry 1 77 100 50 9 16).
Proof.
  repeat split; try reflexivity; vm_compute; congruence.
Qed.

Lemma save_overwrite_policy_witness :
  (exists e',
     save (-6) 3 8 (mkTTEntry 1 77 100 50 9 16) (2 ^ 48) 200 false 1 10 0 60
       = Some e'
     /\ key16 e' = uint16_t (Z.shiftr (2 ^ 48) 48)
     /\ value16 e' = int16_t 200
     /\ eval16 e' = int16_t 60
     /\ genBound8 e' = uint8_t (Z.lor (Z.lor 8 (Z.shiftl (bool_to_Z false) 2)) 1)
     /\ depth8 e' = uint8_t (10 - -6))
  /\ (exists e',
        save (-6) 3 8 (mkTTEntry 1 77 100 50 9 16) (2 ^ 48) 200 false 1 6 0 60
          = Some e'
        /\ key16 e' = 1 /\ value16 e' = 100 /\ eval16 e' = 50
        /\ genBound8 e' = 9 /\ depth8 e' = 16).
Proof.
  split.
  - apply (proj1 (save_overwrite_policy (-6) 3 8 (mkTTEntry 1 77 100 50 9 16)
                    (2 ^ 48) 200 false 1 10 0 60)).
    + right. left. vm_compute. reflexivity.
    + lia.
  - apply (proj2 (save_overwrite_policy (-6) 3 8 (mkTTEntry 1 77 100 50 9 16)
                    (2 ^ 48) 200 false 1 6 0 60)).
    intros [H | [H | H]]; vm_compute in H; congruence.
Defined.

(** C5 as stated fails when the margin is read as the spec words it (a
    new depth less than 4 plies above the stored one): the second call
    for the same key, 3 plies deeper, with a null move and an upper
    bound, keeps the stored move 77 but overwrites value, eval and
    depth. *)
Lemma save_insufficient_margin_counterexample :
  Z.shiftr (2 ^ 48) 48 = key16 (mkTTEntry 1 77 100 50 9 16)
  /\ depth (-6) (mkTTEntry 1 77 100 50 9 16) = 10
  /\ 13 - depth (-6) (mkTTEntry 1 77 100 50 9 16) <= 3
  /\ 1 <> 3
  /\ save (-6) 3 8 (mkTTEntry 1 77 100 50 9 16) (2 ^ 48) 200 false 1 13 0 60
     = Some (mkTTEntry 1 77 200 60 9 19)
  /\ mkTTEntry 1 77 200 60 9 19 <> mkTTEntry 1 77 100 50 9 16.
Proof.
  repeat split; try reflexivity; vm_compute; congruence.
Qed.

Lemma save_move_preservation_witness :
  save (-6) 3 8 (mkTTEntry 1 77 100 50 9 16) (2 ^ 48) 200 false 1 6 0 60
    = Some (mkTTEntry 1 77 100 50 9 16)
  /\ (exists e',
        save (-6) 3 8 (mkTTEntry 1 77 100 50 9 16) (2 ^ 48) 200 false 1 13 0 60
          = Some e'
        /\ move16 e' = 77)
  /\ (exists e',
        save (-6) 3 8 (mkTTEntry 1 77 100 50 9 16) (2 ^ 48) 200 false 1 6 88 60
          = Some e'
        /\ move16 e' = uint16_t 88).
Proof.
  split; [| split].
  - apply (proj1 (save_move_preservation (-6) 3 8 (mkTTEntry 1 77 100 50 9 16)
                    (2 ^ 48) 200 false 1 6 0 60)).
    + reflexivity.
    + reflexivity.
    + lia.
    + vm_compute. congruence.
  - apply (proj1 (proj2 (save_move_preservation (-6) 3 8
                           (mkTTEntry 1 77 100 50 9 16)
                           (2 ^ 48) 200 false 1 13 0 60))).
    + reflexivity.
    + reflexivity.
    + lia.
  - apply (proj2 (proj2 (save_move_preservation (-6) 3 8
                           (mkTTEntry 1 77 100 50 9 16)
                           (2 ^ 48) 200 false 1 6 88 60))).
    + left. lia.
    + lia.
Defined.

(** Two clusters full of other positions, at the generation 8.  In the
    first the entry of depth8 12 is two generations old (age term 16,
    valuation 12 - 16 = -4) and is returned before the entries of depth8
    11 and 13 of the current generation: the age decides, not the depth.
    In the second the depths are 6, 5 and 7, all of the current
    generation: [probe] returns the entry of depth 5. *)
Lemma probe_replaces_least_valuable_witness :
  probe 3 (fun _ _ => 0%nat) (9 * 2 ^ 48)
    (sample_table 8 [[sample_entry 1 12 248; sample_entry 2 11 9;
                      sample_entry 3 13 10]])
  = Ret (false, (0%nat, 0%nat))
      (sample_table 8 [[sample_entry 1 12 248; sample_entry 2 11 9;
                        sample_entry 3 13 10]])
  /\ probe 3 (fun _ _ => 0%nat) (9 * 2 ^ 48)
       (sample_table 8 [[sample_entry 1 12 8; sample_entry 2 11 9;
                         sample_entry 3 13 10]])
     = Ret (false, (0%nat, 1%nat))
         (sample_table 8 [[sample_entry 1 12 8; sample_entry 2 11 9;
                           sample_entry 3 13 10]])
  /\ depth (-6) (sample_entry 2 11 9) = 5.
Proof.
  split; [| split; [| reflexivity]].
  - destruct (probe_replaces_least_valuable (-6) 3 (fun _ _ => 0%nat)
                (sample_table 8 [[sample_entry 1 12 248; sample_entry 2 11 9;
                                  sample_entry 3 13 10]])
                (9 * 2 ^ 48)
                [sample_entry 1 12 248; sample_entry 2 11 9;
                 sample_entry 3 13 10])
      as (r & er & Hp & Hr & Hmin & _).
    + reflexivity.
    + reflexivity.
    + lia.
    + repeat constructor; vm_compute; congruence.
    + destruct (Hmin 0%nat (sample_entry 1 12 248) eq_refl) as [Hle _].
      destruct r as [| [| [| r]]]; [exact Hp | | | discriminate Hr];
        inversion Hr; subst er; exfalso; vm_compute in Hle;
        apply Hle; reflexivity.
  - destruct (probe_replaces_least_valuable (-6) 3 (fun _ _ => 0%nat)
                (sample_table 8 [[sample_entry 1 12 8; sample_entry 2 11 9;
                                  sample_entry 3 13 10]])
                (9 * 2 ^ 48)
                [sample_entry 1 12 8; sample_entry 2 11 9; sample_entry 3 13 10])
      as (r & er & Hp & Hr & _ & _ & H567).
    + reflexivity.
    + reflexivity.
    + lia.
    + repeat constructor; vm_compute; congruence.
    + assert (H5 : depth (-6) er = 5).
      { apply H567.
        - repeat constructor; vm_compute; congruence.
        - apply perm_swap. }
      destruct r as [| [| [| r]]]; [| exact Hp | | discriminate Hr];
        inversion Hr; subst er; vm_compute in H5; discriminate H5.
Defined.

(** The key with the tag 2 in a cluster whose second entry has this tag:
    the entry is returned with [found = true] and refreshed from the
    generation 0 to the generation 8, its flags 1 kept. *)
Lemma probe_first_empty_or_match_witness :
  exists (s' : State) (e' : TTEntry),
    probe 3 (fun _ _ => 0%nat) (2 * 2 ^ 48)
      (sample_table 8 [[sample_entry 1 12 8; sample_entry 2 11 1;
                        sample_entry 0 0 0]])
    = Ret (negb (key16 (sample_entry 2 11 1) =? 0), (0%nat, 1%nat)) s'
    /\ entry_at s' 0 1 = Some e'
    /\ e' = set_genBound8
              (uint8_t (Z.lor 8 (Z.land (genBound8 (sample_entry 2 11 1)) 7)))
              (sample_entry 2 11 1)
    /\ (0 <= 8 < 256 -> 8 mod 8 = 0 ->
        Z.land (genBound8 e') 248 = 8
        /\ Z.land (genBound8 e') 7 = Z.land (genBound8 (sample_entry 2 11 1)) 7).
Proof.
  apply (probe_first_empty_or_match 3 (fun _ _ => 0%nat)
           (sample_table 8 [[sample_entry 1 12 8; sample_entry 2 11 1;
                             sample_entry 0 0 0]])
           (2 * 2 ^ 48)
           [sample_entry 1 12 8; sample_entry 2 11 1; sample_entry 0 0 0]
           1%nat (sample_entry 2 11 1)).
  - reflexivity.
  - reflexivity.
  - reflexivity.
  - right. reflexivity.
  - intros j' e' Hlt He'. destruct j' as [| j']; [| lia].
    inversion He'. subst e'. vm_compute. split; congruence.
Defined.

(** C10 as stated fails for a slot outside the first 1000 clusters: in
    a table of 1001 clusters at the generation 8, whose first 1000
    clusters hold entries of the generation 0, the key is mapped to the
    cluster 1000, which is empty.  [probe] returns its first slot with
    [found = false] and stamps it with the generation 8; the slot has
    [key16 = 0] and the current generation, and [hashfull], which looks
    at the clusters 0 to 999 only, returns 0 before and after: the slot
    is not counted. *)
Lemma probe_stamp_outside_first_1000_counterexample :
  probe 3 (fun _ _ => 1000%nat) (9 * 2 ^ 48)
    (sample_table 8 (replicate 1000 (replicate 3 (sample_entry 1 12 1))
                     ++ [[sample_entry 0 0 0; sample_entry 0 0 0;
                          sample_entry 0 0 0]]))
  = Ret (false, (1000%nat, 0%nat))
      (sample_table 8 (replicate 1000 (replicate 3 (sample_entry 1 12 1))
                       ++ [[sample_entry 0 0 8; sample_entry 0 0 0;
                            sample_entry 0 0 0]]))
  /\ key16 (sample_entry 0 0 8) = 0
  /\ Z.land (genBound8 (sample_entry 0 0 8)) 248 = 8
  /\ hashfull 3
       (sample_table 8 (replicate 1000 (replicate 3 (sample_entry 1 12 1))
                        ++ [[sample_entry 0 0 0; sample_entry 0 0 0;
                             sample_entry 0 0 0]]))
     = Ret 0
         (sample_table 8 (replicate 1000 (replicate 3 (sample_entry 1 12 1))
                          ++ [[sample_entry 0 0 0; sample_entry 0 0 0;
                               sample_entry 0 0 0]]))
  /\ hashfull 3
       (sample_table 8 (replicate 1000 (replicate 3 (sample_entry 1 12 1))
                        ++ [[sample_entry 0 0 8; sample_entry 0 0 0;
                             sample_entry 0 0 0]]))
     = Ret 0
         (sample_table 8 (replicate 1000 (replicate 3 (sample_entry 1 12 1))
                          ++ [[sample_entry 0 0 8; sample_entry 0 0 0;
                               sample_entry 0 0 0]]))
  /\ ~ In (sample_entry 0 0 8)
         (current_entries 8
            (take 1000
               (replicate 1000 (replicate 3 (sample_entry 1 12 1))
                ++ [[sample_entry 0 0 8; sample_entry 0 0 0;
                     sample_entry 0 0 0]]))).
Proof.
  split; [vm_compute; reflexivity |].
  split; [reflexivity |]. split; [reflexivity |].
  split; [vm_compute; reflexivity |].
  split; [vm_compute; reflexivity |].
  vm_compute. intros H. exact H.
Qed.

(** A table of 1000 clusters at the generation 8, each with an entry of
    another position and two empty slots; the key is mapped to the
    cluster 0, whose second slot is returned. *)
Lemma probe_frame_witness :
  exists (found : bool) (i : nat) (s' : State) (e e' : TTEntry),
    probe 3 (fun _ _ => 0%nat) (9 * 2 ^ 48)
      (sample_table 8 (replicate 1000 [sample_entry 1 12 8; sample_entry 0 0 0;
                                     sample_entry 0 0 0]))
    = Ret (found, (0%nat, i)) s'
    /\ set_clusters (clusters (sample_table 8 (replicate 1000 [sample_entry 1 12 8; sample_entry 0 0 0;
                                     sample_entry 0 0 0]))) s' = (sample_table 8 (replicate 1000 [sample_entry 1 12 8; sample_entry 0 0 0;
                                     sample_entry 0 0 0]))
    /\ (forall c' i', (c', i') <> (0%nat, i) ->
          entry_at s' c' i' = entry_at (sample_table 8 (replicate 1000 [sample_entry 1 12 8; sample_entry 0 0 0;
                                     sample_entry 0 0 0])) c' i')
    /\ entry_at (sample_table 8 (replicate 1000 [sample_entry 1 12 8; sample_entry 0 0 0;
                                     sample_entry 0 0 0])) 0 i = Some e
    /\ entry_at s' 0 i = Some e'
    /\ key16 e' = key16 e /\ move16 e' = move16 e /\ value16 e' = value16 e
    /\ eval16 e' = eval16 e /\ depth8 e' = depth8 e
    /\ (Forall (fun x => key16 x <> 0
                         /\ key16 x <> uint16_t (Z.shiftr (9 * 2 ^ 48) 48))
          [sample_entry 1 12 8; sample_entry 0 0 0; sample_entry 0 0 0] ->
        s' = (sample_table 8 (replicate 1000 [sample_entry 1 12 8; sample_entry 0 0 0;
                                     sample_entry 0 0 0])))
    /\ (key16 e = 0 -> 0 <= 8 < 256 -> 8 mod 8 = 0 ->
        found = false /\ key16 e' = 0
        /\ Z.land (genBound8 e') 248 = generation8 s'
        /\ ((0 < 1000)%nat ->
            In e' (current_entries (generation8 s') (take 1000 (clusters s'))))
        /\ ((1000 <= 0)%nat ->
            take 1000 (clusters s') = take 1000 (clusters (sample_table 8 (replicate 1000 [sample_entry 1 12 8; sample_entry 0 0 0;
                                     sample_entry 0 0 0])))))
    /\ (table_ok 3 (sample_table 8 (replicate 1000 [sample_entry 1 12 8; sample_entry 0 0 0;
                                     sample_entry 0 0 0])) -> 1000 <= clusterCount (sample_table 8 (replicate 1000 [sample_entry 1 12 8; sample_entry 0 0 0;
                                     sample_entry 0 0 0])) ->
        hashfull 3 s'
        = Ret (Z.of_nat (length (current_entries (generation8 s')
                                   (take 1000 (clusters s'))))
               / Z.of_nat 3) s').
Proof.
  apply (probe_frame 3 (fun _ _ => 0%nat)
           (sample_table 8 (replicate 1000 [sample_entry 1 12 8; sample_entry 0 0 0;
                                     sample_entry 0 0 0]))
           (9 * 2 ^ 48)
           [sample_entry 1 12 8; sample_entry 0 0 0; sample_entry 0 0 0]).
  - reflexivity.
  - reflexivity.
  - lia.
Defined.

Lemma sample_table_ok (g : Z) (n : nat) (cl : Cluster) :
  Z.of_nat n < 2 ^ 64 -> length cl = 3%nat ->
  table_ok 3 (sample_table g (replicate n cl)).
Proof.
  intros Hn Hcl. unfold table_ok, sample_table. cbn [clusterCount clusters].
  rewrite length_replicate. split; [lia |]. split; [lia |].
  apply Forall_forall. intros c Hin.
  apply list_elem_of_In, elem_of_replicate in Hin. destruct Hin as [-> _].
  assumption.
Qed.

Lemma hashfull_first_1000_clusters_witness :
  hashfull 3 (sample_table 8 (replicate 1000 (replicate 3 (sample_entry 1 12 9))))
  = Ret (Z.of_nat
           (length (current_entries 8
                      (take 1000 (replicate 1000
                                    (replicate 3 (sample_entry 1 12 9))))))
         / Z.of_nat 3)
      (sample_table 8 (replicate 1000 (replicate 3 (sample_entry 1 12 9))))
  /\ hashfull 3 (sample_table 8 (replicate 999 (replicate 3 (sample_entry 1 12 9))))
     = Undefined.
Proof.
  split.
  - apply (proj1 (proj2 (hashfull_first_1000_clusters 3
             (sample_table 8 (replicate 1000 (replicate 3 (sample_entry 1 12 9))))))).
    + apply sample_table_ok; [lia | reflexivity].
    + vm_compute. congruence.
  - apply (proj2 (proj2 (hashfull_first_1000_clusters 3
             (sample_table 8 (replicate 999 (replicate 3 (sample_entry 1 12 9))))))).
    + unfold sample_table. cbn [clusters]. rewrite length_replicate. lia.
    + lia.
Defined.

Lemma sample_allocators_ok :
  allocators_ok 64 (fun _ _ => 0) (fun _ _ => 65536) (fun _ _ => 65536).
Proof.
  split; [| split]; intros tr n Hn;
    [right; lia | right; lia | left; reflexivity].
Qed.

(** [resize(64)] at program start, without large pages, [calloc]
    answering with a block at 64 KB. *)
Lemma resize_64MB_at_start :
  exists s1 : State,
    resize 3 64 32 1 false (fun _ => false) (fun _ => false) (fun _ => false)
      (fun _ => 0) 1300 (fun _ _ => 0) (fun _ _ => 65536)
      (fun _ _ => 65536) (fun _ _ _ => zero_entry) 64 initial_state
    = Ret tt s1
    /\ table_ok 3 s1
    /\ generation8 s1 = 0 /\ clusterCount s1 = 2097152.
Proof.
  destruct (resize_allocating_run 3 64 32 1 false
              (fun _ => false) (fun _ => false) (fun _ => false)
              (fun _ => 0) 1300 (fun _ _ => 0) (fun _ _ => 65536)
              (fun _ _ => 65536) (fun _ _ _ => zero_entry) 6 64 initial_state
              (mkState 0 0 0 0 64 false 0 (-1) 0 [] []))
    as [[H0 _] | (_ & Hok & Hret)];
    [lia | reflexivity | lia | lia | lia | vm_compute; reflexivity
     | exact sample_allocators_ok | reflexivity | reflexivity
     | vm_compute in H0; discriminate |].
  eexists. split; [exact Hret |].
  split; [apply zeroed_table_ok; exact Hok |].
  split; reflexivity.
Qed.

(** C8: the code at program start, where the generation is 0.
    [resize(64)] gives a table of 2097152 clusters; [clear()], here
    with one worker, returns with every entry of the table zero; and
    [hashfull()] right after it returns 1000, not 0: it compares the
    generation bits of an entry with [generation8] and does not look at
    the tag, so at the generation 0 every empty entry counts as an entry
    of the current search. *)
Theorem clear_then_hashfull_at_program_start :
  exists s1 s2 : State,
    resize 3 64 32 1 false (fun _ => false) (fun _ => false) (fun _ => false)
      (fun _ => 0) 1300 (fun _ _ => 0) (fun _ _ => 65536)
      (fun _ _ => 65536) (fun _ _ _ => zero_entry) 64 initial_state
    = Ret tt s1
    /\ generation8 s1 = 0
    /\ clusterCount s1 = 2097152
    /\ clear 3 1 s1 = Ret tt s2
    /\ (forall c i : nat,
          (c < Z.to_nat 2097152)%nat -> (i < 3)%nat ->
          entry_at s2 c i = Some zero_entry)
    /\ hashfull 3 s2 = Ret 1000 s2.
Proof.
  destruct resize_64MB_at_start as (s1 & Hret & Hok & Hg & Hcc).
  destruct (clear_then_hashfull_generation_0 3 1 s1)
    as (s2 & Hclear & _ & Hzero & Hfull);
    [lia | exact Hok | lia | rewrite Hcc; lia | exact Hg |].
  exists s1, s2. rewrite Hcc in Hzero. repeat (split; [assumption |]).
  assumption.
Qed.

Lemma clear_zeroes_table_witness :
  (forall idx, 0 <= idx < 2 ->
     start 2 (clusterCount (sample_table 8 (replicate 1001 (replicate 3 (sample_entry 1 12 9))))) idx
     = clusterCount (sample_table 8 (replicate 1001 (replicate 3 (sample_entry 1 12 9)))) / 2 * idx
     /\ len 2 (clusterCount (sample_table 8 (replicate 1001 (replicate 3 (sample_entry 1 12 9))))) idx
        = (if idx =? 2 - 1
           then clusterCount (sample_table 8 (replicate 1001 (replicate 3 (sample_entry 1 12 9))))
                - start 2 (clusterCount (sample_table 8 (replicate 1001 (replicate 3 (sample_entry 1 12 9))))) idx
           else clusterCount (sample_table 8 (replicate 1001 (replicate 3 (sample_entry 1 12 9)))) / 2)
     /\ 0 <= start 2 (clusterCount (sample_table 8 (replicate 1001 (replicate 3 (sample_entry 1 12 9))))) idx
     /\ start 2 (clusterCount (sample_table 8 (replicate 1001 (replicate 3 (sample_entry 1 12 9))))) idx
        + len 2 (clusterCount (sample_table 8 (replicate 1001 (replicate 3 (sample_entry 1 12 9))))) idx
        <= clusterCount (sample_table 8 (replicate 1001 (replicate 3 (sample_entry 1 12 9)))))
  /\ exists s' : State,
       clear 3 2 (sample_table 8 (replicate 1001 (replicate 3 (sample_entry 1 12 9))))
       = Ret tt s'
       /\ (forall x : nat, (x < 1001)%nat ->
             clusters s' !! x = Some (zero_cluster 3))
       /\ hashfull 3 s' = Ret 0 s'.
Proof.
  destruct (clear_zeroes_table 3 2
              (sample_table 8 (replicate 1001 (replicate 3 (sample_entry 1 12 9)))))
    as (Hranges & _ & s' & Hclear & _ & _ & Hzero & _ & Hfull).
  - lia.
  - apply sample_table_ok; [lia | reflexivity].
  - split; [exact Hranges |]. exists s'. split; [exact Hclear |]. split.
    + intros x Hx. apply Hzero.
      unfold sample_table. cbn [clusterCount]. rewrite length_replicate. lia.
    + apply Hfull.
      * unfold sample_table. cbn [generation8]. lia.
      * unfold sample_table. cbn [clusterCount]. rewrite length_replicate. lia.
Defined.

(** C6 as stated fails on the large-page path: with the option
    "Large Pages" set, the privilege granted and [VirtualAlloc] answering
    with a block at 2 MB, [resize(1)] asks for the 32768 * 32 bytes of
    the table and no byte more. *)
Lemma resize_large_pages_request_counterexample :
  match resize 3 64 32 1 true (fun _ => true) (fun _ => true) (fun _ => true)
          (fun _ => 0) 1300 (fun _ _ => 2097152) (fun _ _ => 65536)
          (fun _ _ => 65536) (fun _ _ _ => zero_entry) 1 initial_state with
  | Ret _ s' =>
      large_pages_used s' = true
      /\ clusterCount s' = 32768
      /\ trace s' = [Print (HashLargePages 1); VirtualAlloc (32768 * 32)]
      /\ block_size s' = 32768 * 32
      /\ block_size s' < clusterCount s' * 32 + 64 - 1
      /\ table s' = mem s'
  | _ => False
  end.
Proof.
  vm_compute. repeat split; reflexivity.
Qed.

(** [resize(1)] at program start, without large pages, [calloc]
    answering with a block at 64 KB. *)
Lemma resize_table_in_block_witness :
  exists s' : State,
    (resize 3 64 32 1 false (fun _ => false) (fun _ => false) (fun _ => false)
       (fun _ => 0) 1300 (fun _ _ => 0) (fun _ _ => 65536)
       (fun _ _ => 65536) (fun _ _ _ => zero_entry) 1 initial_state
     = Exit s'
     /\ mem s' = 0
     /\ exists tr, trace s' = Print (FailedToAllocate 1) :: tr)
    \/ (resize 3 64 32 1 false (fun _ => false) (fun _ => false) (fun _ => false)
          (fun _ => 0) 1300 (fun _ _ => 0) (fun _ _ => 65536)
          (fun _ _ => 65536) (fun _ _ _ => zero_entry) 1 initial_state
        = Ret tt s'
        /\ ((allocations (trace initial_state) < allocations (trace s'))%nat ->
            clusterCount s' = newClusterCount 32 1
            /\ mem s' <= table s'
            /\ table s' mod 64 = 0
            /\ table s' + clusterCount s' * 32 <= mem s' + block_size s'
            /\ (large_pages_used s' = false ->
                block_size s' = clusterCount s' * 32 + 64 - 1
                /\ exists tr,
                     trace s' = calloc (clusterCount s' * 32 + 64 - 1) :: tr
                     \/ trace s' = malloc (clusterCount s' * 32 + 64 - 1) :: tr)
            /\ (large_pages_used s' = true ->
                block_size s' = clusterCount s' * 32
                /\ table s' = mem s'
                /\ exists msg tr,
                     trace s' =
                       Print msg :: VirtualAlloc (clusterCount s' * 32) :: tr))).
Proof.
  apply (resize_table_in_block 3 64 32 1 false
           (fun _ => false) (fun _ => false) (fun _ => false)
           (fun _ => 0) 1300 (fun _ _ => 0) (fun _ _ => 65536)
           (fun _ _ => 65536) (fun _ _ _ => zero_entry) 6 1 initial_state).
  - lia.
  - reflexivity.
  - lia.
  - lia.
  - lia.
  - vm_compute. reflexivity.
  - intros tr n Hn. right. lia.
  - intros tr n Hn. right. lia.
  - intros tr n Hn. left. reflexivity.
Defined.

(** [resize(0)] at program start, [resize(0)] after [resize(1)] was
    asked for, and [resize(1)] on a table of this size. *)
Lemma resize_noop_cases_witness :
  resize 3 64 32 1 false (fun _ => false) (fun _ => false) (fun _ => false)
    (fun _ => 0) 1300 (fun _ _ => 0) (fun _ _ => 65536)
    (fun _ _ => 65536) (fun _ _ _ => zero_entry) 0 initial_state
  = Ret tt initial_state
  /\ exists s1 : State,
       resize 3 64 32 1 false (fun _ => false) (fun _ => false) (fun _ => false)
         (fun _ => 0) 1300 (fun _ _ => 0) (fun _ _ => 65536)
         (fun _ _ => 65536) (fun _ _ _ => zero_entry) 1
         (set_clusterCount 32768 initial_state)
       = Ret tt s1
       /\ table s1 = 0 /\ mem s1 = 0 /\ clusters s1 = [].
Proof.
  split.
  - apply (proj1 (resize_noop_cases 3 64 32 1 false
             (fun _ => false) (fun _ => false) (fun _ => false)
             (fun _ => 0) 1300 (fun _ _ => 0) (fun _ _ => 65536)
             (fun _ _ => 65536) (fun _ _ _ => zero_entry) 0 initial_state)).
    reflexivity.
  - destruct (proj2 (proj2 (resize_noop_cases 3 64 32 1 false
                (fun _ => false) (fun _ => false) (fun _ => false)
                (fun _ => 0) 1300 (fun _ _ => 0) (fun _ _ => 65536)
                (fun _ _ => 65536) (fun _ _ _ => zero_entry) 1
                (set_clusterCount 32768 initial_state))))
      as (s1 & HTry & Hu & _ & Ht & Hm & _ & Hcl & _ & _ & _ & _ & Hskip & _).
    + lia.
    + exists s1. split.
      * apply Hskip. split; [vm_compute; reflexivity |].
        right. split; [| reflexivity].
        vm_compute in HTry. inversion HTry. reflexivity.
      * split; [exact Ht |]. split; [exact Hm | exact Hcl].
Defined.

(** ** Runs of the code on sample tables *)

(** The cluster of depths 6, 5 and 7: the second entry is replaced. *)
Example probe_depths_6_5_7 :
  probe 3 (fun _ _ => 0%nat) (9 * 2 ^ 48)
    (sample_table 8 [[sample_entry 1 12 8; sample_entry 2 11 9;
                      sample_entry 3 13 10]])
  = Ret (false, (0%nat, 1%nat))
      (sample_table 8 [[sample_entry 1 12 8; sample_entry 2 11 9;
                        sample_entry 3 13 10]]).
Proof. reflexivity. Qed.

(** Two entries of the least replace value: the earlier one is taken. *)
Example probe_tie_keeps_first :
  probe 3 (fun _ _ => 0%nat) (9 * 2 ^ 48)
    (sample_table 8 [[sample_entry 1 12 8; sample_entry 2 11 9;
                      sample_entry 3 11 10]])
  = Ret (false, (0%nat, 1%nat))
      (sample_table 8 [[sample_entry 1 12 8; sample_entry 2 11 9;
                        sample_entry 3 11 10]]).
Proof. reflexivity. Qed.

(** An entry of depth 10 of the generation before is replaced rather
    than entries of depth 6 of the current generation. *)
Example probe_generation_aging :
  probe 3 (fun _ _ => 0%nat) (9 * 2 ^ 48)
    (sample_table 16 [[sample_entry 1 12 16; sample_entry 2 16 8;
                       sample_entry 3 12 17]])
  = Ret (false, (0%nat, 1%nat))
      (sample_table 16 [[sample_entry 1 12 16; sample_entry 2 16 8;
                         sample_entry 3 12 17]]).
Proof. reflexivity. Qed.

(** The same across the wrap of the generation counter, from 248 to 0. *)
Example probe_generation_wrap :
  probe 3 (fun _ _ => 0%nat) (9 * 2 ^ 48)
    (sample_table 0 [[sample_entry 1 12 0; sample_entry 2 16 249;
                      sample_entry 3 12 1]])
  = Ret (false, (0%nat, 1%nat))
      (sample_table 0 [[sample_entry 1 12 0; sample_entry 2 16 249;
                        sample_entry 3 12 1]]).
Proof. reflexivity. Qed.

(** An empty slot is returned with [found = false] and takes the
    current generation. *)
Example probe_empty_slot :
  probe 3 (fun _ _ => 0%nat) (9 * 2 ^ 48)
    (sample_table 8 [[sample_entry 1 12 8; sample_entry 0 0 0;
                      sample_entry 0 0 0]])
  = Ret (false, (0%nat, 1%nat))
      (sample_table 8 [[sample_entry 1 12 8; sample_entry 0 0 8;
                        sample_entry 0 0 0]]).
Proof. reflexivity. Qed.

(** The first 1000 clusters full of entries of the current generation. *)
Example hashfull_saturated :
  hashfull 3 (sample_table 8 (replicate 1000 (replicate 3 (sample_entry 1 12 11))))
  = Ret 1000
      (sample_table 8 (replicate 1000 (replicate 3 (sample_entry 1 12 11)))).
Proof. vm_compute. reflexivity. Qed.

(** [clear] with three workers on seven clusters: the ranges are
    [0, 2), [2, 4) and [4, 7). *)
Example clear_three_workers :
  (start 3 7 0, len 3 7 0) = (0, 2)
  /\ (start 3 7 1, len 3 7 1) = (2, 2)
  /\ (start 3 7 2, len 3 7 2) = (4, 3)
  /\ clear 3 3 (sample_table 8 (replicate 7 (replicate 3 (sample_entry 1 12 9))))
     = Ret tt (sample_table 8 (replicate 7 (replicate 3 zero_entry))).
Proof. repeat split; vm_compute; reflexivity. Qed.

(** ** The further properties at sample inputs *)

Lemma replace_value_bounds_witness :
  replace_value 8 (sample_entry 1 12 250)
  = depth8 (sample_entry 1 12 250)
    - Z.land (263 + 8 - genBound8 (sample_entry 1 12 250)) 248
  /\ 0 <= Z.land (263 + 8 - genBound8 (sample_entry 1 12 250)) 248 <= 248
  /\ Z.land (263 + 8 - genBound8 (sample_entry 1 12 250)) 248 mod 8 = 0
  /\ -248 <= replace_value 8 (sample_entry 1 12 250) <= 255.
Proof.
  apply (replace_value_bounds 8 (sample_entry 1 12 250)). cbn. lia.
Defined.

(** A first [save] for the key with the tag 9 on an entry of the tag 1. *)
Lemma save_keeps_entry_wf_witness :
  exists e' : TTEntry,
    save (-6) 3 8 (sample_entry 1 12 8) (9 * 2 ^ 48) 100 true 1 10 7 50
    = Some e'
    /\ entry_wf e'.
Proof.
  exists (mkTTEntry 9 7 100 50 13 16).
  split; [reflexivity |].
  apply (save_keeps_entry_wf (-6) 3 8 (sample_entry 1 12 8)
           (mkTTEntry 9 7 100 50 13 16) (9 * 2 ^ 48) 100 true 1 10 7 50).
  - unfold entry_wf. cbn. lia.
  - reflexivity.
Defined.

Lemma save_stores_arguments_witness :
  exists e' : TTEntry,
    save (-6) 3 8 (sample_entry 1 12 8) (9 * 2 ^ 48) 100 true 1 10 7 50
    = Some e'
    /\ key16 e' = Z.shiftr (9 * 2 ^ 48) 48
    /\ value16 e' = 100 /\ eval16 e' = 50
    /\ depth8 e' = 10 - -6
    /\ genBound8 e' = 8 + 4 * bool_to_Z true + 1
    /\ Z.land (genBound8 e') 248 = 8
    /\ Z.land (genBound8 e') 7 = 4 * bool_to_Z true + 1
    /\ move16 e' = (if (7 =? 0)
                       && (Z.shiftr (9 * 2 ^ 48) 48
                           =? key16 (sample_entry 1 12 8))
                    then move16 (sample_entry 1 12 8) else 7).
Proof.
  apply (save_stores_arguments (-6) 3 8 (sample_entry 1 12 8)
           (9 * 2 ^ 48) 100 true 1 10 7 50); try lia.
  - reflexivity.
  - left. vm_compute. discriminate.
Defined.

(** The same [save] twice. *)
Lemma save_idempotent_witness :
  save (-6) 3 8 (mkTTEntry 9 7 100 50 13 16) (9 * 2 ^ 48) 100 true 1 10 7 50
  = Some (mkTTEntry 9 7 100 50 13 16).
Proof.
  apply (save_idempotent (-6) 3 8 (sample_entry 1 12 8)
           (mkTTEntry 9 7 100 50 13 16) (9 * 2 ^ 48) 100 true 1 10 7 50).
  - lia.
  - reflexivity.
Defined.

Lemma probe_twice_witness :
  exists (r : bool * (nat * nat)) (s' : State),
    probe 3 (fun _ _ => 0%nat) (2 * 2 ^ 48)
      (sample_table 8 [[sample_entry 1 12 8; sample_entry 2 11 1;
                        sample_entry 0 0 0]])
    = Ret r s'
    /\ probe 3 (fun _ _ => 0%nat) (2 * 2 ^ 48) s' = Ret r s'.
Proof.
  apply (probe_twice 3 (fun _ _ => 0%nat)
           (sample_table 8 [[sample_entry 1 12 8; sample_entry 2 11 1;
                             sample_entry 0 0 0]])
           (2 * 2 ^ 48)
           [sample_entry 1 12 8; sample_entry 2 11 1; sample_entry 0 0 0]).
  - reflexivity.
  - reflexivity.
  - lia.
Defined.

(** The key with the tag 2 behind an empty slot: it is in the cluster
    and is not found. *)
Lemma probe_found_iff_witness :
  exists (found : bool) (i : nat) (s' : State),
    probe 3 (fun _ _ => 0%nat) (2 * 2 ^ 48)
      (sample_table 8 [[sample_entry 1 12 8; sample_entry 0 0 0;
                        sample_entry 2 11 1]])
    = Ret (found, (0%nat, i)) s'
    /\ found = false.
Proof.
  destruct (probe_found_iff 3 (fun _ _ => 0%nat)
              (sample_table 8 [[sample_entry 1 12 8; sample_entry 0 0 0;
                                sample_entry 2 11 1]])
              (2 * 2 ^ 48)
              [sample_entry 1 12 8; sample_entry 0 0 0; sample_entry 2 11 1])
    as (found & i & s' & Hp & Hiff & _ & _).
  - reflexivity.
  - reflexivity.
  - lia.
  - exists found, i, s'. split; [exact Hp |].
    destruct found; [| reflexivity].
    destruct (proj1 Hiff eq_refl) as (j & e & Hj & Htag & Hne & Hfull).
    exfalso.
    destruct j as [| [| [| j]]]; cbn in Hj; inversion Hj; subst e.
    + vm_compute in Htag. discriminate.
    + apply Hne. reflexivity.
    + apply (Hfull 1%nat (sample_entry 0 0 0)); [lia | reflexivity | reflexivity].
Defined.

(** [probe] for the key with the tag 9 in a full cluster gives the
    second entry to replace; after [save] on it the key is found
    there. *)
Lemma save_then_probe_finds_witness :
  exists (s2 : State) (e2 : TTEntry),
    save_entry (-6) 3
      (sample_table 8 [[sample_entry 1 12 8; sample_entry 2 11 9;
                        sample_entry 3 13 10]])
      0 1 (9 * 2 ^ 48) 100 true 1 10 7 50
    = Some s2
    /\ probe 3 (fun _ _ => 0%nat) (9 * 2 ^ 48) s2 = Ret (true, (0%nat, 1%nat)) s2
    /\ entry_at s2 0 1 = Some e2
    /\ key16 e2 = Z.shiftr (9 * 2 ^ 48) 48
    /\ (false = false ->
        value16 e2 = int16_t 100 /\ eval16 e2 = int16_t 50
        /\ depth8 e2 = uint8_t (10 - -6)
        /\ move16 e2 = uint16_t 7).
Proof.
  apply (save_then_probe_finds (-6) 3 3 (fun _ _ => 0%nat)
           (sample_table 8 [[sample_entry 1 12 8; sample_entry 2 11 9;
                             sample_entry 3 13 10]])
           (sample_table 8 [[sample_entry 1 12 8; sample_entry 2 11 9;
                             sample_entry 3 13 10]])
           (9 * 2 ^ 48)
           [sample_entry 1 12 8; sample_entry 2 11 9; sample_entry 3 13 10]
           false 0%nat 1%nat 100 true 1 10 7 50).
  - reflexivity.
  - reflexivity.
  - lia.
  - lia.
  - vm_compute. discriminate.
  - lia.
  - lia.
  - vm_compute. reflexivity.
Defined.

Lemma clear_then_probe_not_found_witness :
  exists s1 s2 : State,
    clear 3 2 (sample_table 8 (replicate 4 (replicate 3 (sample_entry 9 12 9))))
    = Ret tt s1
    /\ probe 3 (fun _ _ => 0%nat) (9 * 2 ^ 48) s1
       = Ret (false, (0%nat, 0%nat)) s2
    /\ entry_at s2 0 0 = Some (set_genBound8 (uint8_t 8) zero_entry).
Proof.
  destruct (clear_then_probe_not_found 3 (fun _ _ => 0%nat) 2
              (sample_table 8 (replicate 4 (replicate 3 (sample_entry 9 12 9))))
              (9 * 2 ^ 48))
    as (s1 & s2 & Hclear & Hprobe & Hat & _).
  - lia.
  - apply sample_table_ok; [lia | reflexivity].
  - lia.
  - vm_compute. lia.
  - exists s1, s2. split; [exact Hclear |]. split; [exact Hprobe | exact Hat].
Defined.

(** A table whose entries all carry the current generation. *)
Lemma hashfull_extremes_witness :
  hashfull 3 (sample_table 8 (replicate 1000 (replicate 3 (sample_entry 1 12 9))))
  = Ret 1000
      (sample_table 8 (replicate 1000 (replicate 3 (sample_entry 1 12 9)))).
Proof.
  destruct (hashfull_extremes 3
              (sample_table 8 (replicate 1000 (replicate 3 (sample_entry 1 12 9)))))
    as (r & Hr & H1000 & _).
  - apply sample_table_ok; [lia | reflexivity].
  - unfold sample_table. cbn [clusterCount]. rewrite length_replicate. lia.
  - lia.
  - rewrite Hr. f_equal. apply H1000.
    intros c i e Hc He.
    assert (Hl : clusters (sample_table 8 (replicate 1000
                             (replicate 3 (sample_entry 1 12 9)))) !! c
                 = Some (replicate 3 (sample_entry 1 12 9))).
    { unfold sample_table. cbn [clusters]. apply lookup_replicate_2. exact Hc. }
    rewrite (entry_at_cluster _ _ _ _ Hl) in He.
    apply lookup_replicate in He. destruct He as [-> _]. reflexivity.
Defined.

Lemma probe_never_lowers_hashfull_witness :
  exists (r : bool * (nat * nat)) (s' : State) (h h' : Z),
    probe 3 (fun _ _ => 0%nat) (9 * 2 ^ 48)
      (sample_table 8 (replicate 1000 (replicate 3 (sample_entry 1 12 1))))
    = Ret r s'
    /\ hashfull 3
         (sample_table 8 (replicate 1000 (replicate 3 (sample_entry 1 12 1))))
       = Ret h
           (sample_table 8 (replicate 1000 (replicate 3 (sample_entry 1 12 1))))
    /\ hashfull 3 s' = Ret h' s'
    /\ h <= h' <= h + 1.
Proof.
  apply (probe_never_lowers_hashfull 3 (fun _ _ => 0%nat)
           (sample_table 8 (replicate 1000 (replicate 3 (sample_entry 1 12 1))))
           (9 * 2 ^ 48)).
  - apply sample_table_ok; [lia | reflexivity].
  - unfold sample_table. cbn [clusterCount]. rewrite length_replicate. lia.
  - lia.
  - unfold sample_table. cbn [clusterCount]. rewrite length_replicate. lia.
  - unfold sample_table. cbn [generation8]. lia.
  - reflexivity.
Defined.

(** 16 megabytes in clusters of 32 bytes. *)
Lemma newClusterCount_bounds_witness :
  (0 <= 16 < 2 ^ 44 ->
   newClusterCount 32 16 = 16 * 2 ^ 20 / 32
   /\ newClusterCount 32 16 * 32 <= 16 * 2 ^ 20
      < (newClusterCount 32 16 + 1) * 32)
  /\ newClusterCount 32 (16 + 2 ^ 44) = newClusterCount 32 16.
Proof.
  apply (newClusterCount_bounds 32 16). lia.
Defined.

(** [resize(1)] at program start, without large pages, [calloc]
    answering with a block at 64 KB. *)
Lemma resize_1MB_standard :
  exists s' : State,
    resize 3 64 32 1 false (fun _ => false) (fun _ => false) (fun _ => false)
      (fun _ => 0) 1300 (fun _ _ => 0) (fun _ _ => 65536)
      (fun _ _ => 65536) (fun _ _ _ => zero_entry) 1 initial_state
    = Ret tt s'
    /\ mem s' = 65536 /\ large_pages_used s' = false
    /\ trace s' = [calloc 1048639].
Proof.
  destruct (resize_allocating_run 3 64 32 1 false
              (fun _ => false) (fun _ => false) (fun _ => false)
              (fun _ => 0) 1300 (fun _ _ => 0) (fun _ _ => 65536)
              (fun _ _ => 65536) (fun _ _ _ => zero_entry) 6 1 initial_state
              (mkState 0 0 0 0 1 false 0 (-1) 0 [] []))
    as [[H0 _] | (_ & _ & Hret)];
    [lia | reflexivity | lia | lia | lia | vm_compute; reflexivity
     | exact sample_allocators_ok | reflexivity | reflexivity
     | vm_compute in H0; discriminate |].
  eexists. split; [exact Hret |]. repeat split.
Qed.

(** [resize(1)] at program start with large pages wanted and the
    privilege granted, [VirtualAlloc] answering with 0 and [malloc] with
    a block at 64 KB. *)
Lemma resize_1MB_fallback :
  exists s' : State,
    resize 3 64 32 1 true (fun _ => true) (fun _ => true) (fun _ => true)
      (fun _ => 0) 1300 (fun _ _ => 0) (fun _ _ => 65536)
      (fun _ _ => 65536) (fun _ _ _ => zero_entry) 1 initial_state
    = Ret tt s'
    /\ mem s' = 65536 /\ large_pages_used s' = false
    /\ got_privileges s' = 1 /\ use_large_pages s' = 0
    /\ clusterCount s' = 32768 /\ mbSize_last_used s' = 1
    /\ trace s' = [malloc 1048639; Print (FailedLargePageMemory 1);
                   VirtualAlloc 1048576].
Proof.
  destruct (resize_allocating_run 3 64 32 1 true
              (fun _ => true) (fun _ => true) (fun _ => true)
              (fun _ => 0) 1300 (fun _ _ => 0) (fun _ _ => 65536)
              (fun _ _ => 65536) (fun _ _ _ => zero_entry) 6 1 initial_state
              (mkState 0 0 0 0 1 false 1 1 0 [] []))
    as [[H0 _] | (_ & _ & Hret)];
    [lia | reflexivity | lia | lia | lia | vm_compute; reflexivity
     | exact sample_allocators_ok | reflexivity | reflexivity
     | vm_compute in H0; discriminate |].
  eexists. split; [exact Hret |]. repeat split.
Qed.

Lemma Try_Get_LockMemory_Privileges_once_witness :
  exists s1 : State,
    Try_Get_LockMemory_Privileges true (fun _ => true) (fun _ => true)
      (fun _ => true) (fun _ => 1300) 1300 initial_state
    = Ret tt s1
    /\ Try_Get_LockMemory_Privileges true (fun _ => true) (fun _ => true)
         (fun _ => true) (fun _ => 1300) 1300 s1
       = Ret tt s1
    /\ got_privileges s1 = 0 /\ use_large_pages s1 = 0
    /\ trace s1 = [Print NoPrivilegeForLargePages].
Proof.
  destruct (Try_Get_LockMemory_Privileges_once true (fun _ => true)
              (fun _ => true) (fun _ => true) (fun _ => 1300) 1300
              initial_state)
    as (s1 & H1 & H2 & _).
  exists s1. split; [exact H1 |]. split; [exact H2 |].
  vm_compute in H1. inversion H1. repeat split.
Defined.

Lemma resize_fresh_table_witness :
  exists s' : State,
    resize 3 64 32 1 false (fun _ => false) (fun _ => false) (fun _ => false)
      (fun _ => 0) 1300 (fun _ _ => 0) (fun _ _ => 65536)
      (fun _ _ => 65536) (fun _ _ _ => zero_entry) 1 initial_state
    = Ret tt s'
    /\ table_ok 3 s'
    /\ clusterCount s' = 32768
    /\ generation8 s' = 0
    /\ mbSize_last_used s' = 1
    /\ entry_at s' 1000 2 = Some zero_entry
    /\ exists s2 : State,
         probe 3 (fun _ _ => 0%nat) (9 * 2 ^ 48) s'
         = Ret (false, (0%nat, 0%nat)) s2.
Proof.
  destruct resize_1MB_standard as (s' & Hret & _ & _ & Htr).
  exists s'. split; [exact Hret |].
  destruct (resize_fresh_table 3 64 32 (fun _ _ => 0%nat) 1 false
              (fun _ => false) (fun _ => false) (fun _ => false)
              (fun _ => 0) 1300 (fun _ _ => 0) (fun _ _ => 65536)
              (fun _ _ => 65536) (fun _ _ _ => zero_entry) 6 1 initial_state
              s' ltac:(lia) eq_refl ltac:(lia) ltac:(lia) ltac:(lia)
              ltac:(vm_compute; reflexivity) sample_allocators_ok Hret)
    as (Hok & Hcc & Hg & Hlast & Hzero & Hprobe).
  - rewrite Htr. vm_compute. lia.
  - assert (Hn : newClusterCount 32 1 = 32768) by reflexivity.
    rewrite Hn in Hcc.
    split; [exact Hok |]. split; [exact Hcc |]. split; [exact Hg |].
    split; [exact Hlast |]. split.
    + apply Hzero; [rewrite Hcc |]; lia.
    + apply (Hprobe (9 * 2 ^ 48)); [lia |]. rewrite Hcc. lia.
Defined.

(** [resize(1)] and [resize(0)] after [resize(1)]. *)
Lemma resize_settles_witness :
  exists s' : State,
    resize 3 64 32 1 false (fun _ => false) (fun _ => false) (fun _ => false)
      (fun _ => 0) 1300 (fun _ _ => 0) (fun _ _ => 65536)
      (fun _ _ => 65536) (fun _ _ _ => zero_entry) 1 initial_state
    = Ret tt s'
    /\ resize 3 64 32 1 false (fun _ => false) (fun _ => false) (fun _ => false)
         (fun _ => 0) 1300 (fun _ _ => 0) (fun _ _ => 65536)
         (fun _ _ => 65536) (fun _ _ _ => zero_entry) 1 s'
       = Ret tt s'
    /\ resize 3 64 32 1 false (fun _ => false) (fun _ => false) (fun _ => false)
         (fun _ => 0) 1300 (fun _ _ => 0) (fun _ _ => 65536)
         (fun _ _ => 65536) (fun _ _ _ => zero_entry) 0 s'
       = Ret tt s'.
Proof.
  destruct resize_1MB_standard as (s' & Hret & _).
  exists s'. split; [exact Hret |].
  apply (resize_settles 3 64 32 1 false
           (fun _ => false) (fun _ => false) (fun _ => false)
           (fun _ => 0) 1300 (fun _ _ => 0) (fun _ _ => 65536)
           (fun _ _ => 65536) (fun _ _ _ => zero_entry) 1 initial_state s' Hret).
  left. reflexivity.
Defined.

(** [resize(1)] again after the fall back of [resize(1)]: the table has
    the size asked for, and is released and allocated again. *)
Lemma resize_after_fallback_witness :
  exists s' : State,
    resize 3 64 32 1 true (fun _ => true) (fun _ => true) (fun _ => true)
      (fun _ => 0) 1300 (fun _ _ => 0) (fun _ _ => 65536)
      (fun _ _ => 65536) (fun _ _ _ => zero_entry) 1 initial_state
    = Ret tt s'
    /\ clusterCount s' = newClusterCount 32 1
    /\ forall s'' : State,
         resize 3 64 32 1 true (fun _ => true) (fun _ => true) (fun _ => true)
           (fun _ => 0) 1300 (fun _ _ => 0) (fun _ _ => 65536)
           (fun _ _ => 65536) (fun _ _ _ => zero_entry) 1 s'
         = Ret tt s''
         \/ resize 3 64 32 1 true (fun _ => true) (fun _ => true)
              (fun _ => true) (fun _ => 0) 1300 (fun _ _ => 0)
              (fun _ _ => 65536) (fun _ _ => 65536)
              (fun _ _ _ => zero_entry) 1 s'
            = Exit s'' ->
         (allocations (trace s') < allocations (trace s''))%nat.
Proof.
  destruct resize_1MB_fallback
    as (s' & Hret & _ & Hlpu & Hgp & _ & Hcc & _ & Htr).
  exists s'. split; [exact Hret |]. split; [exact Hcc |].
  intros s'' Hres2.
  apply (resize_after_fallback 3 64 32 1 true
           (fun _ => true) (fun _ => true) (fun _ => true)
           (fun _ => 0) 1300 (fun _ _ => 0) (fun _ _ => 65536)
           (fun _ _ => 65536) (fun _ _ _ => zero_entry)
           1 1 initial_state s' s'' Hret).
  - rewrite Htr. vm_compute. lia.
  - reflexivity.
  - rewrite Hgp. lia.
  - exact Hlpu.
  - lia.
  - exact Hres2.
Defined.

(** [resize(2)] after [resize(1)]: the block from [calloc] is given
    back by [free] before the next [calloc]. *)
Lemma resize_release_order_witness :
  exists s' : State,
    resize 3 64 32 1 false (fun _ => false) (fun _ => false) (fun _ => false)
      (fun _ => 0) 1300 (fun _ _ => 0) (fun _ _ => 65536)
      (fun _ _ => 65536) (fun _ _ _ => zero_entry) 1 initial_state
    = Ret tt s'
    /\ release_events s' = [free 65536]
    /\ forall s'' : State,
         resize 3 64 32 1 false (fun _ => false) (fun _ => false)
           (fun _ => false) (fun _ => 0) 1300 (fun _ _ => 0)
           (fun _ _ => 65536) (fun _ _ => 65536)
           (fun _ _ _ => zero_entry) 2 s'
         = Ret tt s'' ->
         (allocations (trace s') < allocations (trace s''))%nat ->
         exists post pre : list Event,
           trace s'' = post ++ [free 65536] ++ pre ++ trace s'
           /\ Forall (fun ev => is_release ev = false) post
           /\ Forall (fun ev => is_release ev = false
                                /\ is_allocation ev = false) pre
           /\ (0 < allocations post)%nat.
Proof.
  destruct resize_1MB_standard as (s' & Hret & Hmem & Hlpu & _).
  assert (Hrel : release_events s' = [free 65536]).
  { unfold release_events. rewrite Hmem, Hlpu. reflexivity. }
  exists s'. split; [exact Hret |]. split; [exact Hrel |].
  intros s'' Hres2 Hgrow. rewrite <- Hrel.
  apply (resize_release_order 3 64 32 1 false
           (fun _ => false) (fun _ => false) (fun _ => false)
           (fun _ => 0) 1300 (fun _ _ => 0) (fun _ _ => 65536)
           (fun _ _ => 65536) (fun _ _ _ => zero_entry) 2 s' s'').
  - lia.
  - left. exact Hres2.
  - exact Hgrow.
Defined.
